(** * DeepInsight-SQL: the SQL validation and safe-execution gateway

    A shallow embedding of [MCP_SERVER/SQLCritic_MCP.py]: the lexical safety
    scan, the schema-aware name resolver, the static check, the two-phase
    execution coordinator and the streaming CSV exporter, followed by the
    properties the specification states about them.

    Conventions.
    - A text is a [string]: a sequence of Unicode code points, as a Python
      [str] is.  String literals are read as UTF-8, so the messages of the
      gateway are the code points written in the source.  The character
      classes are those of CPython 3.11 (Unicode 14.0), written out as
      tables: [\s] and [str.strip()] take the 29 white-space code points,
      [\w] and [\b] the alphanumeric code points and the underscore, and
      [re.I] compares a letter of a pattern with a character of the text
      through the lower-case mapping and the extra pairs of the [re]
      module.  [str.lower()] is the lower-case mapping, the capital I with
      a dot giving two code points and the capital sigma the final sigma
      at the end of a word.
    - The SQL parser (sqlglot), the database driver (pymysql), the random
      number generator and the file system are collaborators: their answers
      are inputs of the model, and an answer may be an exception.
    - The calls made to the store and to the file system are recorded in a
      trace, and the files of the export directory in a map, both threaded
      through the functions that have effects. *)

From Stdlib Require Import List Bool Arith ZArith NArith Lia Sorted
  Permutation.
From Stdlib.Strings Require Byte.
From Stdlib Require DecimalString.
Import ListNotations.

(* ================================================================= *)
(** ** Unicode: characters and strings as Python has them *)

Module Unicode.
Local Open Scope N_scope.

(** a character is a code point *)
Variant char : Set := Char (point : N).

Definition point (c : char) : N := match c with Char n => n end.

Inductive string : Set :=
| EmptyString
| String (c : char) (s : string).

Fixpoint append (a b : string) : string :=
  match a with
  | EmptyString => b
  | String c a' => String c (append a' b)
  end.

(** *** Literals: the UTF-8 encoding *)

(** [k] continuation bytes *)
Fixpoint continuation (k : nat) (acc : N) (bs : list Byte.byte)
  : option (N * list Byte.byte) :=
  match k with
  | O => Some (acc, bs)
  | S k' =>
      match bs with
      | b :: rest =>
          let v := Byte.to_N b in
          if N.leb 128 v && N.ltb v 192
          then continuation k' (acc * 64 + (v - 128)) rest
          else None
      | [] => None
      end
  end.

Fixpoint decode (fuel : nat) (bs : list Byte.byte) : option (list N) :=
  match fuel with
  | O => match bs with [] => Some [] | _ => None end
  | S fuel' =>
      match bs with
      | [] => Some []
      | b :: rest =>
          let v := Byte.to_N b in
          let lead :=
            if N.ltb v 128 then Some (0%nat, v)
            else if N.ltb v 192 then None
            else if N.ltb v 224 then Some (1%nat, v - 192)
            else if N.ltb v 240 then Some (2%nat, v - 224)
            else if N.ltb v 248 then Some (3%nat, v - 240)
            else None in
          match lead with
          | None => None
          | Some (k, acc) =>
              match continuation k acc rest with
              | None => None
              | Some (n, rest') =>
                  match decode fuel' rest' with
                  | None => None
                  | Some ns => Some (n :: ns)
                  end
              end
          end
      end
  end.

Definition byte_of (n : N) : Byte.byte :=
  match Byte.of_N n with Some b => b | None => Byte.x00 end.

Definition encode (n : N) : list Byte.byte :=
  if N.ltb n 128 then [byte_of n]
  else if N.ltb n 2048 then
    [byte_of (192 + n / 64); byte_of (128 + n mod 64)]
  else if N.ltb n 65536 then
    [byte_of (224 + n / 4096); byte_of (128 + (n / 64) mod 64);
     byte_of (128 + n mod 64)]
  else
    [byte_of (240 + n / 262144); byte_of (128 + (n / 4096) mod 64);
     byte_of (128 + (n / 64) mod 64); byte_of (128 + n mod 64)].

Fixpoint of_points (ns : list N) : string :=
  match ns with
  | [] => EmptyString
  | n :: r => String (Char n) (of_points r)
  end.

Fixpoint points (s : string) : list N :=
  match s with
  | EmptyString => []
  | String c r => point c :: points r
  end.

Definition string_of_bytes (bs : list Byte.byte) : option string :=
  option_map of_points (decode (length bs) bs).

Definition bytes_of_string (s : string) : list Byte.byte :=
  flat_map encode (points s).

Definition char_of_bytes (bs : list Byte.byte) : option char :=
  match decode (length bs) bs with
  | Some [n] => Some (Char n)
  | _ => None
  end.

Definition bytes_of_char (c : char) : list Byte.byte := encode (point c).

(** the decimal digits of a number, as the standard library prints them *)
Fixpoint of_digits (s : Stdlib.Strings.String.string) : string :=
  match s with
  | Stdlib.Strings.String.EmptyString => EmptyString
  | Stdlib.Strings.String.String a r =>
      String (Char (Stdlib.Strings.Ascii.N_of_ascii a)) (of_digits r)
  end.

End Unicode.

Import Unicode.

String Notation string string_of_bytes bytes_of_string : string_scope.
String Notation char char_of_bytes bytes_of_char : char_scope.
Delimit Scope string_scope with string.
Delimit Scope char_scope with char.
Bind Scope string_scope with string.
Bind Scope char_scope with char.
Arguments String c%_char_scope s%_string_scope.
Infix "++" := append (right associativity, at level 60) : string_scope.

Local Open Scope string_scope.
Local Open Scope list_scope.

Module Char.

Definition eqb (a b : char) : bool := N.eqb (point a) (point b).

Definition compare (a b : char) : comparison :=
  N.compare (point a) (point b).

End Char.

Module String.

Fixpoint eqb (a b : string) : bool :=
  match a, b with
  | EmptyString, EmptyString => true
  | String c a', String d b' => Char.eqb c d && eqb a' b'
  | _, _ => false
  end.

Fixpoint length (s : string) : nat :=
  match s with
  | EmptyString => 0
  | String _ r => S (length r)
  end.

(** [s[n]], when there is one *)
Fixpoint get (n : nat) (s : string) : option char :=
  match s, n with
  | EmptyString, _ => None
  | String c _, O => Some c
  | String _ r, S n' => get n' r
  end.

(** the order of [str]: code point by code point *)
Fixpoint compare (a b : string) : comparison :=
  match a, b with
  | EmptyString, EmptyString => Eq
  | EmptyString, String _ _ => Lt
  | String _ _, EmptyString => Gt
  | String c a', String d b' =>
      match Char.compare c d with
      | Eq => compare a' b'
      | ne => ne
      end
  end.

Definition leb (a b : string) : bool :=
  match compare a b with Gt => false | _ => true end.

End String.

(** [s.startswith(p)] *)
Fixpoint prefix (p s : string) : bool :=
  match p with
  | EmptyString => true
  | String a p' =>
      match s with
      | EmptyString => false
      | String c s' => Char.eqb a c && prefix p' s'
      end
  end.

Definition char_dec (a b : char) : {a = b} + {a <> b}.
Proof. decide equality. apply N.eq_dec. Defined.

Definition string_dec (a b : string) : {a = b} + {a <> b}.
Proof. decide equality. apply char_dec. Defined.

(* ================================================================= *)
(** ** Ucd: the character tables of CPython 3.11 (Unicode 14.0) *)

Module Ucd.
Local Open Scope N_scope.

(** the code points [str.isspace] accepts *)
Definition white_space : list N :=
  [9; 10; 11; 12; 13; 28; 29; 30; 31; 32; 133; 160; 5760; 8192; 8193; 8194;
   8195; 8196; 8197; 8198; 8199; 8200; 8201; 8202; 8232; 8233; 8239; 8287;
   12288].

(** the ranges of the code points that are alphanumeric
    ([str.isalnum]) or the underscore *)
Definition word_ranges : list (N * N) :=
  [(48, 57); (65, 90); (95, 95); (97, 122); (170, 170); (178, 179);
   (181, 181); (185, 186); (188, 190); (192, 214); (216, 246); (248, 705);
   (710, 721); (736, 740); (748, 748); (750, 750); (880, 884); (886, 887);
   (890, 893); (895, 895); (902, 902); (904, 906); (908, 908); (910, 929);
   (931, 1013); (1015, 1153); (1162, 1327); (1329, 1366); (1369, 1369);
   (1376, 1416); (1488, 1514); (1519, 1522); (1568, 1610); (1632, 1641);
   (1646, 1647); (1649, 1747); (1749, 1749); (1765, 1766); (1774, 1788);
   (1791, 1791); (1808, 1808); (1810, 1839); (1869, 1957); (1969, 1969);
   (1984, 2026); (2036, 2037); (2042, 2042); (2048, 2069); (2074, 2074);
   (2084, 2084); (2088, 2088); (2112, 2136); (2144, 2154); (2160, 2183);
   (2185, 2190); (2208, 2249); (2308, 2361); (2365, 2365); (2384, 2384);
   (2392, 2401); (2406, 2415); (2417, 2432); (2437, 2444); (2447, 2448);
   (2451, 2472); (2474, 2480); (2482, 2482); (2486, 2489); (2493, 2493);
   (2510, 2510); (2524, 2525); (2527, 2529); (2534, 2545); (2548, 2553);
   (2556, 2556); (2565, 2570); (2575, 2576); (2579, 2600); (2602, 2608);
   (2610, 2611); (2613, 2614); (2616, 2617); (2649, 2652); (2654, 2654);
   (2662, 2671); (2674, 2676); (2693, 2701); (2703, 2705); (2707, 2728);
   (2730, 2736); (2738, 2739); (2741, 2745); (2749, 2749); (2768, 2768);
   (2784, 2785); (2790, 2799); (2809, 2809); (2821, 2828); (2831, 2832);
   (2835, 2856); (2858, 2864); (2866, 2867); (2869, 2873); (2877, 2877);
   (2908, 2909); (2911, 2913); (2918, 2927); (2929, 2935); (2947, 2947);
   (2949, 2954); (2958, 2960); (2962, 2965); (2969, 2970); (2972, 2972);
   (2974, 2975); (2979, 2980); (2984, 2986); (2990, 3001); (3024, 3024);
   (3046, 3058); (3077, 3084); (3086, 3088); (3090, 3112); (3114, 3129);
   (3133, 3133); (3160, 3162); (3165, 3165); (3168, 3169); (3174, 3183);
   (3192, 3198); (3200, 3200); (3205, 3212); (3214, 3216); (3218, 3240);
   (3242, 3251); (3253, 3257); (3261, 3261); (3293, 3294); (3296, 3297);
   (3302, 3311); (3313, 3314); (3332, 3340); (3342, 3344); (3346, 3386);
   (3389, 3389); (3406, 3406); (3412, 3414); (3416, 3425); (3430, 3448);
   (3450, 3455); (3461, 3478); (3482, 3505); (3507, 3515); (3517, 3517);
   (3520, 3526); (3558, 3567); (3585, 3632); (3634, 3635); (3648, 3654);
   (3664, 3673); (3713, 3714); (3716, 3716); (3718, 3722); (3724, 3747);
   (3749, 3749); (3751, 3760); (3762, 3763); (3773, 3773); (3776, 3780);
   (3782, 3782); (3792, 3801); (3804, 3807); (3840, 3840); (3872, 3891);
   (3904, 3911); (3913, 3948); (3976, 3980); (4096, 4138); (4159, 4169);
   (4176, 4181); (4186, 4189); (4193, 4193); (4197, 4198); (4206, 4208);
   (4213, 4225); (4238, 4238); (4240, 4249); (4256, 4293); (4295, 4295);
   (4301, 4301); (4304, 4346); (4348, 4680); (4682, 4685); (4688, 4694);
   (4696, 4696); (4698, 4701); (4704, 4744); (4746, 4749); (4752, 4784);
   (4786, 4789); (4792, 4798); (4800, 4800); (4802, 4805); (4808, 4822);
   (4824, 4880); (4882, 4885); (4888, 4954); (4969, 4988); (4992, 5007);
   (5024, 5109); (5112, 5117); (5121, 5740); (5743, 5759); (5761, 5786);
   (5792, 5866); (5870, 5880); (5888, 5905); (5919, 5937); (5952, 5969);
   (5984, 5996); (5998, 6000); (6016, 6067); (6103, 6103); (6108, 6108);
   (6112, 6121); (6128, 6137); (6160, 6169); (6176, 6264); (6272, 6276);
   (6279, 6312); (6314, 6314); (6320, 6389); (6400, 6430); (6470, 6509);
   (6512, 6516); (6528, 6571); (6576, 6601); (6608, 6618); (6656, 6678);
   (6688, 6740); (6784, 6793); (6800, 6809); (6823, 6823); (6917, 6963);
   (6981, 6988); (6992, 7001); (7043, 7072); (7086, 7141); (7168, 7203);
   (7232, 7241); (7245, 7293); (7296, 7304); (7312, 7354); (7357, 7359);
   (7401, 7404); (7406, 7411); (7413, 7414); (7418, 7418); (7424, 7615);
   (7680, 7957); (7960, 7965); (7968, 8005); (8008, 8013); (8016, 8023);
   (8025, 8025); (8027, 8027); (8029, 8029); (8031, 8061); (8064, 8116);
   (8118, 8124); (8126, 8126); (8130, 8132); (8134, 8140); (8144, 8147);
   (8150, 8155); (8160, 8172); (8178, 8180); (8182, 8188); (8304, 8305);
   (8308, 8313); (8319, 8329); (8336, 8348); (8450, 8450); (8455, 8455);
   (8458, 8467); (8469, 8469); (8473, 8477); (8484, 8484); (8486, 8486);
   (8488, 8488); (8490, 8493); (8495, 8505); (8508, 8511); (8517, 8521);
   (8526, 8526); (8528, 8585); (9312, 9371); (9450, 9471); (10102, 10131);
   (11264, 11492); (11499, 11502); (11506, 11507); (11517, 11517);
   (11520, 11557); (11559, 11559); (11565, 11565); (11568, 11623);
   (11631, 11631); (11648, 11670); (11680, 11686); (11688, 11694);
   (11696, 11702); (11704, 11710); (11712, 11718); (11720, 11726);
   (11728, 11734); (11736, 11742); (11823, 11823); (12293, 12295);
   (12321, 12329); (12337, 12341); (12344, 12348); (12353, 12438);
   (12445, 12447); (12449, 12538); (12540, 12543); (12549, 12591);
   (12593, 12686); (12690, 12693); (12704, 12735); (12784, 12799);
   (12832, 12841); (12872, 12879); (12881, 12895); (12928, 12937);
   (12977, 12991); (13312, 19903); (19968, 42124); (42192, 42237);
   (42240, 42508); (42512, 42539); (42560, 42606); (42623, 42653);
   (42656, 42735); (42775, 42783); (42786, 42888); (42891, 42954);
   (42960, 42961); (42963, 42963); (42965, 42969); (42994, 43009);
   (43011, 43013); (43015, 43018); (43020, 43042); (43056, 43061);
   (43072, 43123); (43138, 43187); (43216, 43225); (43250, 43255);
   (43259, 43259); (43261, 43262); (43264, 43301); (43312, 43334);
   (43360, 43388); (43396, 43442); (43471, 43481); (43488, 43492);
   (43494, 43518); (43520, 43560); (43584, 43586); (43588, 43595);
   (43600, 43609); (43616, 43638); (43642, 43642); (43646, 43695);
   (43697, 43697); (43701, 43702); (43705, 43709); (43712, 43712);
   (43714, 43714); (43739, 43741); (43744, 43754); (43762, 43764);
   (43777, 43782); (43785, 43790); (43793, 43798); (43808, 43814);
   (43816, 43822); (43824, 43866); (43868, 43881); (43888, 44002);
   (44016, 44025); (44032, 55203); (55216, 55238); (55243, 55291);
   (63744, 64109); (64112, 64217); (64256, 64262); (64275, 64279);
   (64285, 64285); (64287, 64296); (64298, 64310); (64312, 64316);
   (64318, 64318); (64320, 64321); (64323, 64324); (64326, 64433);
   (64467, 64829); (64848, 64911); (64914, 64967); (65008, 65019);
   (65136, 65140); (65142, 65276); (65296, 65305); (65313, 65338);
   (65345, 65370); (65382, 65470); (65474, 65479); (65482, 65487);
   (65490, 65495); (65498, 65500); (65536, 65547); (65549, 65574);
   (65576, 65594); (65596, 65597); (65599, 65613); (65616, 65629);
   (65664, 65786); (65799, 65843); (65856, 65912); (65930, 65931);
   (66176, 66204); (66208, 66256); (66273, 66299); (66304, 66339);
   (66349, 66378); (66384, 66421); (66432, 66461); (66464, 66499);
   (66504, 66511); (66513, 66517); (66560, 66717); (66720, 66729);
   (66736, 66771); (66776, 66811); (66816, 66855); (66864, 66915);
   (66928, 66938); (66940, 66954); (66956, 66962); (66964, 66965);
   (66967, 66977); (66979, 66993); (66995, 67001); (67003, 67004);
   (67072, 67382); (67392, 67413); (67424, 67431); (67456, 67461);
   (67463, 67504); (67506, 67514); (67584, 67589); (67592, 67592);
   (67594, 67637); (67639, 67640); (67644, 67644); (67647, 67669);
   (67672, 67702); (67705, 67742); (67751, 67759); (67808, 67826);
   (67828, 67829); (67835, 67867); (67872, 67897); (67968, 68023);
   (68028, 68047); (68050, 68096); (68112, 68115); (68117, 68119);
   (68121, 68149); (68160, 68168); (68192, 68222); (68224, 68255);
   (68288, 68295); (68297, 68324); (68331, 68335); (68352, 68405);
   (68416, 68437); (68440, 68466); (68472, 68497); (68521, 68527);
   (68608, 68680); (68736, 68786); (68800, 68850); (68858, 68899);
   (68912, 68921); (69216, 69246); (69248, 69289); (69296, 69297);
   (69376, 69415); (69424, 69445); (69457, 69460); (69488, 69505);
   (69552, 69579); (69600, 69622); (69635, 69687); (69714, 69743);
   (69745, 69746); (69749, 69749); (69763, 69807); (69840, 69864);
   (69872, 69881); (69891, 69926); (69942, 69951); (69956, 69956);
   (69959, 69959); (69968, 70002); (70006, 70006); (70019, 70066);
   (70081, 70084); (70096, 70106); (70108, 70108); (70113, 70132);
   (70144, 70161); (70163, 70187); (70272, 70278); (70280, 70280);
   (70282, 70285); (70287, 70301); (70303, 70312); (70320, 70366);
   (70384, 70393); (70405, 70412); (70415, 70416); (70419, 70440);
   (70442, 70448); (70450, 70451); (70453, 70457); (70461, 70461);
   (70480, 70480); (70493, 70497); (70656, 70708); (70727, 70730);
   (70736, 70745); (70751, 70753); (70784, 70831); (70852, 70853);
   (70855, 70855); (70864, 70873); (71040, 71086); (71128, 71131);
   (71168, 71215); (71236, 71236); (71248, 71257); (71296, 71338);
   (71352, 71352); (71360, 71369); (71424, 71450); (71472, 71483);
   (71488, 71494); (71680, 71723); (71840, 71922); (71935, 71942);
   (71945, 71945); (71948, 71955); (71957, 71958); (71960, 71983);
   (71999, 71999); (72001, 72001); (72016, 72025); (72096, 72103);
   (72106, 72144); (72161, 72161); (72163, 72163); (72192, 72192);
   (72203, 72242); (72250, 72250); (72272, 72272); (72284, 72329);
   (72349, 72349); (72368, 72440); (72704, 72712); (72714, 72750);
   (72768, 72768); (72784, 72812); (72818, 72847); (72960, 72966);
   (72968, 72969); (72971, 73008); (73030, 73030); (73040, 73049);
   (73056, 73061); (73063, 73064); (73066, 73097); (73112, 73112);
   (73120, 73129); (73440, 73458); (73648, 73648); (73664, 73684);
   (73728, 74649); (74752, 74862); (74880, 75075); (77712, 77808);
   (77824, 78894); (82944, 83526); (92160, 92728); (92736, 92766);
   (92768, 92777); (92784, 92862); (92864, 92873); (92880, 92909);
   (92928, 92975); (92992, 92995); (93008, 93017); (93019, 93025);
   (93027, 93047); (93053, 93071); (93760, 93846); (93952, 94026);
   (94032, 94032); (94099, 94111); (94176, 94177); (94179, 94179);
   (94208, 100343); (100352, 101589); (101632, 101640); (110576, 110579);
   (110581, 110587); (110589, 110590); (110592, 110882); (110928, 110930);
   (110948, 110951); (110960, 111355); (113664, 113770); (113776, 113788);
   (113792, 113800); (113808, 113817); (119520, 119539); (119648, 119672);
   (119808, 119892); (119894, 119964); (119966, 119967); (119970, 119970);
   (119973, 119974); (119977, 119980); (119982, 119993); (119995, 119995);
   (119997, 120003); (120005, 120069); (120071, 120074); (120077, 120084);
   (120086, 120092); (120094, 120121); (120123, 120126); (120128, 120132);
   (120134, 120134); (120138, 120144); (120146, 120485); (120488, 120512);
   (120514, 120538); (120540, 120570); (120572, 120596); (120598, 120628);
   (120630, 120654); (120656, 120686); (120688, 120712); (120714, 120744);
   (120746, 120770); (120772, 120779); (120782, 120831); (122624, 122654);
   (123136, 123180); (123191, 123197); (123200, 123209); (123214, 123214);
   (123536, 123565); (123584, 123627); (123632, 123641); (124896, 124902);
   (124904, 124907); (124909, 124910); (124912, 124926); (124928, 125124);
   (125127, 125135); (125184, 125251); (125259, 125259); (125264, 125273);
   (126065, 126123); (126125, 126127); (126129, 126132); (126209, 126253);
   (126255, 126269); (126464, 126467); (126469, 126495); (126497, 126498);
   (126500, 126500); (126503, 126503); (126505, 126514); (126516, 126519);
   (126521, 126521); (126523, 126523); (126530, 126530); (126535, 126535);
   (126537, 126537); (126539, 126539); (126541, 126543); (126545, 126546);
   (126548, 126548); (126551, 126551); (126553, 126553); (126555, 126555);
   (126557, 126557); (126559, 126559); (126561, 126562); (126564, 126564);
   (126567, 126570); (126572, 126578); (126580, 126583); (126585, 126588);
   (126590, 126590); (126592, 126601); (126603, 126619); (126625, 126627);
   (126629, 126633); (126635, 126651); (127232, 127244); (130032, 130041);
   (131072, 173791); (173824, 177976); (177984, 178205); (178208, 183969);
   (183984, 191456); (194560, 195101); (196608, 201546)].

(** every code point that has a lower-case mapping other than itself,
    with that mapping ([_PyUnicode_ToLowercase]) *)
Definition lower_pairs : list (N * N) :=
  [(65, 97); (66, 98); (67, 99); (68, 100); (69, 101); (70, 102); (71, 103);
   (72, 104); (73, 105); (74, 106); (75, 107); (76, 108); (77, 109);
   (78, 110); (79, 111); (80, 112); (81, 113); (82, 114); (83, 115);
   (84, 116); (85, 117); (86, 118); (87, 119); (88, 120); (89, 121);
   (90, 122); (192, 224); (193, 225); (194, 226); (195, 227); (196, 228);
   (197, 229); (198, 230); (199, 231); (200, 232); (201, 233); (202, 234);
   (203, 235); (204, 236); (205, 237); (206, 238); (207, 239); (208, 240);
   (209, 241); (210, 242); (211, 243); (212, 244); (213, 245); (214, 246);
   (216, 248); (217, 249); (218, 250); (219, 251); (220, 252); (221, 253);
   (222, 254); (256, 257); (258, 259); (260, 261); (262, 263); (264, 265);
   (266, 267); (268, 269); (270, 271); (272, 273); (274, 275); (276, 277);
   (278, 279); (280, 281); (282, 283); (284, 285); (286, 287); (288, 289);
   (290, 291); (292, 293); (294, 295); (296, 297); (298, 299); (300, 301);
   (302, 303); (304, 105); (306, 307); (308, 309); (310, 311); (313, 314);
   (315, 316); (317, 318); (319, 320); (321, 322); (323, 324); (325, 326);
   (327, 328); (330, 331); (332, 333); (334, 335); (336, 337); (338, 339);
   (340, 341); (342, 343); (344, 345); (346, 347); (348, 349); (350, 351);
   (352, 353); (354, 355); (356, 357); (358, 359); (360, 361); (362, 363);
   (364, 365); (366, 367); (368, 369); (370, 371); (372, 373); (374, 375);
   (376, 255); (377, 378); (379, 380); (381, 382); (385, 595); (386, 387);
   (388, 389); (390, 596); (391, 392); (393, 598); (394, 599); (395, 396);
   (398, 477); (399, 601); (400, 603); (401, 402); (403, 608); (404, 611);
   (406, 617); (407, 616); (408, 409); (412, 623); (413, 626); (415, 629);
   (416, 417); (418, 419); (420, 421); (422, 640); (423, 424); (425, 643);
   (428, 429); (430, 648); (431, 432); (433, 650); (434, 651); (435, 436);
   (437, 438); (439, 658); (440, 441); (444, 445); (452, 454); (453, 454);
   (455, 457); (456, 457); (458, 460); (459, 460); (461, 462); (463, 464);
   (465, 466); (467, 468); (469, 470); (471, 472); (473, 474); (475, 476);
   (478, 479); (480, 481); (482, 483); (484, 485); (486, 487); (488, 489);
   (490, 491); (492, 493); (494, 495); (497, 499); (498, 499); (500, 501);
   (502, 405); (503, 447); (504, 505); (506, 507); (508, 509); (510, 511);
   (512, 513); (514, 515); (516, 517); (518, 519); (520, 521); (522, 523);
   (524, 525); (526, 527); (528, 529); (530, 531); (532, 533); (534, 535);
   (536, 537); (538, 539); (540, 541); (542, 543); (544, 414); (546, 547);
   (548, 549); (550, 551); (552, 553); (554, 555); (556, 557); (558, 559);
   (560, 561); (562, 563); (570, 11365); (571, 572); (573, 410);
   (574, 11366); (577, 578); (579, 384); (580, 649); (581, 652); (582, 583);
   (584, 585); (586, 587); (588, 589); (590, 591); (880, 881); (882, 883);
   (886, 887); (895, 1011); (902, 940); (904, 941); (905, 942); (906, 943);
   (908, 972); (910, 973); (911, 974); (913, 945); (914, 946); (915, 947);
   (916, 948); (917, 949); (918, 950); (919, 951); (920, 952); (921, 953);
   (922, 954); (923, 955); (924, 956); (925, 957); (926, 958); (927, 959);
   (928, 960); (929, 961); (931, 963); (932, 964); (933, 965); (934, 966);
   (935, 967); (936, 968); (937, 969); (938, 970); (939, 971); (975, 983);
   (984, 985); (986, 987); (988, 989); (990, 991); (992, 993); (994, 995);
   (996, 997); (998, 999); (1000, 1001); (1002, 1003); (1004, 1005);
   (1006, 1007); (1012, 952); (1015, 1016); (1017, 1010); (1018, 1019);
   (1021, 891); (1022, 892); (1023, 893); (1024, 1104); (1025, 1105);
   (1026, 1106); (1027, 1107); (1028, 1108); (1029, 1109); (1030, 1110);
   (1031, 1111); (1032, 1112); (1033, 1113); (1034, 1114); (1035, 1115);
   (1036, 1116); (1037, 1117); (1038, 1118); (1039, 1119); (1040, 1072);
   (1041, 1073); (1042, 1074); (1043, 1075); (1044, 1076); (1045, 1077);
   (1046, 1078); (1047, 1079); (1048, 1080); (1049, 1081); (1050, 1082);
   (1051, 1083); (1052, 1084); (1053, 1085); (1054, 1086); (1055, 1087);
   (1056, 1088); (1057, 1089); (1058, 1090); (1059, 1091); (1060, 1092);
   (1061, 1093); (1062, 1094); (1063, 1095); (1064, 1096); (1065, 1097);
   (1066, 1098); (1067, 1099); (1068, 1100); (1069, 1101); (1070, 1102);
   (1071, 1103); (1120, 1121); (1122, 1123); (1124, 1125); (1126, 1127);
   (1128, 1129); (1130, 1131); (1132, 1133); (1134, 1135); (1136, 1137);
   (1138, 1139); (1140, 1141); (1142, 1143); (1144, 1145); (1146, 1147);
   (1148, 1149); (1150, 1151); (1152, 1153); (1162, 1163); (1164, 1165);
   (1166, 1167); (1168, 1169); (1170, 1171); (1172, 1173); (1174, 1175);
   (1176, 1177); (1178, 1179); (1180, 1181); (1182, 1183); (1184, 1185);
   (1186, 1187); (1188, 1189); (1190, 1191); (1192, 1193); (1194, 1195);
   (1196, 1197); (1198, 1199); (1200, 1201); (1202, 1203); (1204, 1205);
   (1206, 1207); (1208, 1209); (1210, 1211); (1212, 1213); (1214, 1215);
   (1216, 1231); (1217, 1218); (1219, 1220); (1221, 1222); (1223, 1224);
   (1225, 1226); (1227, 1228); (1229, 1230); (1232, 1233); (1234, 1235);
   (1236, 1237); (1238, 1239); (1240, 1241); (1242, 1243); (1244, 1245);
   (1246, 1247); (1248, 1249); (1250, 1251); (1252, 1253); (1254, 1255);
   (1256, 1257); (1258, 1259); (1260, 1261); (1262, 1263); (1264, 1265);
   (1266, 1267); (1268, 1269); (1270, 1271); (1272, 1273); (1274, 1275);
   (1276, 1277); (1278, 1279); (1280, 1281); (1282, 1283); (1284, 1285);
   (1286, 1287); (1288, 1289); (1290, 1291); (1292, 1293); (1294, 1295);
   (1296, 1297); (1298, 1299); (1300, 1301); (1302, 1303); (1304, 1305);
   (1306, 1307); (1308, 1309); (1310, 1311); (1312, 1313); (1314, 1315);
   (1316, 1317); (1318, 1319); (1320, 1321); (1322, 1323); (1324, 1325);
   (1326, 1327); (1329, 1377); (1330, 1378); (1331, 1379); (1332, 1380);
   (1333, 1381); (1334, 1382); (1335, 1383); (1336, 1384); (1337, 1385);
   (1338, 1386); (1339, 1387); (1340, 1388); (1341, 1389); (1342, 1390);
   (1343, 1391); (1344, 1392); (1345, 1393); (1346, 1394); (1347, 1395);
   (1348, 1396); (1349, 1397); (1350, 1398); (1351, 1399); (1352, 1400);
   (1353, 1401); (1354, 1402); (1355, 1403); (1356, 1404); (1357, 1405);
   (1358, 1406); (1359, 1407); (1360, 1408); (1361, 1409); (1362, 1410);
   (1363, 1411); (1364, 1412); (1365, 1413); (1366, 1414); (4256, 11520);
   (4257, 11521); (4258, 11522); (4259, 11523); (4260, 11524);
   (4261, 11525); (4262, 11526); (4263, 11527); (4264, 11528);
   (4265, 11529); (4266, 11530); (4267, 11531); (4268, 11532);
   (4269, 11533); (4270, 11534); (4271, 11535); (4272, 11536);
   (4273, 11537); (4274, 11538); (4275, 11539); (4276, 11540);
   (4277, 11541); (4278, 11542); (4279, 11543); (4280, 11544);
   (4281, 11545); (4282, 11546); (4283, 11547); (4284, 11548);
   (4285, 11549); (4286, 11550); (4287, 11551); (4288, 11552);
   (4289, 11553); (4290, 11554); (4291, 11555); (4292, 11556);
   (4293, 11557); (4295, 11559); (4301, 11565); (5024, 43888);
   (5025, 43889); (5026, 43890); (5027, 43891); (5028, 43892);
   (5029, 43893); (5030, 43894); (5031, 43895); (5032, 43896);
   (5033, 43897); (5034, 43898); (5035, 43899); (5036, 43900);
   (5037, 43901); (5038, 43902); (5039, 43903); (5040, 43904);
   (5041, 43905); (5042, 43906); (5043, 43907); (5044, 43908);
   (5045, 43909); (5046, 43910); (5047, 43911); (5048, 43912);
   (5049, 43913); (5050, 43914); (5051, 43915); (5052, 43916);
   (5053, 43917); (5054, 43918); (5055, 43919); (5056, 43920);
   (5057, 43921); (5058, 43922); (5059, 43923); (5060, 43924);
   (5061, 43925); (5062, 43926); (5063, 43927); (5064, 43928);
   (5065, 43929); (5066, 43930); (5067, 43931); (5068, 43932);
   (5069, 43933); (5070, 43934); (5071, 43935); (5072, 43936);
   (5073, 43937); (5074, 43938); (5075, 43939); (5076, 43940);
   (5077, 43941); (5078, 43942); (5079, 43943); (5080, 43944);
   (5081, 43945); (5082, 43946); (5083, 43947); (5084, 43948);
   (5085, 43949); (5086, 43950); (5087, 43951); (5088, 43952);
   (5089, 43953); (5090, 43954); (5091, 43955); (5092, 43956);
   (5093, 43957); (5094, 43958); (5095, 43959); (5096, 43960);
   (5097, 43961); (5098, 43962); (5099, 43963); (5100, 43964);
   (5101, 43965); (5102, 43966); (5103, 43967); (5104, 5112); (5105, 5113);
   (5106, 5114); (5107, 5115); (5108, 5116); (5109, 5117); (7312, 4304);
   (7313, 4305); (7314, 4306); (7315, 4307); (7316, 4308); (7317, 4309);
   (7318, 4310); (7319, 4311); (7320, 4312); (7321, 4313); (7322, 4314);
   (7323, 4315); (7324, 4316); (7325, 4317); (7326, 4318); (7327, 4319);
   (7328, 4320); (7329, 4321); (7330, 4322); (7331, 4323); (7332, 4324);
   (7333, 4325); (7334, 4326); (7335, 4327); (7336, 4328); (7337, 4329);
   (7338, 4330); (7339, 4331); (7340, 4332); (7341, 4333); (7342, 4334);
   (7343, 4335); (7344, 4336); (7345, 4337); (7346, 4338); (7347, 4339);
   (7348, 4340); (7349, 4341); (7350, 4342); (7351, 4343); (7352, 4344);
   (7353, 4345); (7354, 4346); (7357, 4349); (7358, 4350); (7359, 4351);
   (7680, 7681); (7682, 7683); (7684, 7685); (7686, 7687); (7688, 7689);
   (7690, 7691); (7692, 7693); (7694, 7695); (7696, 7697); (7698, 7699);
   (7700, 7701); (7702, 7703); (7704, 7705); (7706, 7707); (7708, 7709);
   (7710, 7711); (7712, 7713); (7714, 7715); (7716, 7717); (7718, 7719);
   (7720, 7721); (7722, 7723); (7724, 7725); (7726, 7727); (7728, 7729);
   (7730, 7731); (7732, 7733); (7734, 7735); (7736, 7737); (7738, 7739);
   (7740, 7741); (7742, 7743); (7744, 7745); (7746, 7747); (7748, 7749);
   (7750, 7751); (7752, 7753); (7754, 7755); (7756, 7757); (7758, 7759);
   (7760, 7761); (7762, 7763); (7764, 7765); (7766, 7767); (7768, 7769);
   (7770, 7771); (7772, 7773); (7774, 7775); (7776, 7777); (7778, 7779);
   (7780, 7781); (7782, 7783); (7784, 7785); (7786, 7787); (7788, 7789);
   (7790, 7791); (7792, 7793); (7794, 7795); (7796, 7797); (7798, 7799);
   (7800, 7801); (7802, 7803); (7804, 7805); (7806, 7807); (7808, 7809);
   (7810, 7811); (7812, 7813); (7814, 7815); (7816, 7817); (7818, 7819);
   (7820, 7821); (7822, 7823); (7824, 7825); (7826, 7827); (7828, 7829);
   (7838, 223); (7840, 7841); (7842, 7843); (7844, 7845); (7846, 7847);
   (7848, 7849); (7850, 7851); (7852, 7853); (7854, 7855); (7856, 7857);
   (7858, 7859); (7860, 7861); (7862, 7863); (7864, 7865); (7866, 7867);
   (7868, 7869); (7870, 7871); (7872, 7873); (7874, 7875); (7876, 7877);
   (7878, 7879); (7880, 7881); (7882, 7883); (7884, 7885); (7886, 7887);
   (7888, 7889); (7890, 7891); (7892, 7893); (7894, 7895); (7896, 7897);
   (7898, 7899); (7900, 7901); (7902, 7903); (7904, 7905); (7906, 7907);
   (7908, 7909); (7910, 7911); (7912, 7913); (7914, 7915); (7916, 7917);
   (7918, 7919); (7920, 7921); (7922, 7923); (7924, 7925); (7926, 7927);
   (7928, 7929); (7930, 7931); (7932, 7933); (7934, 7935); (7944, 7936);
   (7945, 7937); (7946, 7938); (7947, 7939); (7948, 7940); (7949, 7941);
   (7950, 7942); (7951, 7943); (7960, 7952); (7961, 7953); (7962, 7954);
   (7963, 7955); (7964, 7956); (7965, 7957); (7976, 7968); (7977, 7969);
   (7978, 7970); (7979, 7971); (7980, 7972); (7981, 7973); (7982, 7974);
   (7983, 7975); (7992, 7984); (7993, 7985); (7994, 7986); (7995, 7987);
   (7996, 7988); (7997, 7989); (7998, 7990); (7999, 7991); (8008, 8000);
   (8009, 8001); (8010, 8002); (8011, 8003); (8012, 8004); (8013, 8005);
   (8025, 8017); (8027, 8019); (8029, 8021); (8031, 8023); (8040, 8032);
   (8041, 8033); (8042, 8034); (8043, 8035); (8044, 8036); (8045, 8037);
   (8046, 8038); (8047, 8039); (8072, 8064); (8073, 8065); (8074, 8066);
   (8075, 8067); (8076, 8068); (8077, 8069); (8078, 8070); (8079, 8071);
   (8088, 8080); (8089, 8081); (8090, 8082); (8091, 8083); (8092, 8084);
   (8093, 8085); (8094, 8086); (8095, 8087); (8104, 8096); (8105, 8097);
   (8106, 8098); (8107, 8099); (8108, 8100); (8109, 8101); (8110, 8102);
   (8111, 8103); (8120, 8112); (8121, 8113); (8122, 8048); (8123, 8049);
   (8124, 8115); (8136, 8050); (8137, 8051); (8138, 8052); (8139, 8053);
   (8140, 8131); (8152, 8144); (8153, 8145); (8154, 8054); (8155, 8055);
   (8168, 8160); (8169, 8161); (8170, 8058); (8171, 8059); (8172, 8165);
   (8184, 8056); (8185, 8057); (8186, 8060); (8187, 8061); (8188, 8179);
   (8486, 969); (8490, 107); (8491, 229); (8498, 8526); (8544, 8560);
   (8545, 8561); (8546, 8562); (8547, 8563); (8548, 8564); (8549, 8565);
   (8550, 8566); (8551, 8567); (8552, 8568); (8553, 8569); (8554, 8570);
   (8555, 8571); (8556, 8572); (8557, 8573); (8558, 8574); (8559, 8575);
   (8579, 8580); (9398, 9424); (9399, 9425); (9400, 9426); (9401, 9427);
   (9402, 9428); (9403, 9429); (9404, 9430); (9405, 9431); (9406, 9432);
   (9407, 9433); (9408, 9434); (9409, 9435); (9410, 9436); (9411, 9437);
   (9412, 9438); (9413, 9439); (9414, 9440); (9415, 9441); (9416, 9442);
   (9417, 9443); (9418, 9444); (9419, 9445); (9420, 9446); (9421, 9447);
   (9422, 9448); (9423, 9449); (11264, 11312); (11265, 11313);
   (11266, 11314); (11267, 11315); (11268, 11316); (11269, 11317);
   (11270, 11318); (11271, 11319); (11272, 11320); (11273, 11321);
   (11274, 11322); (11275, 11323); (11276, 11324); (11277, 11325);
   (11278, 11326); (11279, 11327); (11280, 11328); (11281, 11329);
   (11282, 11330); (11283, 11331); (11284, 11332); (11285, 11333);
   (11286, 11334); (11287, 11335); (11288, 11336); (11289, 11337);
   (11290, 11338); (11291, 11339); (11292, 11340); (11293, 11341);
   (11294, 11342); (11295, 11343); (11296, 11344); (11297, 11345);
   (11298, 11346); (11299, 11347); (11300, 11348); (11301, 11349);
   (11302, 11350); (11303, 11351); (11304, 11352); (11305, 11353);
   (11306, 11354); (11307, 11355); (11308, 11356); (11309, 11357);
   (11310, 11358); (11311, 11359); (11360, 11361); (11362, 619);
   (11363, 7549); (11364, 637); (11367, 11368); (11369, 11370);
   (11371, 11372); (11373, 593); (11374, 625); (11375, 592); (11376, 594);
   (11378, 11379); (11381, 11382); (11390, 575); (11391, 576);
   (11392, 11393); (11394, 11395); (11396, 11397); (11398, 11399);
   (11400, 11401); (11402, 11403); (11404, 11405); (11406, 11407);
   (11408, 11409); (11410, 11411); (11412, 11413); (11414, 11415);
   (11416, 11417); (11418, 11419); (11420, 11421); (11422, 11423);
   (11424, 11425); (11426, 11427); (11428, 11429); (11430, 11431);
   (11432, 11433); (11434, 11435); (11436, 11437); (11438, 11439);
   (11440, 11441); (11442, 11443); (11444, 11445); (11446, 11447);
   (11448, 11449); (11450, 11451); (11452, 11453); (11454, 11455);
   (11456, 11457); (11458, 11459); (11460, 11461); (11462, 11463);
   (11464, 11465); (11466, 11467); (11468, 11469); (11470, 11471);
   (11472, 11473); (11474, 11475); (11476, 11477); (11478, 11479);
   (11480, 11481); (11482, 11483); (11484, 11485); (11486, 11487);
   (11488, 11489); (11490, 11491); (11499, 11500); (11501, 11502);
   (11506, 11507); (42560, 42561); (42562, 42563); (42564, 42565);
   (42566, 42567); (42568, 42569); (42570, 42571); (42572, 42573);
   (42574, 42575); (42576, 42577); (42578, 42579); (42580, 42581);
   (42582, 42583); (42584, 42585); (42586, 42587); (42588, 42589);
   (42590, 42591); (42592, 42593); (42594, 42595); (42596, 42597);
   (42598, 42599); (42600, 42601); (42602, 42603); (42604, 42605);
   (42624, 42625); (42626, 42627); (42628, 42629); (42630, 42631);
   (42632, 42633); (42634, 42635); (42636, 42637); (42638, 42639);
   (42640, 42641); (42642, 42643); (42644, 42645); (42646, 42647);
   (42648, 42649); (42650, 42651); (42786, 42787); (42788, 42789);
   (42790, 42791); (42792, 42793); (42794, 42795); (42796, 42797);
   (42798, 42799); (42802, 42803); (42804, 42805); (42806, 42807);
   (42808, 42809); (42810, 42811); (42812, 42813); (42814, 42815);
   (42816, 42817); (42818, 42819); (42820, 42821); (42822, 42823);
   (42824, 42825); (42826, 42827); (42828, 42829); (42830, 42831);
   (42832, 42833); (42834, 42835); (42836, 42837); (42838, 42839);
   (42840, 42841); (42842, 42843); (42844, 42845); (42846, 42847);
   (42848, 42849); (42850, 42851); (42852, 42853); (42854, 42855);
   (42856, 42857); (42858, 42859); (42860, 42861); (42862, 42863);
   (42873, 42874); (42875, 42876); (42877, 7545); (42878, 42879);
   (42880, 42881); (42882, 42883); (42884, 42885); (42886, 42887);
   (42891, 42892); (42893, 613); (42896, 42897); (42898, 42899);
   (42902, 42903); (42904, 42905); (42906, 42907); (42908, 42909);
   (42910, 42911); (42912, 42913); (42914, 42915); (42916, 42917);
   (42918, 42919); (42920, 42921); (42922, 614); (42923, 604); (42924, 609);
   (42925, 620); (42926, 618); (42928, 670); (42929, 647); (42930, 669);
   (42931, 43859); (42932, 42933); (42934, 42935); (42936, 42937);
   (42938, 42939); (42940, 42941); (42942, 42943); (42944, 42945);
   (42946, 42947); (42948, 42900); (42949, 642); (42950, 7566);
   (42951, 42952); (42953, 42954); (42960, 42961); (42966, 42967);
   (42968, 42969); (42997, 42998); (65313, 65345); (65314, 65346);
   (65315, 65347); (65316, 65348); (65317, 65349); (65318, 65350);
   (65319, 65351); (65320, 65352); (65321, 65353); (65322, 65354);
   (65323, 65355); (65324, 65356); (65325, 65357); (65326, 65358);
   (65327, 65359); (65328, 65360); (65329, 65361); (65330, 65362);
   (65331, 65363); (65332, 65364); (65333, 65365); (65334, 65366);
   (65335, 65367); (65336, 65368); (65337, 65369); (65338, 65370);
   (66560, 66600); (66561, 66601); (66562, 66602); (66563, 66603);
   (66564, 66604); (66565, 66605); (66566, 66606); (66567, 66607);
   (66568, 66608); (66569, 66609); (66570, 66610); (66571, 66611);
   (66572, 66612); (66573, 66613); (66574, 66614); (66575, 66615);
   (66576, 66616); (66577, 66617); (66578, 66618); (66579, 66619);
   (66580, 66620); (66581, 66621); (66582, 66622); (66583, 66623);
   (66584, 66624); (66585, 66625); (66586, 66626); (66587, 66627);
   (66588, 66628); (66589, 66629); (66590, 66630); (66591, 66631);
   (66592, 66632); (66593, 66633); (66594, 66634); (66595, 66635);
   (66596, 66636); (66597, 66637); (66598, 66638); (66599, 66639);
   (66736, 66776); (66737, 66777); (66738, 66778); (66739, 66779);
   (66740, 66780); (66741, 66781); (66742, 66782); (66743, 66783);
   (66744, 66784); (66745, 66785); (66746, 66786); (66747, 66787);
   (66748, 66788); (66749, 66789); (66750, 66790); (66751, 66791);
   (66752, 66792); (66753, 66793); (66754, 66794); (66755, 66795);
   (66756, 66796); (66757, 66797); (66758, 66798); (66759, 66799);
   (66760, 66800); (66761, 66801); (66762, 66802); (66763, 66803);
   (66764, 66804); (66765, 66805); (66766, 66806); (66767, 66807);
   (66768, 66808); (66769, 66809); (66770, 66810); (66771, 66811);
   (66928, 66967); (66929, 66968); (66930, 66969); (66931, 66970);
   (66932, 66971); (66933, 66972); (66934, 66973); (66935, 66974);
   (66936, 66975); (66937, 66976); (66938, 66977); (66940, 66979);
   (66941, 66980); (66942, 66981); (66943, 66982); (66944, 66983);
   (66945, 66984); (66946, 66985); (66947, 66986); (66948, 66987);
   (66949, 66988); (66950, 66989); (66951, 66990); (66952, 66991);
   (66953, 66992); (66954, 66993); (66956, 66995); (66957, 66996);
   (66958, 66997); (66959, 66998); (66960, 66999); (66961, 67000);
   (66962, 67001); (66964, 67003); (66965, 67004); (68736, 68800);
   (68737, 68801); (68738, 68802); (68739, 68803); (68740, 68804);
   (68741, 68805); (68742, 68806); (68743, 68807); (68744, 68808);
   (68745, 68809); (68746, 68810); (68747, 68811); (68748, 68812);
   (68749, 68813); (68750, 68814); (68751, 68815); (68752, 68816);
   (68753, 68817); (68754, 68818); (68755, 68819); (68756, 68820);
   (68757, 68821); (68758, 68822); (68759, 68823); (68760, 68824);
   (68761, 68825); (68762, 68826); (68763, 68827); (68764, 68828);
   (68765, 68829); (68766, 68830); (68767, 68831); (68768, 68832);
   (68769, 68833); (68770, 68834); (68771, 68835); (68772, 68836);
   (68773, 68837); (68774, 68838); (68775, 68839); (68776, 68840);
   (68777, 68841); (68778, 68842); (68779, 68843); (68780, 68844);
   (68781, 68845); (68782, 68846); (68783, 68847); (68784, 68848);
   (68785, 68849); (68786, 68850); (71840, 71872); (71841, 71873);
   (71842, 71874); (71843, 71875); (71844, 71876); (71845, 71877);
   (71846, 71878); (71847, 71879); (71848, 71880); (71849, 71881);
   (71850, 71882); (71851, 71883); (71852, 71884); (71853, 71885);
   (71854, 71886); (71855, 71887); (71856, 71888); (71857, 71889);
   (71858, 71890); (71859, 71891); (71860, 71892); (71861, 71893);
   (71862, 71894); (71863, 71895); (71864, 71896); (71865, 71897);
   (71866, 71898); (71867, 71899); (71868, 71900); (71869, 71901);
   (71870, 71902); (71871, 71903); (93760, 93792); (93761, 93793);
   (93762, 93794); (93763, 93795); (93764, 93796); (93765, 93797);
   (93766, 93798); (93767, 93799); (93768, 93800); (93769, 93801);
   (93770, 93802); (93771, 93803); (93772, 93804); (93773, 93805);
   (93774, 93806); (93775, 93807); (93776, 93808); (93777, 93809);
   (93778, 93810); (93779, 93811); (93780, 93812); (93781, 93813);
   (93782, 93814); (93783, 93815); (93784, 93816); (93785, 93817);
   (93786, 93818); (93787, 93819); (93788, 93820); (93789, 93821);
   (93790, 93822); (93791, 93823); (125184, 125218); (125185, 125219);
   (125186, 125220); (125187, 125221); (125188, 125222); (125189, 125223);
   (125190, 125224); (125191, 125225); (125192, 125226); (125193, 125227);
   (125194, 125228); (125195, 125229); (125196, 125230); (125197, 125231);
   (125198, 125232); (125199, 125233); (125200, 125234); (125201, 125235);
   (125202, 125236); (125203, 125237); (125204, 125238); (125205, 125239);
   (125206, 125240); (125207, 125241); (125208, 125242); (125209, 125243);
   (125210, 125244); (125211, 125245); (125212, 125246); (125213, 125247);
   (125214, 125248); (125215, 125249); (125216, 125250); (125217, 125251)].

(** the ranges of the cased code points ([_PyUnicode_IsCased]) *)
Definition cased_ranges : list (N * N) :=
  [(65, 90); (97, 122); (170, 170); (181, 181); (186, 186); (192, 214); (216,
   246); (248, 442); (444, 447); (452, 659); (661, 696); (704, 705); (736,
   740); (837, 837); (880, 883); (886, 887); (890, 893); (895, 895); (902,
   902); (904, 906); (908, 908); (910, 929); (931, 1013); (1015, 1153); (1162,
   1327); (1329, 1366); (1376, 1416); (4256, 4293); (4295, 4295); (4301, 4301);
   (4304, 4346); (4349, 4351); (5024, 5109); (5112, 5117); (7296, 7304); (7312,
   7354); (7357, 7359); (7424, 7615); (7680, 7957); (7960, 7965); (7968, 8005);
   (8008, 8013); (8016, 8023); (8025, 8025); (8027, 8027); (8029, 8029); (8031,
   8061); (8064, 8116); (8118, 8124); (8126, 8126); (8130, 8132); (8134, 8140);
   (8144, 8147); (8150, 8155); (8160, 8172); (8178, 8180); (8182, 8188); (8305,
   8305); (8319, 8319); (8336, 8348); (8450, 8450); (8455, 8455); (8458, 8467);
   (8469, 8469); (8473, 8477); (8484, 8484); (8486, 8486); (8488, 8488); (8490,
   8493); (8495, 8500); (8505, 8505); (8508, 8511); (8517, 8521); (8526, 8526);
   (8544, 8575); (8579, 8580); (9398, 9449); (11264, 11492); (11499, 11502);
   (11506, 11507); (11520, 11557); (11559, 11559); (11565, 11565); (42560,
   42605); (42624, 42653); (42786, 42887); (42891, 42894); (42896, 42954);
   (42960, 42961); (42963, 42963); (42965, 42969); (42997, 42998); (43000,
   43002); (43824, 43866); (43868, 43880); (43888, 43967); (64256, 64262);
   (64275, 64279); (65313, 65338); (65345, 65370); (66560, 66639); (66736,
   66771); (66776, 66811); (66928, 66938); (66940, 66954); (66956, 66962);
   (66964, 66965); (66967, 66977); (66979, 66993); (66995, 67001); (67003,
   67004); (67456, 67456); (67459, 67461); (67463, 67504); (67506, 67514);
   (68736, 68786); (68800, 68850); (71840, 71903); (93760, 93823); (119808,
   119892); (119894, 119964); (119966, 119967); (119970, 119970); (119973,
   119974); (119977, 119980); (119982, 119993); (119995, 119995); (119997,
   120003); (120005, 120069); (120071, 120074); (120077, 120084); (120086,
   120092); (120094, 120121); (120123, 120126); (120128, 120132); (120134,
   120134); (120138, 120144); (120146, 120485); (120488, 120512); (120514,
   120538); (120540, 120570); (120572, 120596); (120598, 120628); (120630,
   120654); (120656, 120686); (120688, 120712); (120714, 120744); (120746,
   120770); (120772, 120779); (122624, 122633); (122635, 122654); (125184,
   125251); (127280, 127305); (127312, 127337); (127344, 127369)].

(** the ranges of the case-ignorable code points
    ([_PyUnicode_IsCaseIgnorable]) *)
Definition case_ignorable_ranges : list (N * N) :=
  [(39, 39); (46, 46); (58, 58); (94, 94); (96, 96); (168, 168); (173, 173);
   (175, 175); (180, 180); (183, 184); (688, 879); (884, 885); (890, 890);
   (900, 901); (903, 903); (1155, 1161); (1369, 1369); (1375, 1375); (1425,
   1469); (1471, 1471); (1473, 1474); (1476, 1477); (1479, 1479); (1524, 1524);
   (1536, 1541); (1552, 1562); (1564, 1564); (1600, 1600); (1611, 1631); (1648,
   1648); (1750, 1757); (1759, 1768); (1770, 1773); (1807, 1807); (1809, 1809);
   (1840, 1866); (1958, 1968); (2027, 2037); (2042, 2042); (2045, 2045); (2070,
   2093); (2137, 2139); (2184, 2184); (2192, 2193); (2200, 2207); (2249, 2306);
   (2362, 2362); (2364, 2364); (2369, 2376); (2381, 2381); (2385, 2391); (2402,
   2403); (2417, 2417); (2433, 2433); (2492, 2492); (2497, 2500); (2509, 2509);
   (2530, 2531); (2558, 2558); (2561, 2562); (2620, 2620); (2625, 2626); (2631,
   2632); (2635, 2637); (2641, 2641); (2672, 2673); (2677, 2677); (2689, 2690);
   (2748, 2748); (2753, 2757); (2759, 2760); (2765, 2765); (2786, 2787); (2810,
   2815); (2817, 2817); (2876, 2876); (2879, 2879); (2881, 2884); (2893, 2893);
   (2901, 2902); (2914, 2915); (2946, 2946); (3008, 3008); (3021, 3021); (3072,
   3072); (3076, 3076); (3132, 3132); (3134, 3136); (3142, 3144); (3146, 3149);
   (3157, 3158); (3170, 3171); (3201, 3201); (3260, 3260); (3263, 3263); (3270,
   3270); (3276, 3277); (3298, 3299); (3328, 3329); (3387, 3388); (3393, 3396);
   (3405, 3405); (3426, 3427); (3457, 3457); (3530, 3530); (3538, 3540); (3542,
   3542); (3633, 3633); (3636, 3642); (3654, 3662); (3761, 3761); (3764, 3772);
   (3782, 3782); (3784, 3789); (3864, 3865); (3893, 3893); (3895, 3895); (3897,
   3897); (3953, 3966); (3968, 3972); (3974, 3975); (3981, 3991); (3993, 4028);
   (4038, 4038); (4141, 4144); (4146, 4151); (4153, 4154); (4157, 4158); (4184,
   4185); (4190, 4192); (4209, 4212); (4226, 4226); (4229, 4230); (4237, 4237);
   (4253, 4253); (4348, 4348); (4957, 4959); (5906, 5908); (5938, 5939); (5970,
   5971); (6002, 6003); (6068, 6069); (6071, 6077); (6086, 6086); (6089, 6099);
   (6103, 6103); (6109, 6109); (6155, 6159); (6211, 6211); (6277, 6278); (6313,
   6313); (6432, 6434); (6439, 6440); (6450, 6450); (6457, 6459); (6679, 6680);
   (6683, 6683); (6742, 6742); (6744, 6750); (6752, 6752); (6754, 6754); (6757,
   6764); (6771, 6780); (6783, 6783); (6823, 6823); (6832, 6862); (6912, 6915);
   (6964, 6964); (6966, 6970); (6972, 6972); (6978, 6978); (7019, 7027); (7040,
   7041); (7074, 7077); (7080, 7081); (7083, 7085); (7142, 7142); (7144, 7145);
   (7149, 7149); (7151, 7153); (7212, 7219); (7222, 7223); (7288, 7293); (7376,
   7378); (7380, 7392); (7394, 7400); (7405, 7405); (7412, 7412); (7416, 7417);
   (7468, 7530); (7544, 7544); (7579, 7679); (8125, 8125); (8127, 8129); (8141,
   8143); (8157, 8159); (8173, 8175); (8189, 8190); (8203, 8207); (8216, 8217);
   (8228, 8228); (8231, 8231); (8234, 8238); (8288, 8292); (8294, 8303); (8305,
   8305); (8319, 8319); (8336, 8348); (8400, 8432); (11388, 11389); (11503,
   11505); (11631, 11631); (11647, 11647); (11744, 11775); (11823, 11823);
   (12293, 12293); (12330, 12333); (12337, 12341); (12347, 12347); (12441,
   12446); (12540, 12542); (40981, 40981); (42232, 42237); (42508, 42508);
   (42607, 42610); (42612, 42621); (42623, 42623); (42652, 42655); (42736,
   42737); (42752, 42785); (42864, 42864); (42888, 42890); (42994, 42996);
   (43000, 43001); (43010, 43010); (43014, 43014); (43019, 43019); (43045,
   43046); (43052, 43052); (43204, 43205); (43232, 43249); (43263, 43263);
   (43302, 43309); (43335, 43345); (43392, 43394); (43443, 43443); (43446,
   43449); (43452, 43453); (43471, 43471); (43493, 43494); (43561, 43566);
   (43569, 43570); (43573, 43574); (43587, 43587); (43596, 43596); (43632,
   43632); (43644, 43644); (43696, 43696); (43698, 43700); (43703, 43704);
   (43710, 43711); (43713, 43713); (43741, 43741); (43756, 43757); (43763,
   43764); (43766, 43766); (43867, 43871); (43881, 43883); (44005, 44005);
   (44008, 44008); (44013, 44013); (64286, 64286); (64434, 64450); (65024,
   65039); (65043, 65043); (65056, 65071); (65106, 65106); (65109, 65109);
   (65279, 65279); (65287, 65287); (65294, 65294); (65306, 65306); (65342,
   65342); (65344, 65344); (65392, 65392); (65438, 65439); (65507, 65507);
   (65529, 65531); (66045, 66045); (66272, 66272); (66422, 66426); (67456,
   67461); (67463, 67504); (67506, 67514); (68097, 68099); (68101, 68102);
   (68108, 68111); (68152, 68154); (68159, 68159); (68325, 68326); (68900,
   68903); (69291, 69292); (69446, 69456); (69506, 69509); (69633, 69633);
   (69688, 69702); (69744, 69744); (69747, 69748); (69759, 69761); (69811,
   69814); (69817, 69818); (69821, 69821); (69826, 69826); (69837, 69837);
   (69888, 69890); (69927, 69931); (69933, 69940); (70003, 70003); (70016,
   70017); (70070, 70078); (70089, 70092); (70095, 70095); (70191, 70193);
   (70196, 70196); (70198, 70199); (70206, 70206); (70367, 70367); (70371,
   70378); (70400, 70401); (70459, 70460); (70464, 70464); (70502, 70508);
   (70512, 70516); (70712, 70719); (70722, 70724); (70726, 70726); (70750,
   70750); (70835, 70840); (70842, 70842); (70847, 70848); (70850, 70851);
   (71090, 71093); (71100, 71101); (71103, 71104); (71132, 71133); (71219,
   71226); (71229, 71229); (71231, 71232); (71339, 71339); (71341, 71341);
   (71344, 71349); (71351, 71351); (71453, 71455); (71458, 71461); (71463,
   71467); (71727, 71735); (71737, 71738); (71995, 71996); (71998, 71998);
   (72003, 72003); (72148, 72151); (72154, 72155); (72160, 72160); (72193,
   72202); (72243, 72248); (72251, 72254); (72263, 72263); (72273, 72278);
   (72281, 72283); (72330, 72342); (72344, 72345); (72752, 72758); (72760,
   72765); (72767, 72767); (72850, 72871); (72874, 72880); (72882, 72883);
   (72885, 72886); (73009, 73014); (73018, 73018); (73020, 73021); (73023,
   73029); (73031, 73031); (73104, 73105); (73109, 73109); (73111, 73111);
   (73459, 73460); (78896, 78904); (92912, 92916); (92976, 92982); (92992,
   92995); (94031, 94031); (94095, 94111); (94176, 94177); (94179, 94180);
   (110576, 110579); (110581, 110587); (110589, 110590); (113821, 113822);
   (113824, 113827); (118528, 118573); (118576, 118598); (119143, 119145);
   (119155, 119170); (119173, 119179); (119210, 119213); (119362, 119364);
   (121344, 121398); (121403, 121452); (121461, 121461); (121476, 121476);
   (121499, 121503); (121505, 121519); (122880, 122886); (122888, 122904);
   (122907, 122913); (122915, 122916); (122918, 122922); (123184, 123197);
   (123566, 123566); (123628, 123631); (125136, 125142); (125252, 125259);
   (127995, 127999); (917505, 917505); (917536, 917631); (917760, 917999)].

(** the pairs [re] adds under [re.I] to the lower-case mapping
    ([_casefix._EXTRA_CASES]), for the letters of the gateway's patterns:
    the dotless i for [i], the long s for [s] *)
Definition extra_cases : list (N * list N) :=
  [(105, [305]); (115, [383])].

End Ucd.

(* ================================================================= *)
(** ** Text: the fragment of Python's [str] the gateway uses *)

Module Text.

Definition code (c : char) : nat := N.to_nat (point c).

Definition between (lo hi : nat) (c : char) : bool :=
  Nat.leb lo (code c) && Nat.leb (code c) hi.

Definition is_upper (c : char) : bool := between 65 90 c.
Definition is_lower (c : char) : bool := between 97 122 c.

Definition in_ranges (n : N) (ranges : list (N * N)) : bool :=
  existsb (fun r => N.leb (fst r) n && N.leb n (snd r)) ranges.

(** [\w] *)
Definition is_word (c : char) : bool := in_ranges (point c) Ucd.word_ranges.

(** [\s], and the characters [str.strip()] removes *)
Definition is_space (c : char) : bool :=
  existsb (N.eqb (point c)) Ucd.white_space.

Fixpoint assoc {V} (n : N) (pairs : list (N * V)) : option V :=
  match pairs with
  | [] => None
  | (k, v) :: rest => if N.eqb n k then Some v else assoc n rest
  end.

(** the lower-case mapping of one code point *)
Definition lower_char (c : char) : char :=
  match assoc (point c) Ucd.lower_pairs with
  | Some v => Char v
  | None => c
  end.

(** what [str.lower()] gives for one character: the capital I with a dot
    above (U+0130) gives [i] and the combining dot above *)
Definition lower_points (c : char) : string :=
  if N.eqb (point c) 304
  then String (Char 105) (String (Char 775) EmptyString)
  else String (lower_char c) EmptyString.

Definition is_cased (c : char) : bool :=
  in_ranges (point c) Ucd.cased_ranges.

Definition case_ignorable (c : char) : bool :=
  in_ranges (point c) Ucd.case_ignorable_ranges.

(** a cased character comes next, case-ignorable ones skipped *)
Fixpoint cased_follows (s : string) : bool :=
  match s with
  | EmptyString => false
  | String c r => if case_ignorable c then cased_follows r else is_cased c
  end.

(** what [str.lower()] gives for a capital sigma (U+03A3): the final
    sigma (U+03C2) after a cased character when no cased character
    follows, the small sigma (U+03C3) otherwise *)
Definition sigma (after_cased : bool) (rest : string) : char :=
  if after_cased && negb (cased_follows rest) then Char 962 else Char 963.

(** [s.lower()] from a point of the text on; [after_cased] tells whether
    a cased character comes before that point, case-ignorable ones
    skipped *)
Fixpoint lower_from (after_cased : bool) (s : string) : string :=
  match s with
  | EmptyString => EmptyString
  | String c r =>
      (if N.eqb (point c) 931
       then String (sigma after_cased r) EmptyString
       else lower_points c)
      ++ lower_from (if case_ignorable c then after_cased else is_cased c) r
  end.

(** [s.lower()] *)
Definition lower (s : string) : string := lower_from false s.

(** [_sre.unicode_iscased] on the characters of the gateway's patterns,
    which are ASCII: the letters *)
Definition cased (a : char) : bool := is_upper a || is_lower a.

(** the character [a] of a pattern matches the character [c] of the text
    under [re.I]: a cased [a] is compiled to its lower-case mapping [lo],
    and [c] matches when its lower-case mapping is [lo] or one of the extra
    cases of [lo]; any other [a] matches itself *)
Definition extras (lo : N) : list N :=
  match assoc lo Ucd.extra_cases with Some ns => ns | None => [] end.

Definition folds_to (lo l : N) : bool :=
  N.eqb l lo || existsb (N.eqb l) (extras lo).

Definition matches_nocase (a c : char) : bool :=
  if cased a
  then folds_to (point (lower_char a)) (point (lower_char c))
  else Char.eqb a c.

(** what the table of the lower-case mappings is checked for: a mapping
    has no mapping of its own, is a word character when the code point is,
    and neither is white space *)
Definition lower_pair_ok (kv : N * N) : bool :=
  match assoc (snd kv) Ucd.lower_pairs with Some _ => false | None => true end
  && Bool.eqb (is_word (Char (fst kv))) (is_word (Char (snd kv)))
  && negb (is_space (Char (fst kv)))
  && negb (is_space (Char (snd kv))).

Definition newline : char := Char 10.
Definition is_newline (c : char) : bool := Nat.eqb (code c) 10.

Fixpoint rev_onto (s acc : string) : string :=
  match s with
  | EmptyString => acc
  | String c r => rev_onto r (String c acc)
  end.

Definition rev (s : string) : string := rev_onto s EmptyString.

(** [s.lstrip(chars)] with the set of characters given as a predicate *)
Fixpoint lstrip_by (p : char -> bool) (s : string) : string :=
  match s with
  | EmptyString => EmptyString
  | String c r => if p c then lstrip_by p r else s
  end.

Definition rstrip_by (p : char -> bool) (s : string) : string :=
  rev (lstrip_by p (rev s)).

(** [s.strip()] *)
Definition strip (s : string) : string :=
  rstrip_by is_space (lstrip_by is_space s).

Definition is_semicolon (c : char) : bool := Nat.eqb (code c) 59.

(** [s.rstrip(';')] *)
Definition rstrip_semicolons (s : string) : string :=
  rstrip_by is_semicolon s.

(** [s.endswith(suffix)] *)
Definition endswith (s suffix : string) : bool :=
  prefix (rev suffix) (rev s).

(** [s[:-1]] *)
Definition drop_last (s : string) : string :=
  match rev s with
  | EmptyString => EmptyString
  | String _ r => rev r
  end.

(** [c in s] for a one-character [c] *)
Fixpoint contains_char (p : char -> bool) (s : string) : bool :=
  match s with
  | EmptyString => false
  | String c r => p c || contains_char p r
  end.

(** [", ".join(xs)] *)
Fixpoint join (sep : string) (xs : list string) : string :=
  match xs with
  | [] => EmptyString
  | [x] => x
  | x :: rest => x ++ sep ++ join sep rest
  end.

(** [str(n)] for an integer *)
Definition str_of_Z (z : Z) : string :=
  of_digits (DecimalString.NilZero.string_of_int (Z.to_int z)).

Definition str_of_nat (n : nat) : string := str_of_Z (Z.of_nat n).

Definition mem (x : string) (xs : list string) : bool :=
  existsb (String.eqb x) xs.

End Text.

(* ================================================================= *)
(** ** Re: the regular expressions of the gateway

    [re.sub(pattern, repl, s)] scans [s] from the left; wherever the pattern
    matches it emits [repl] and resumes after the match, elsewhere it copies
    one character.  A pattern is given by its matcher: the length of the
    match that starts at the head of the text, when there is one.  None of
    the gateway's substitution patterns matches the empty string. *)

Module Re.
Import Text.

Definition matcher := string -> option nat.

Fixpoint sub_aux (m : matcher) (repl : string) (skip : nat) (s : string)
  : string :=
  match s with
  | EmptyString => EmptyString
  | String c r =>
      match skip with
      | S k => sub_aux m repl k r
      | O =>
          match m s with
          | Some (S k) => (repl ++ sub_aux m repl k r)%string
          | _ => String c (sub_aux m repl O r)
          end
      end
  end.

Definition sub (m : matcher) (repl : string) (s : string) : string :=
  sub_aux m repl 0 s.

Definition is_char (n : nat) (c : char) : bool := Nat.eqb (code c) n.

Definition dash := is_char 45.
Definition hash := is_char 35.
Definition slash := is_char 47.
Definition star := is_char 42.
Definition backslash := is_char 92.
Definition squote := is_char 39.
Definition dquote := is_char 34.
Definition lparen := is_char 40.

(** [[^\n]*]: the length of the run of characters up to the line's end *)
Fixpoint rest_of_line (s : string) : nat :=
  match s with
  | EmptyString => 0
  | String c r => if is_newline c then 0 else S (rest_of_line r)
  end.

(** [--[^\n]*] *)
Definition line_comment_dash : matcher := fun s =>
  match s with
  | String c (String d r) =>
      if dash c && dash d then Some (2 + rest_of_line r) else None
  | _ => None
  end.

(** [#[^\n]*] *)
Definition line_comment_hash : matcher := fun s =>
  match s with
  | String c r => if hash c then Some (1 + rest_of_line r) else None
  | EmptyString => None
  end.

(** [.*?\*/] under [re.S]: up to and including the first [*/] *)
Fixpoint until_close (s : string) : option nat :=
  match s with
  | EmptyString => None
  | String c r =>
      match r with
      | String d _ =>
          if star c && slash d then Some 2 else option_map S (until_close r)
      | EmptyString => None
      end
  end.

(** [/\*.*?\*/] under [re.S] *)
Definition block_comment : matcher := fun s =>
  match s with
  | String c (String d r) =>
      if slash c && star d then option_map (fun n => 2 + n) (until_close r)
      else None
  | _ => None
  end.

(** [([^q\\]|\\.)*q]: the two alternatives start with different
    characters and neither starts with the quote, so the loop has one way
    to run; [.] does not match a newline. *)
Fixpoint quoted_body (q : char -> bool) (s : string) : option nat :=
  match s with
  | EmptyString => None
  | String c r =>
      if q c then Some 1
      else if backslash c then
        match r with
        | String d r' =>
            if is_newline d then None
            else option_map (fun n => S (S n)) (quoted_body q r')
        | EmptyString => None
        end
      else option_map S (quoted_body q r)
  end.

(** ['([^'\\]|\\.)*'] and its double-quote twin *)
Definition quoted (q : char -> bool) : matcher := fun s =>
  match s with
  | String c r => if q c then option_map S (quoted_body q r) else None
  | EmptyString => None
  end.

(** *** Search patterns: the shapes FORBIDDEN_TOKENS uses *)

Inductive atom : Type :=
| Boundary                          (* \b *)
| Lit (w : string)                  (* literal text, compared under re.I *)
| Alt (ws : list string)            (* (w1|w2|...) *)
| Star (cls : char -> bool)        (* [cls]* *)
| Plus (cls : char -> bool).       (* [cls]+ *)

Definition pattern := list atom.

Definition word_opt (c : option char) : bool :=
  match c with Some x => is_word x | None => false end.

Definition head (s : string) : option char :=
  match s with String c _ => Some c | EmptyString => None end.

(** [\b] holds between [prev] and the head of [s] *)
Definition at_boundary (prev : option char) (s : string) : bool :=
  xorb (word_opt prev) (word_opt (head s)).

(** consume [w] at the head of [s], ignoring case *)
Fixpoint eat (w : string) (prev : option char) (s : string)
  : option (option char * string) :=
  match w with
  | EmptyString => Some (prev, s)
  | String a w' =>
      match s with
      | String c r =>
          if matches_nocase a c then eat w' (Some c) r else None
      | EmptyString => None
      end
  end.

(** the last character of [w], [d] when [w] is empty *)
Fixpoint last_or (d : option char) (w : string) : option char :=
  match w with
  | EmptyString => d
  | String a w' => last_or (Some a) w'
  end.

Section Repeat.
Variable cls : char -> bool.
Variable k : option char -> string -> bool.

(** [[cls]*] followed by the continuation [k], with backtracking *)
Fixpoint star0 (prev : option char) (s : string) : bool :=
  match s with
  | String c r => (cls c && star0 (Some c) r) || k prev s
  | EmptyString => k prev s
  end.

Definition plus1 (prev : option char) (s : string) : bool :=
  match s with
  | String c r => cls c && star0 (Some c) r
  | EmptyString => false
  end.
End Repeat.

Definition eat_then (k : option char -> string -> bool)
    (prev : option char) (s : string) (w : string) : bool :=
  match eat w prev s with
  | Some (prev', s') => k prev' s'
  | None => false
  end.

(** does the pattern match at the head of [s], [prev] being the
    character before it *)
Fixpoint match_here (p : pattern) : option char -> string -> bool :=
  match p with
  | [] => fun _ _ => true
  | a :: p' =>
      let k := match_here p' in
      match a with
      | Boundary => fun prev s => at_boundary prev s && k prev s
      | Lit w => fun prev s => eat_then k prev s w
      | Alt ws => fun prev s => existsb (eat_then k prev s) ws
      | Star cls => star0 cls k
      | Plus cls => plus1 cls k
      end
  end.

Fixpoint search_from (p : pattern) (prev : option char) (s : string)
  : bool :=
  match_here p prev s ||
  match s with
  | String c r => search_from p (Some c) r
  | EmptyString => false
  end.

(** [re.search(p, s, flags=re.I) is not None] *)
Definition search (p : pattern) (s : string) : bool :=
  search_from p None s.

(** [re.match(p, s, flags=re.I) is not None]: the match starts at 0 *)
Definition match_start (p : pattern) (s : string) : bool :=
  match_here p None s.

End Re.

(* ================================================================= *)
(** ** Scanner: comment and literal scrubbing, the denylist, the gates *)

Module Scanner.
Import Text Re.

Record token : Type := { source : string; atoms : pattern }.

Definition keyword (src w : string) : token :=
  {| source := src; atoms := [Boundary; Lit w; Boundary] |}.

Definition FORBIDDEN_TOKENS : list token :=
  [ keyword "\bINSERT\b" "INSERT"; keyword "\bUPDATE\b" "UPDATE";
    keyword "\bDELETE\b" "DELETE"; keyword "\bREPLACE\b" "REPLACE";
    keyword "\bMERGE\b" "MERGE";
    keyword "\bALTER\b" "ALTER"; keyword "\bDROP\b" "DROP";
    keyword "\bTRUNCATE\b" "TRUNCATE"; keyword "\bCREATE\b" "CREATE";
    keyword "\bGRANT\b" "GRANT"; keyword "\bREVOKE\b" "REVOKE";
    keyword "\bSET\b" "SET"; keyword "\bCALL\b" "CALL";
    keyword "\bEXEC\b" "EXEC";
    keyword "\bLOCK\b" "LOCK"; keyword "\bUNLOCK\b" "UNLOCK";
    {| source := "\bINTO\s+OUTFILE\b";
       atoms := [Boundary; Lit "INTO"; Plus is_space; Lit "OUTFILE";
                 Boundary] |};
    {| source := "\bLOAD\s+DATA\b";
       atoms := [Boundary; Lit "LOAD"; Plus is_space; Lit "DATA";
                 Boundary] |};
    {| source := "\bLOAD_FILE\s*\(";
       atoms := [Boundary; Lit "LOAD_FILE"; Star is_space; Lit "("] |} ].

Definition two (c : char) : string := String c (String c EmptyString).

Definition squote_char : char := Char 39.
Definition dquote_char : char := Char 34.

Definition _remove_comments_and_strings (sql : string) : string :=
  let s := sub line_comment_dash " " sql in
  let s := sub line_comment_hash " " s in
  let s := sub block_comment " " s in
  let s := sub (quoted squote) (two squote_char) s in
  let s := sub (quoted dquote) (two dquote_char) s in
  s.

Definition _is_single_statement (sql : string) : bool :=
  let scrubbed := _remove_comments_and_strings sql in
  let trimmed := strip scrubbed in
  let trimmed :=
    if endswith trimmed ";" then strip (drop_last trimmed) else trimmed in
  negb (contains_char is_semicolon trimmed).

(** [^\s*[\(]*\s*(select|with)\b] *)
Definition head_pattern : pattern :=
  [Star is_space; Star lparen; Star is_space; Alt ["select"; "with"];
   Boundary].

(** the patterns of FORBIDDEN_TOKENS found in [scrubbed], in order *)
Definition forbidden_hits (scrubbed : string) : list string :=
  map source (filter (fun t => search (atoms t) scrubbed) FORBIDDEN_TOKENS).

Definition _is_readonly_select (sql : string) : bool :=
  if negb (match_start head_pattern sql) then false
  else
    let scrubbed := _remove_comments_and_strings sql in
    negb (existsb (fun t => search (atoms t) scrubbed) FORBIDDEN_TOKENS).

End Scanner.

(* ================================================================= *)
(** ** Ast: the syntax tree as the resolver sees it

    The parser hands over a tree of nodes.  The resolver only tells apart
    the clause nodes, tables, columns, CTEs and subqueries; every other node
    (FROM, identifiers, operators, literals, ...) is [Other].  A name or
    alias that is absent is the empty string, which is how the code tests
    it.  [args] are the child expressions in the order the tree iterates
    them. *)

Module Ast.

Inductive Kind : Type :=
| Select | Where | Group | Having | Order | Join | With | Union
| CTE (alias : string)
| Subquery (alias : string)
| Table (name alias : string)
| Column (name table : string)
| Other.

#[warnings="-register-all"]
Inductive Expression : Type :=
| Node (kind : Kind) (args : list Expression).

Definition kind_of (e : Expression) : Kind :=
  match e with Node k _ => k end.

Definition args_of (e : Expression) : list Expression :=
  match e with Node _ a => a end.

(** [expr.this], kept as the first argument *)
Definition this (e : Expression) : option Expression :=
  match args_of e with x :: _ => Some x | [] => None end.

Fixpoint height (e : Expression) : nat :=
  match e with Node _ args => S (list_max (map height args)) end.

(** a visited node: its kind and the kinds of its ancestors, parent
    first *)
Definition visit : Type := (Kind * list Kind)%type.

(** the nodes at depth [d] below [e], left to right *)
Fixpoint level (d : nat) (ancestors : list Kind) (e : Expression)
  : list visit :=
  match e with
  | Node k args =>
      match d with
      | O => [(k, ancestors)]
      | S d' => flat_map (level d' (k :: ancestors)) args
      end
  end.

(** [root.walk(bfs=True)]: breadth first, level after level *)
Definition walk (root : Expression) : list visit :=
  flat_map (fun d => level d [] root) (seq 0 (height root)).

(** [root.find_all(exp.Table)]: name and alias of each table node *)
Definition find_all_tables (root : Expression) : list (string * string) :=
  flat_map (fun v => match fst v with
                     | Table n a => [(n, a)] | _ => [] end) (walk root).

(** [root.find_all(exp.CTE)] *)
Definition find_all_ctes (root : Expression) : list string :=
  flat_map (fun v => match fst v with
                     | CTE a => [a] | _ => [] end) (walk root).

(** [root.find_all(exp.Subquery)] *)
Definition find_all_subqueries (root : Expression) : list string :=
  flat_map (fun v => match fst v with
                     | Subquery a => [a] | _ => [] end) (walk root).

Record column_ref : Type :=
  { col_name : string; col_table : string; col_ancestors : list Kind }.

(** [root.find_all(exp.Column)] *)
Definition find_all_columns (root : Expression) : list column_ref :=
  flat_map (fun v => match fst v with
                     | Column n t =>
                         [{| col_name := n; col_table := t;
                             col_ancestors := snd v |}]
                     | _ => [] end) (walk root).

(** [clause_of(node)]: the first clause node among the ancestors *)
Fixpoint clause_of (ancestors : list Kind) : string :=
  match ancestors with
  | [] => "unknown"
  | p :: up =>
      match p with
      | Select => "select"
      | Where => "where"
      | Group => "group_by"
      | Having => "having"
      | Order => "order_by"
      | Join => "join_on"
      | _ => clause_of up
      end
  end.

Definition _is_select_like (expr : Expression) : bool :=
  match kind_of expr with
  | Select => true
  | With =>
      match this expr with
      | Some (Node Select _) | Some (Node Union _) => true
      | _ => false
      end
  | Union => true
  | _ => false
  end.

(** [reaches root d e]: [e] sits [d] levels below [root] *)
Inductive reaches : Expression -> nat -> Expression -> Prop :=
| reach_here : forall e, reaches e 0 e
| reach_arg : forall k args a d e,
    In a args -> reaches a d e -> reaches (Node k args) (S d) e.

End Ast.

(* ================================================================= *)
(** ** Resolver: alias maps and the table and column checks *)

Module Resolver.
Import Text Ast.

(** a Python [dict] with string keys: insertion order is kept, and
    assigning to a key that is present keeps its place *)
Definition dict (V : Type) : Type := list (string * V).

Fixpoint dict_set {V} (k : string) (v : V) (d : dict V) : dict V :=
  match d with
  | [] => [(k, v)]
  | (k', v') :: r =>
      if String.eqb k k' then (k, v) :: r else (k', v') :: dict_set k v r
  end.

Fixpoint dict_get {V} (k : string) (d : dict V) : option V :=
  match d with
  | [] => None
  | (k', v) :: r => if String.eqb k k' then Some v else dict_get k r
  end.

Definition keys {V} (d : dict V) : list string := map fst d.
Definition values {V} (d : dict V) : list V := map snd d.

(** the schema snapshot: table name -> column names *)
Definition schema : Type := dict (list string).

Fixpoint insert_sorted (x : string) (xs : list string) : list string :=
  match xs with
  | [] => [x]
  | y :: r => if String.leb x y then x :: xs else y :: insert_sorted x r
  end.

(** [sorted(set(xs))] *)
Definition sorted_set (xs : list string) : list string :=
  fold_right insert_sorted [] (nodup string_dec xs).

Definition _collect_real_table_aliases (root : Expression) : dict string :=
  fold_left
    (fun mapping t =>
       let real_name := lower (fst t) in
       if String.eqb real_name "" then mapping
       else
         let alias_str := snd t in
         let mapping :=
           if String.eqb alias_str "" then mapping
           else dict_set (lower alias_str) real_name mapping in
         dict_set real_name real_name mapping)
    (find_all_tables root) [].

(** a Python [set] of strings, used for membership only *)
Definition _collect_derived_aliases (root : Expression) : list string :=
  let aliases :=
    fold_left
      (fun aliases a =>
         if String.eqb a "" then aliases else lower a :: aliases)
      (find_all_ctes root) [] in
  fold_left
    (fun aliases a =>
       if String.eqb a "" then aliases else lower a :: aliases)
    (find_all_subqueries root) aliases.

Record missing_table : Type := { mt_table : string }.
Record missing_column : Type :=
  { mc_table : string; mc_column : string; mc_context : string }.
Record ambiguous_column : Type :=
  { ac_column : string; ac_candidates : list string;
    ac_context : string }.

Section Columns.
Variable schema_tables : schema.
Variable real_aliases : dict string.
Variable derived_aliases : list string.

Definition all_real_tables : list string :=
  map lower (keys schema_tables).

(** [col_name in {c.lower() for c in schema_tables.get(real, set())}] *)
Definition has_column (real col_name : string) : bool :=
  match dict_get real schema_tables with
  | Some cols => mem col_name (map lower cols)
  | None => false
  end.

(** the candidates of an unprefixed column: one per entry of the alias
    map whose table is known and has the column *)
Definition candidates_of (col_name : string) : list string :=
  flat_map
    (fun entry =>
       let real := snd entry in
       if mem real all_real_tables && has_column real col_name
       then [(real ++ "." ++ col_name)%string] else [])
    real_aliases.

(** one turn of the loop over the column references *)
Definition check_column
    (acc : list missing_column * list ambiguous_column)
    (col : column_ref)
  : list missing_column * list ambiguous_column :=
  let '(missing_columns, ambiguous_columns) := acc in
  let col_name := lower (col_name col) in
  let tbl_prefix := col_table col in
  let ctx := clause_of (col_ancestors col) in
  if String.eqb col_name "" then acc
  else if negb (String.eqb tbl_prefix "") then
    let alias_lower := lower tbl_prefix in
    if mem alias_lower derived_aliases then acc
    else
      match dict_get alias_lower real_aliases with
      | None => acc
      | Some real =>
          if String.eqb real "" then acc
          else if negb (mem real all_real_tables) then acc
          else if negb (has_column real col_name) then
            (missing_columns ++
               [{| mc_table := real; mc_column := col_name;
                   mc_context := ctx |}],
             ambiguous_columns)
          else acc
      end
  else
    let candidates := candidates_of col_name in
    if Nat.eqb (length candidates) 0 then
      (missing_columns ++
         [{| mc_table := "*"; mc_column := col_name;
             mc_context := ctx |}],
       ambiguous_columns)
    else if Nat.ltb 1 (length candidates) then
      (missing_columns,
       ambiguous_columns ++
         [{| ac_column := col_name; ac_candidates := candidates;
             ac_context := ctx |}])
    else acc.
End Columns.

(** what one column reference adds to the findings *)
Definition contribution (schema_tables : schema)
    (real_aliases : dict string) (derived_aliases : list string)
    (col : column_ref) : list missing_column * list ambiguous_column :=
  check_column schema_tables real_aliases derived_aliases ([], []) col.

Definition _check_schema_columns (root : Expression) (schema_tables : schema)
  : list missing_table * list missing_column * list ambiguous_column :=
  let real_aliases := _collect_real_table_aliases root in
  let derived_aliases := _collect_derived_aliases root in
  let real_tables_referred := values real_aliases in
  let missing_tables :=
    flat_map
      (fun t =>
         if mem t (map lower (keys schema_tables)) then []
         else [{| mt_table := t |}])
      (sorted_set real_tables_referred) in
  let '(missing_columns, ambiguous_columns) :=
    fold_left (check_column schema_tables real_aliases derived_aliases)
      (find_all_columns root) ([], []) in
  (missing_tables, missing_columns, ambiguous_columns).

End Resolver.

(* ================================================================= *)
(** ** Py: values, exceptions and calls that may raise *)

Module Py.

Inductive value : Type :=
| VNone
| VInt (z : Z)
| VStr (s : string).

(** an exception, through what the gateway reads of it: [e.args[0]]
    when [e.args] is not empty, [e.sqlstate] when it has one, [str(e)] *)
Record exn : Type :=
  { exn_args0 : option value;
    exn_sqlstate : option string;
    exn_str : string }.

Inductive outcome (A : Type) : Type :=
| Raised (e : exn)
| Returned (a : A).

Arguments Raised {A} e.
Arguments Returned {A} a.

Definition exn_of (text : string) : exn :=
  {| exn_args0 := Some (VStr text); exn_sqlstate := None;
     exn_str := text |}.

(** a result row of a [DictCursor]: column name -> value *)
Definition row : Type := list (string * value).

Fixpoint row_get (k : string) (r : row) : option value :=
  match r with
  | [] => None
  | (k', v) :: rest => if String.eqb k k' then Some v else row_get k rest
  end.

End Py.

(* ================================================================= *)
(** ** Static: [static_check_sql] *)

Module Static.
Import Text Re Scanner Ast Resolver Py.

Inductive status : Type := pass | warn | fail.

Definition status_eqb (a b : status) : bool :=
  match a, b with
  | pass, pass | warn, warn | fail, fail => true
  | _, _ => false
  end.

Record finding : Type :=
  { code : string; level : string; message : string }.

Record checks : Type :=
  { multi_statement : status;
    readonly : status;
    forbidden : list string;
    schema_match : status;
    missing_tables : list missing_table;
    missing_columns : list missing_column;
    ambiguous_columns : list ambiguous_column }.

Record result : Type :=
  { stage : string;
    overall : status;
    check : checks;
    findings : list finding;
    summary : string }.

Definition initial_checks : checks :=
  {| multi_statement := pass; readonly := pass; forbidden := [];
     schema_match := pass; missing_tables := []; missing_columns := [];
     ambiguous_columns := [] |}.

Definition is_empty {A} (xs : list A) : bool :=
  match xs with [] => true | _ => false end.

(** [sql] is the statement; [parsed] is what [sqlglot.parse] answers for
    it (a list of top-level expressions, each possibly [None]) and
    [snapshot] what [_fetch_schema_snapshot] answers. *)
Definition static_check_sql
    (sql : string)
    (parsed : outcome (list (option Expression)))
    (snapshot : outcome schema)
  : outcome result :=
  match parsed with
  | Raised e =>
      Returned
        {| stage := "static"; overall := fail; check := initial_checks;
           findings :=
             [{| code := "SQL_PARSE_ERROR"; level := "error";
                 message := ("SQL 解析失败：" ++ exn_str e)%string |}];
           summary := "SQL 解析失败，无法继续静态检查" |}
  | Returned exprs =>
      (* 2) multi-statement *)
      let multi := negb (Nat.eqb (length exprs) 1) in
      let findings :=
        if multi then
          [{| code := "MULTI_STATEMENT"; level := "error";
              message := ("检测到 " ++ str_of_nat (length exprs)
                          ++ " 个顶层语句，仅允许单语句查询")%string |}]
        else [] in
      (* 3) read-only: the top-level expression *)
      let not_select :=
        match exprs with
        | top :: _ =>
            negb (match top with
                  | Some e => _is_select_like e
                  | None => false
                  end)
        | [] => false
        end in
      let findings :=
        if not_select then
          findings ++
            [{| code := "NON_READONLY"; level := "error";
                message := "仅允许只读查询（SELECT/WITH/UNION）" |}]
        else findings in
      (* the keyword scan *)
      let scrubbed := _remove_comments_and_strings sql in
      let hits := forbidden_hits scrubbed in
      let findings :=
        if negb (is_empty hits) then
          findings ++
            [{| code := "FORBIDDEN_TOKEN"; level := "error";
                message := ("检测到危险关键字：" ++ join ", " hits)%string |}]
        else findings in
      let readonly_status :=
        if not_select || negb (is_empty hits) then fail else pass in
      (* 4) tables and columns *)
      match snapshot with
      | Raised e => Raised e
      | Returned schema_tables =>
          let resolved :=
            match exprs with
            | Some root :: _ =>
                Returned (_check_schema_columns root schema_tables)
            | None :: _ =>
                Raised
                  (exn_of "'NoneType' object has no attribute 'find_all'")
            | [] => Returned ([], [], [])
            end in
          match resolved with
          | Raised e => Raised e
          | Returned (mt, mc, ac) =>
              let schema_status :=
                if negb (is_empty mt) || negb (is_empty mc) then fail
                else if negb (is_empty ac) then warn
                else pass in
              let multi_status := if multi then fail else pass in
              let overall_status :=
                if status_eqb multi_status fail
                   || status_eqb readonly_status fail
                   || status_eqb schema_status fail
                then fail else pass in
              let parts :=
                (if status_eqb multi_status fail
                 then ["存在多语句"] else [])
                ++ (if status_eqb readonly_status fail
                    then ["检测到非只读/危险关键字"] else [])
                ++ (if negb (is_empty mt)
                    then [(str_of_nat (length mt) ++ " 个表不存在")%string]
                    else [])
                ++ (if negb (is_empty mc)
                    then [(str_of_nat (length mc) ++ " 个字段不存在")%string]
                    else [])
                ++ (if negb (is_empty ac)
                    then [(str_of_nat (length ac)
                           ++ " 个字段存在歧义")%string]
                    else []) in
              Returned
                {| stage := "static";
                   overall := overall_status;
                   check :=
                     {| multi_statement := multi_status;
                        readonly := readonly_status;
                        forbidden := hits;
                        schema_match := schema_status;
                        missing_tables := mt;
                        missing_columns := mc;
                        ambiguous_columns := ac |};
                   findings := findings;
                   summary :=
                     if is_empty parts then "所有静态检查通过"
                     else join "；" parts |}
          end
      end
  end.

End Static.

(* ================================================================= *)
(** ** Env: the collaborators and the effects on them

    A [World] fixes what the collaborators answer during one request.  The
    gateway's effects are recorded in a [state]: the files of the export
    directory and the trace of calls made to the store and the file
    system. *)

Module Env.
Import Text Py Resolver.

Record World : Type :=
  { (* pymysql *)
    connect_error : option exn;
    cursor_error : option exn;
    (** [cursor.execute(q)] and the rows then fetched by [fetchone] or
        [fetchall] *)
    execute : string -> outcome (list row);
    (** [cursor.description] after [cursor.execute(q)]: the column names,
        empty when there is no description *)
    description : string -> outcome (list string);
    (** the successive answers of [cursor.fetchmany(size)] *)
    fetchmany : string -> Z -> list (outcome (list row));
    close_error : option exn;
    (** [int(s)] for a text value *)
    int_of_text : string -> outcome Z;
    (** [random.sample(range(n), k)] for [0 <= k <= n] *)
    sample : nat -> nat -> list nat;
    (* os, time, uuid, the output file *)
    makedirs_error : option exn;
    timestamp : string;
    uuid_hex8 : string;
    open_error : option exn;
    (** whether the i-th [writer.writerow] of the request raises *)
    write_error : nat -> option exn;
    flush_error : option exn;
    remove_error : option exn }.

Inductive event : Type :=
| Connect
| OpenCursor
| Execute (q : string)
| FetchMany
| CloseConnection
| MakeDirs (path : string)
| OpenFile (path : string)
| WriteRow (path : string)
| Remove (path : string).

Record file : Type :=
  { encoding : string; records : list (list (option value)) }.

Record state : Type :=
  { fs : dict file; writes : nat; trace : list event }.

Definition M (A : Type) : Type := state -> A * state.

Definition ret {A} (a : A) : M A := fun st => (a, st).

Definition bind {A B} (m : M A) (f : A -> M B) : M B :=
  fun st => let '(a, st') := m st in f a st'.

Definition log (e : event) : M unit :=
  fun st => (tt, {| fs := fs st; writes := writes st;
                    trace := trace st ++ [e] |}).

Definition get_fs : M (dict file) := fun st => (fs st, st).

Definition put_fs (d : dict file) : M unit :=
  fun st => (tt, {| fs := d; writes := writes st; trace := trace st |}).

Definition next_write : M nat :=
  fun st => (writes st, {| fs := fs st; writes := S (writes st);
                           trace := trace st |}).

(** [try: conn.close() except Exception: pass] *)
Definition close_connection (w : World) : M unit :=
  bind (log CloseConnection)
    (fun _ => match close_error w with
              | Some _ => ret tt
              | None => ret tt
              end).

Fixpoint dict_remove {V} (k : string) (d : dict V) : dict V :=
  match d with
  | [] => []
  | (k', v) :: r =>
      if String.eqb k k' then dict_remove k r else (k', v) :: dict_remove k r
  end.

End Env.

Declare Scope gateway_scope.
Delimit Scope gateway_scope with gw.
Notation "x <- m ;; k" := (Env.bind m (fun x => k))
  (at level 61, m at next level, right associativity) : gateway_scope.
Notation "m ;;; k" := (Env.bind m (fun _ => k))
  (at level 61, right associativity) : gateway_scope.

(* ================================================================= *)
(** ** Dynamic: [_count_rows], [_preview_rows], [dynamic_check_sql] *)

Module Dynamic.
Import Text Scanner Py Resolver Env.
Local Open Scope gateway_scope.

Definition py_int (w : World) (v : value) : outcome Z :=
  match v with
  | VInt z => Returned z
  | VStr s => int_of_text w s
  | VNone =>
      Raised (exn_of ("int() argument must be a string, a bytes-like object"
                     ++ " or a real number, not 'NoneType'"))
  end.

Definition run_query (w : World) (q : string) : M (outcome (list row)) :=
  log (Execute q) ;;; ret (execute w q).

Definition count_sql (sql : string) : string :=
  "SELECT COUNT(*) AS __cnt FROM ( " ++ rstrip_semicolons sql
    ++ " ) AS __t".

(** [row = cursor.fetchone()] and
    [int(row["__cnt"] if row and "__cnt" in row else 0)] *)
Definition fetch_count (w : World) (r : outcome (list row)) : outcome Z :=
  match r with
  | Raised e => Raised e
  | Returned rows =>
      match rows with
      | row :: _ =>
          match row_get "__cnt" row with
          | Some v => py_int w v
          | None => Returned 0%Z
          end
      | [] => Returned 0%Z
      end
  end.

Definition _count_rows (w : World) (sql : string) : M (outcome Z) :=
  r <- run_query w (count_sql sql) ;;
  ret (fetch_count w r).

(** [random.sample(range(n), k)] *)
Definition random_sample (w : World) (n : nat) (k : Z)
  : outcome (list nat) :=
  if (k <? 0)%Z || (Z.of_nat n <? k)%Z
  then Raised (exn_of "Sample larger than population or is negative")
  else Returned (sample w n (Z.to_nat k)).

(** [[pool[i] for i in idxs]] *)
Fixpoint pick (pool : list row) (idxs : list nat) : outcome (list row) :=
  match idxs with
  | [] => Returned []
  | i :: rest =>
      match nth_error pool i with
      | None => Raised (exn_of "list index out of range")
      | Some r =>
          match pick pool rest with
          | Raised e => Raised e
          | Returned rs => Returned (r :: rs)
          end
      end
  end.

Definition preview_sql (sql : string) (pool_limit : Z) : string :=
  "SELECT * FROM ( " ++ rstrip_semicolons sql ++ " ) AS __t LIMIT "
    ++ str_of_Z pool_limit.

(** the sampling step, on the pool the preview query fetched *)
Definition sample_pool (w : World) (pool : list row) (sample_limit : Z)
  : outcome (list row) :=
  match pool with
  | [] => Returned []
  | _ =>
      if (Z.of_nat (length pool) <=? sample_limit)%Z then Returned pool
      else
        match random_sample w (length pool) sample_limit with
        | Raised e => Raised e
        | Returned idxs => pick pool idxs
        end
  end.

Definition fetch_sample (w : World) (r : outcome (list row))
    (sample_limit : Z) : outcome (list row) :=
  match r with
  | Raised e => Raised e
  | Returned pool => sample_pool w pool sample_limit
  end.

Definition _preview_rows (w : World) (sql : string)
    (pool_limit sample_limit : Z) : M (outcome (list row)) :=
  r <- run_query w (preview_sql sql pool_limit) ;;
  ret (fetch_sample w r sample_limit).

(** what [random.sample] promises for [0 <= k <= n]: [k] distinct
    positions of the population *)
Definition sampler_contract (w : World) : Prop :=
  forall n k,
    k <= n ->
    length (sample w n k) = k
    /\ NoDup (sample w n k)
    /\ Forall (fun i => i < n) (sample w n k).

(** *** The draws of [random.sample]

    For [0 <= k <= n], [random.sample(range(n), k)] answers one of the
    arrangements of [k] distinct positions below [n], each as likely as
    another. *)

(** the arrangements of [k] distinct members of [avail] *)
Fixpoint arrangements (avail : list nat) (k : nat) : list (list nat) :=
  match k with
  | O => [[]]
  | S k' =>
      flat_map
        (fun i => map (cons i) (arrangements (remove Nat.eq_dec i avail) k'))
        avail
  end.

Definition draws (n k : nat) : list (list nat) := arrangements (seq 0 n) k.

(** the draw [d] takes its positions among [chosen] *)
Definition within (chosen d : list nat) : bool :=
  forallb (fun i => existsb (Nat.eqb i) chosen) d.

(** the number of draws that pick the positions [chosen] *)
Definition ways (n k : nat) (chosen : list nat) : nat :=
  length (filter (within chosen) (draws n k)).

Record error_info : Type :=
  { err_code : option value;
    err_sqlstate : option string;
    err_message : string }.

Record result : Type :=
  { ok : bool;
    stage : string;
    status : string;
    row_count : option Z;
    sample_rows : option (list row);
    error : option error_info;
    message : string }.

Definition runtime_error (code : option value) (sqlstate : option string)
    (text : string) : result :=
  {| ok := false; stage := "dynamic"; status := "runtime_error";
     row_count := None; sample_rows := None;
     error := Some {| err_code := code; err_sqlstate := sqlstate;
                      err_message := text |};
     message := "执行失败" |}.

Definition runtime_error_of (e : exn) : result :=
  runtime_error (exn_args0 e) (exn_sqlstate e) (exn_str e).

Definition empty_hint : string :=
  "查询结果为空。请基于 get_mysql_schema 的表结构与样例数据，检查筛选条件（时间区间、品类、人群范围、聚合条件）是否合理。".

Definition success (n : Z) (rows : list row) (note : string) : result :=
  {| ok := true; stage := "dynamic"; status := "success";
     row_count := Some n; sample_rows := Some rows;
     error := None; message := note |}.

Definition count_note (count_err : exn) : string :=
  "COUNT 统计失败：" ++ exn_str count_err ++ "; 已返回样本行用于参考。".

(** the outcome, from what the count probe and the preview gave *)
Definition outcome_of (total : outcome Z) (samples : outcome (list row))
  : result :=
  match samples with
  | Raised pe => runtime_error_of pe
  | Returned samples =>
      let '(row_count, note) :=
        match total with
        | Raised count_err =>
            (Z.of_nat (length samples), count_note count_err)
        | Returned total => (total, "执行成功")
        end in
      if (row_count =? 0)%Z then success 0 [] empty_hint
      else success row_count samples note
  end.

(** the body of [with conn.cursor() as cursor] *)
Definition probe_and_preview (w : World) (sql : string)
    (sample_limit preview_pool : Z) : M result :=
  total <- _count_rows w sql ;;
  samples <- _preview_rows w sql preview_pool sample_limit ;;
  ret (outcome_of total samples).

Definition dynamic_check_sql (w : World) (sql : string)
    (sample_limit preview_pool : Z) : M result :=
  if negb (_is_single_statement sql) then
    ret (runtime_error None None "仅允许单条 SQL 语句（检测到多语句）")
  else if negb (_is_readonly_select sql) then
    ret (runtime_error None None
           "仅允许只读查询（SELECT/WITH/UNION），或检测到危险关键字")
  else
    log Connect ;;;
    match connect_error w with
    | Some e =>
        ret (runtime_error None None ("数据库连接失败：" ++ exn_str e))
    | None =>
        log OpenCursor ;;;
        r <- match cursor_error w with
             | Some e => ret (runtime_error_of e)
             | None => probe_and_preview w sql sample_limit preview_pool
             end ;;
        close_connection w ;;;
        ret r
    end.

End Dynamic.

(* ================================================================= *)
(** ** Exporter: [save_to_csv] *)

Module Exporter.
Import Text Scanner Py Resolver Env.
Local Open Scope gateway_scope.

Record result : Type :=
  { ok : bool;
    stage : string;
    status : string;
    file_path : option string;
    rows_written : option nat;
    error_message : option string;
    message : string }.

Definition runtime_error (text : string) : result :=
  {| ok := false; stage := "save"; status := "runtime_error";
     file_path := None; rows_written := None;
     error_message := Some text; message := "保存失败" |}.

Definition output_dir : string := "../exports".

Definition path_of (w : World) : string :=
  output_dir ++ "/" ++ "query_" ++ timestamp w ++ "_" ++ uuid_hex8 w
    ++ ".csv".

(** [open(file_path, "w", ...)]: creates the file, or empties it *)
Definition open_file (w : World) (path enc : string) : M (outcome unit) :=
  log (OpenFile path) ;;;
  match open_error w with
  | Some e => ret (Raised e)
  | None =>
      d <- get_fs ;;
      put_fs (dict_set path {| encoding := enc; records := [] |} d) ;;;
      ret (Returned tt)
  end.

Definition append_record (path : string) (rec : list (option value))
    (d : dict file) : dict file :=
  match dict_get path d with
  | Some f =>
      dict_set path {| encoding := encoding f;
                       records := records f ++ [rec] |} d
  | None => d
  end.

(** [writer.writerow(rec)] *)
Definition writerow (w : World) (path : string)
    (rec : list (option value)) : M (outcome unit) :=
  log (WriteRow path) ;;;
  i <- next_write ;;
  match write_error w i with
  | Some e => ret (Raised e)
  | None =>
      d <- get_fs ;;
      put_fs (append_record path rec d) ;;;
      ret (Returned tt)
  end.

(** [for row in batch: writer.writerow([row.get(col) for col in colnames])] *)
Fixpoint write_batch (w : World) (path : string) (colnames : list string)
    (batch : list row) : M (outcome unit) :=
  match batch with
  | [] => ret (Returned tt)
  | row :: rest =>
      r <- writerow w path (map (fun col => row_get col row) colnames) ;;
      match r with
      | Raised e => ret (Raised e)
      | Returned _ => write_batch w path colnames rest
      end
  end.

(** the [while True] loop over the answers of [fetchmany]; when the
    answers run out the cursor is exhausted and answers the empty batch *)
Fixpoint stream (w : World) (path : string) (colnames : list string)
    (answers : list (outcome (list row))) (rows_written : nat)
  : M (outcome nat) :=
  match answers with
  | [] => log FetchMany ;;; ret (Returned rows_written)
  | answer :: later =>
      log FetchMany ;;;
      match answer with
      | Raised e => ret (Raised e)
      | Returned [] => ret (Returned rows_written)
      | Returned batch =>
          r <- write_batch w path colnames batch ;;
          match r with
          | Raised e => ret (Raised e)
          | Returned _ =>
              stream w path colnames later (rows_written + length batch)
          end
      end
  end.

(** what runs once the output file is open *)
Definition write_all (w : World) (sql : string) (fetch_size : Z)
    (path : string) : M (outcome nat) :=
  log (Execute sql) ;;;
  match description w sql with
  | Raised e => ret (Raised e)
  | Returned colnames =>
      h <- match colnames with
           | [] => ret (Returned tt)
           | _ => writerow w path (map (fun c => Some (VStr c)) colnames)
           end ;;
      match h with
      | Raised e => ret (Raised e)
      | Returned _ =>
          r <- stream w path colnames (fetchmany w sql fetch_size) 0 ;;
          match r with
          | Raised e => ret (Raised e)
          | Returned n =>
              match flush_error w with
              | Some e => ret (Raised e)
              | None => ret (Returned n)
              end
          end
      end
  end.

(** the [with conn.cursor(DictCursor) as cursor, open(...) as f] block *)
Definition with_block (w : World) (sql : string) (fetch_size : Z)
    (path enc : string) : M (outcome nat) :=
  log OpenCursor ;;;
  match cursor_error w with
  | Some e => ret (Raised e)
  | None =>
      o <- open_file w path enc ;;
      match o with
      | Raised e => ret (Raised e)
      | Returned _ => write_all w sql fetch_size path
      end
  end.

(** the clean-up of the [except] branch: the removal may itself raise,
    which is swallowed *)
Definition cleanup (w : World) (path : string) : M unit :=
  d <- get_fs ;;
  match dict_get path d with
  | None => ret tt
  | Some _ =>
      log (Remove path) ;;;
      match remove_error w with
      | Some _ => ret tt
      | None => put_fs (dict_remove path d)
      end
  end.

Definition encoding_of (excel_friendly : bool) : string :=
  if excel_friendly then "utf-8-sig" else "utf-8".

(** the state in which the [with] block starts, once the directory is
    made and the connection is open *)
Definition at_block (st : state) : state :=
  {| fs := fs st; writes := writes st;
     trace := (trace st ++ [MakeDirs output_dir]) ++ [Connect] |}.

Definition save_to_csv (w : World) (sql : string) (fetch_size : Z)
    (excel_friendly : bool) : M (outcome result) :=
  if negb (_is_single_statement sql) then
    ret (Returned (runtime_error "仅允许单条 SQL 语句（检测到多语句）"))
  else if negb (_is_readonly_select sql) then
    ret (Returned (runtime_error
                     "仅允许只读查询（SELECT/WITH/UNION），或检测到危险关键字"))
  else
    log (MakeDirs output_dir) ;;;
    match makedirs_error w with
    | Some e => ret (Raised e)
    | None =>
        let path := path_of w in
        log Connect ;;;
        match connect_error w with
        | Some e =>
            ret (Returned (runtime_error
                             ("数据库连接失败：" ++ exn_str e)))
        | None =>
            let enc := encoding_of excel_friendly in
            body <- with_block w sql fetch_size path enc ;;
            match body with
            | Raised e =>
                cleanup w path ;;;
                close_connection w ;;;
                ret (Returned (runtime_error (exn_str e)))
            | Returned n =>
                close_connection w ;;;
                ret (Returned
                       (if Nat.eqb n 0 then
                          {| ok := true; stage := "save";
                             status := "empty";
                             file_path := Some path;
                             rows_written := Some 0;
                             error_message := None;
                             message :=
                               "查询结果为空，已生成仅含表头的 CSV 文件。" |}
                        else
                          {| ok := true; stage := "save";
                             status := "success";
                             file_path := Some path;
                             rows_written := Some n;
                             error_message := None;
                             message :=
                               "保存成功，共写入 " ++ str_of_nat n
                                 ++ " 行。" |}))
            end
        end
    end.

End Exporter.

(* ================================================================= *)
(** ** Spec: notions the specification uses, in its own words *)

Module Spec.
Import Text Re Scanner.

Fixpoint all_chars (p : char -> bool) (s : string) : bool :=
  match s with
  | EmptyString => true
  | String c r => p c && all_chars p r
  end.

Definition space_or_paren (c : char) : bool := is_space c || lparen c.

(** [s] begins with the keyword [kw] (given in lower case), in any case:
    the letters of [kw], then no word character *)
Definition begins_with_keyword (kw s : string) : bool :=
  prefix kw (lower s)
  && negb (word_opt (String.get (String.length kw) s)).

(** the text begins, after optional white space and opening parentheses,
    with the keyword SELECT or WITH *)
Definition begins_with_select_or_with (sql : string) : bool :=
  let rest := lstrip_by space_or_paren sql in
  begins_with_keyword "select" rest || begins_with_keyword "with" rest.

(** *** Letters as [re.I] takes them

    The characters that count as the letter [a]: its two cases, and
    besides them the capital I with a dot (U+0130) and the dotless i
    (U+0131) for i, the long s (U+017F) for s, the Kelvin sign (U+212A)
    for k. *)
Definition spellings (a : char) : list N :=
  let lo := if is_upper a then (point a + 32)%N else point a in
  [lo; (lo - 32)%N]
  ++ (if N.eqb lo 105 then [304%N; 305%N]
      else if N.eqb lo 115 then [383%N]
      else if N.eqb lo 107 then [8490%N]
      else []).

(** [c] is the character [a] of a keyword, whatever its case *)
Definition same_letter (a c : char) : bool :=
  if is_upper a || is_lower a
  then existsb (N.eqb (point c)) (spellings a)
  else Char.eqb a c.

(** the code points of the letters A to Z and a to z *)
Definition letters : list N := map N.of_nat (seq 65 26 ++ seq 97 26).

(** what is checked of a letter against the tables: [re.I] takes each of
    its spellings, which are word characters, and takes nothing else *)
Definition letter_ok (n : N) : bool :=
  let a := Char n in
  let lo := point (lower_char a) in
  let spelling m := existsb (N.eqb m) (spellings a) in
  cased a
  && is_word a
  && forallb (fun m => matches_nocase a (Char m) && is_word (Char m))
       (spellings a)
  && forallb spelling (lo :: extras lo)
  && forallb (fun kv => implb (folds_to lo (snd kv)) (spelling (fst kv)))
       Ucd.lower_pairs.

(** [m] spells [w], letter by letter *)
Fixpoint spelled (w m : string) : bool :=
  match w, m with
  | EmptyString, EmptyString => true
  | String a w', String c m' => same_letter a c && spelled w' m'
  | _, _ => false
  end.

(** what follows [kw] at the head of [s], when [s] begins with a spelling
    of it *)
Fixpoint after_keyword (kw s : string) : option string :=
  match kw with
  | EmptyString => Some s
  | String a kw' =>
      match s with
      | String c r => if same_letter a c then after_keyword kw' r else None
      | EmptyString => None
      end
  end.

(** [s] begins with the keyword [kw] in one of its spellings, then no
    word character *)
Definition begins_with_spelling (kw s : string) : bool :=
  match after_keyword kw s with
  | Some rest => negb (word_opt (head rest))
  | None => false
  end.

(** the text begins, after optional white space and opening parentheses,
    with a spelling of SELECT or WITH *)
Definition begins_with_select_or_with_spelled (sql : string) : bool :=
  let rest := lstrip_by space_or_paren sql in
  begins_with_spelling "select" rest || begins_with_spelling "with" rest.

(** *** The lexical structure of a statement

    A statement seen as an SQL lexer sees it: stretches of code,
    comments and quoted literals. *)

Inductive segment : Type :=
| Code (text : string)
| DashComment (body : string)        (* -- body, up to the line's end *)
| HashComment (body : string)        (* # body, up to the line's end *)
| BlockComment (body : string)       (* /* body */ *)
| SingleQuoted (body : string)       (* 'body' *)
| DoubleQuoted (body : string).      (* the same between double quotes *)

Definition one (c : char) : string := String c EmptyString.

(** a segment once the first [k] scrubbing passes have met it: the
    passes replace, in this order, dash comments, hash comments and block
    comments by a space, then single-quoted and double-quoted literals by
    an empty literal *)
Definition render_after (k : nat) (seg : segment) : string :=
  match seg with
  | Code s => s
  | DashComment b => if Nat.leb 1 k then " " else "--" ++ b
  | HashComment b => if Nat.leb 2 k then " " else "#" ++ b
  | BlockComment b => if Nat.leb 3 k then " " else "/*" ++ b ++ "*/"
  | SingleQuoted b =>
      if Nat.leb 4 k then two squote_char
      else one squote_char ++ b ++ one squote_char
  | DoubleQuoted b =>
      if Nat.leb 5 k then two dquote_char
      else one dquote_char ++ b ++ one dquote_char
  end.

Fixpoint text_after (k : nat) (segs : list segment) : string :=
  match segs with
  | [] => EmptyString
  | seg :: rest => render_after k seg ++ text_after k rest
  end.

(** the statement as it is written *)
Definition render_all (segs : list segment) : string := text_after 0 segs.

(** the statement outside its comments and quoted literals: a comment
    leaves a space, a literal leaves its two quotes *)
Definition outside_all (segs : list segment) : string := text_after 5 segs.

Definition first_is (p : char -> bool) (s : string) : bool :=
  match s with String c _ => p c | EmptyString => false end.

Definition second_is (q : char -> bool) (s : string) : bool :=
  match s with String _ r => first_is q r | EmptyString => false end.

Fixpoint last_is (p : char -> bool) (s : string) : bool :=
  match s with
  | EmptyString => false
  | String c r =>
      match r with
      | EmptyString => p c
      | String _ _ => last_is p r
      end
  end.

(** no character [p] is followed by a character [q] *)
Fixpoint free2 (p q : char -> bool) (s : string) : bool :=
  match s with
  | EmptyString => true
  | String c r => negb (p c && first_is q r) && free2 p q r
  end.

(** the body of a literal quoted by [q]: no quote but after a backslash,
    and a backslash escapes a character that is not a newline *)
Fixpoint well_escaped (q : char -> bool) (s : string) : bool :=
  match s with
  | EmptyString => true
  | String c r =>
      if q c then false
      else if backslash c then
        match r with
        | String d r' => negb (is_newline d) && well_escaped q r'
        | EmptyString => false
        end
      else well_escaped q r
  end.

(** no comment marker: neither [--], nor [#], nor [/*] *)
Definition unmarked (s : string) : bool :=
  free2 dash dash s && negb (contains_char hash s) && free2 slash star s.

(** a segment is what a lexer would cut: code holds no quote and no
    comment marker, a line comment no newline, a block comment no [*/],
    a literal no quote of its own kind that is not escaped *)
Definition lexical_segment (seg : segment) : bool :=
  match seg with
  | Code s =>
      unmarked s && negb (contains_char squote s)
      && negb (contains_char dquote s)
  | DashComment b | HashComment b => negb (contains_char is_newline b)
  | BlockComment b => free2 star slash b
  | SingleQuoted b => well_escaped squote b
  | DoubleQuoted b => well_escaped dquote b
  end.

Definition is_line_comment (seg : segment) : bool :=
  match seg with
  | DashComment _ | HashComment _ => true
  | _ => false
  end.

(** what follows a line comment: nothing, or code that starts with the
    newline that ends the comment *)
Definition line_end (rest : list segment) : bool :=
  match rest with
  | [] => true
  | Code s :: _ => first_is is_newline s
  | _ => false
  end.

Fixpoint lexical (segs : list segment) : bool :=
  match segs with
  | [] => true
  | seg :: rest =>
      lexical_segment seg
      && (if is_line_comment seg then line_end rest else true)
      && lexical rest
  end.

(** the code [s] and the text [next] that follows it make a comment
    marker between them: a dash then a dash, or a slash then a star *)
Definition joins (s next : string) : bool :=
  (last_is dash s && first_is dash next)
  || (last_is slash s && first_is star next).

(** what the scrubbing passes need on top of that: no comment marker
    inside a literal, neither [--] nor [#] inside a block comment, no
    single quote inside a double-quoted literal, and no comment marker
    made of the end of a stretch of code and the start of what follows *)
Definition tame_segment (seg : segment) (next : string) : bool :=
  match seg with
  | Code s => negb (joins s next)
  | DashComment _ => true
  | HashComment _ => true
  | BlockComment b => free2 dash dash b && negb (contains_char hash b)
  | SingleQuoted b => unmarked b
  | DoubleQuoted b => unmarked b && negb (contains_char squote b)
  end.

Fixpoint tame (segs : list segment) : bool :=
  match segs with
  | [] => true
  | seg :: rest => tame_segment seg (render_all rest) && tame rest
  end.

(** the scrubbing passes leave the statement outside its comments and
    literals *)
Definition scrubbed_exactly (segs : list segment) : Prop :=
  _remove_comments_and_strings (render_all segs) = outside_all segs.

(** a segment once the dash pass has met it: the pass takes a [--] in
    the body of a hash comment for a comment of its own *)
Definition dashed (seg : segment) : segment :=
  match seg with
  | HashComment b => HashComment (sub line_comment_dash " " b)
  | _ => seg
  end.

(** the five passes of [_remove_comments_and_strings], one by one *)
Definition pass (k : nat) (s : string) : string :=
  match k with
  | 1 => sub line_comment_dash " " s
  | 2 => sub line_comment_hash " " s
  | 3 => sub block_comment " " s
  | 4 => sub (quoted squote) (two squote_char) s
  | 5 => sub (quoted dquote) (two dquote_char) s
  | _ => s
  end.

(** *** The denylist, as the keywords it names *)

Inductive phrase : Type :=
| Word (w : string)            (* the word [w] *)
| Words (w1 w2 : string)       (* [w1], white space, [w2] *)
| Call (f : string).           (* [f], optional white space, [(] *)

Definition denylist : list phrase :=
  [Word "INSERT"; Word "UPDATE"; Word "DELETE"; Word "REPLACE";
   Word "MERGE"; Word "ALTER"; Word "DROP"; Word "TRUNCATE";
   Word "CREATE"; Word "GRANT"; Word "REVOKE"; Word "SET"; Word "CALL";
   Word "EXEC"; Word "LOCK"; Word "UNLOCK"; Words "INTO" "OUTFILE";
   Words "LOAD" "DATA"; Call "LOAD_FILE"].

(** [w] occurs in [s] as a whole word, in any spelling: between a
    character that is not a word character (or the start) and another (or
    the end) *)
Definition whole_word (w s : string) : Prop :=
  exists a m b,
    s = (a ++ m ++ b)%string
    /\ spelled w m = true
    /\ last_is is_word a = false
    /\ first_is is_word b = false.

(** the phrase occurs in [s]: its words in any spelling, not inside a
    longer word *)
Definition occurs (ph : phrase) (s : string) : Prop :=
  match ph with
  | Word w => whole_word w s
  | Words w1 w2 =>
      exists a m1 g m2 b,
        s = (a ++ m1 ++ g ++ m2 ++ b)%string
        /\ spelled w1 m1 = true
        /\ g <> EmptyString
        /\ all_chars is_space g = true
        /\ spelled w2 m2 = true
        /\ last_is is_word a = false
        /\ first_is is_word b = false
  | Call f =>
      exists a m g b,
        s = (a ++ m ++ g ++ "(" ++ b)%string
        /\ spelled f m = true
        /\ all_chars is_space g = true
        /\ last_is is_word a = false
  end.

(** some denylisted keyword occurs in [s] *)
Definition denylisted (s : string) : Prop :=
  exists ph, In ph denylist /\ occurs ph s.

(** the pattern of FORBIDDEN_TOKENS that looks for a phrase *)
Definition pattern_of (ph : phrase) : pattern :=
  match ph with
  | Word w => [Boundary; Lit w; Boundary]
  | Words w1 w2 => [Boundary; Lit w1; Plus is_space; Lit w2; Boundary]
  | Call f => [Boundary; Lit f; Star is_space; Lit "("]
  end.

Definition is_empty_string (s : string) : bool :=
  match s with EmptyString => true | String _ _ => false end.

(** the words of a phrase are made of word characters, and are not
    empty *)
Definition proper_word (w : string) : bool :=
  negb (is_empty_string w) && all_chars is_word w.

Definition proper (ph : phrase) : bool :=
  match ph with
  | Word w | Call w => proper_word w
  | Words w1 w2 => proper_word w1 && proper_word w2
  end.

(** a matcher stays silent all along [t] when [rest] follows *)
Fixpoint quiet (m : matcher) (t rest : string) : Prop :=
  match t with
  | EmptyString => True
  | String c t' => m (String c (t' ++ rest)) = None /\ quiet m t' rest
  end.

End Spec.

(* ================================================================= *)
(** ** Samples: statements, snapshots and worlds used as test inputs *)

Module Samples.
Import Text Ast Resolver Py Env.
Local Open Scope Z_scope.

(** [SELECT id FROM orders AS o] *)
Definition select_id_from_aliased_orders : Expression :=
  Node Select
    [Node (Column "id" "") [Node Other []];
     Node Other [Node (Table "orders" "o") [Node Other []; Node Other []]]].

(** [SELECT id FROM orders] *)
Definition select_id_from_orders : Expression :=
  Node Select
    [Node (Column "id" "") [Node Other []];
     Node Other [Node (Table "orders" "") [Node Other []]]].

Definition orders_schema : schema := [("orders", ["id"; "amount"])].

(** [SELECT derived.x FROM (SELECT 1 AS x) AS derived] *)
Definition select_from_derived : Expression :=
  Node Select
    [Node (Column "x" "derived") [Node Other []; Node Other []];
     Node Other
       [Node (Subquery "derived")
          [Node Select [Node Other [Node Other []; Node Other []]];
           Node Other [Node Other []]]]].

(** [SELECT ghost.total FROM orders] *)
Definition select_ghost_prefix : Expression :=
  Node Select
    [Node (Column "total" "ghost") [Node Other []; Node Other []];
     Node Other [Node (Table "orders" "") [Node Other []]]].

(** [SELECT '#' AS tag INTO OUTFILE '/tmp/x' FROM t]: the keyword stands
    outside the two literals *)
Definition hash_in_literal : list Spec.segment :=
  [Spec.Code "SELECT "; Spec.SingleQuoted "#";
   Spec.Code " AS tag INTO OUTFILE "; Spec.SingleQuoted "/tmp/x";
   Spec.Code " FROM t"].

(** [SELECT "a'", 'DROP'] with a double-quoted literal that holds a
    single quote: the keyword only stands inside a literal *)
Definition quote_in_literal : list Spec.segment :=
  [Spec.Code "SELECT "; Spec.DoubleQuoted "a'"; Spec.Code ", ";
   Spec.SingleQuoted "DROP"].

(** a tame statement with a keyword in a literal and in each comment *)
Definition keywords_in_literal_and_comments : list Spec.segment :=
  [Spec.Code "SELECT "; Spec.SingleQuoted "DROP";
   Spec.Code " AS word FROM t "; Spec.BlockComment " delete later ";
   Spec.Code " WHERE a = "; Spec.DoubleQuoted "insert";
   Spec.Code " "; Spec.DashComment " update pending";
   Spec.Code (String newline " LIMIT 5 ");
   Spec.HashComment " truncate"].

(** [SELECT 1 -'2' AS d, 6 /'3' AS q FROM t # old -- delete], the second
    literal between double quotes: code that ends with a dash or a slash
    before a literal, and a hash comment that holds two dashes and a
    keyword *)
Definition markers_at_the_seams : list Spec.segment :=
  [Spec.Code "SELECT 1 -"; Spec.SingleQuoted "2";
   Spec.Code " AS d, 6 /"; Spec.DoubleQuoted "3";
   Spec.Code " AS q FROM t "; Spec.HashComment " old -- delete"].

(** a parse of a one-table query, and a snapshot with that table *)
Definition select_from_t : Expression :=
  Node Select
    [Node Other [Node Other []]; Node Other [Node (Table "t" "") []]].

Definition t_schema : schema := [("t", ["a"; "word"; "tag"])].

Definition start : state := {| fs := []; writes := 0; trace := [] |}.

(** a store that answers [execute] by [answer] and streams [batches];
    the sampler takes the first [k] positions *)
Definition world_of (answer : string -> outcome (list row))
    (columns : outcome (list string))
    (batches : list (outcome (list row)))
    (failing_write : nat -> option exn)
    (failing_remove : option exn) : World :=
  {| connect_error := None;
     cursor_error := None;
     execute := answer;
     description := fun _ => columns;
     fetchmany := fun _ _ => batches;
     close_error := None;
     int_of_text := fun _ =>
       Raised (exn_of "invalid literal for int() with base 10");
     sample := fun _ k => seq 0 k;
     makedirs_error := None;
     timestamp := "20250101_120000";
     uuid_hex8 := "0a1b2c3d";
     open_error := None;
     write_error := failing_write;
     flush_error := None;
     remove_error := failing_remove |}.

(** the world [w] when [random.sample] answers [d] *)
Definition with_draw (w : World) (d : list nat) : World :=
  {| connect_error := connect_error w;
     cursor_error := cursor_error w;
     execute := execute w;
     description := description w;
     fetchmany := fetchmany w;
     close_error := close_error w;
     int_of_text := int_of_text w;
     sample := fun _ _ => d;
     makedirs_error := makedirs_error w;
     timestamp := timestamp w;
     uuid_hex8 := uuid_hex8 w;
     open_error := open_error w;
     write_error := write_error w;
     flush_error := flush_error w;
     remove_error := remove_error w |}.

Definition row_a (n : Z) : row := [("a", VInt n)].

Definition three_rows : list row := [row_a 1; row_a 2; row_a 3].

Definition sql_t : string := "SELECT a FROM t".

(** a read-only statement that starts with a comment *)
Definition commented_select : string :=
  "-- top rows" ++ String newline "SELECT a FROM t".

(** SELECT written with a long s (U+017F), WITH written with a capital I
    with a dot (U+0130) *)
Definition long_s_select : string := "ſelect 1".

Definition dotted_with : string := "WİTH x AS (SELECT 1) SELECT 1".

(** the count probe fails, the preview returns three rows *)
Definition uncountable_world : World :=
  world_of
    (fun q =>
       if String.eqb q (Dynamic.count_sql sql_t)
       then Raised (exn_of "(1064, 'syntax error')")
       else Returned three_rows)
    (Returned ["a"]) [Returned three_rows] (fun _ => None) None.

(** every query returns no row; the count probe answers 0 *)
Definition empty_world : World :=
  world_of
    (fun q =>
       if String.eqb q (Dynamic.count_sql sql_t)
       then Returned [[("__cnt", VInt 0)]]
       else Returned [])
    (Returned ["a"]) [] (fun _ => None) None.

(** every query returns three rows *)
Definition three_rows_world : World :=
  world_of (fun _ => Returned three_rows)
    (Returned ["a"]) [Returned three_rows] (fun _ => None) None.

(** the second batch of the export fails; the removal works or not *)
Definition broken_stream_world (failing_remove : option exn) : World :=
  world_of (fun _ => Returned three_rows)
    (Returned ["a"])
    [Returned three_rows; Raised (exn_of "(2013, 'Lost connection')")]
    (fun _ => None) failing_remove.

End Samples.

(* ================================================================= *)
(** ** Snapshot: the loop of [_fetch_schema_snapshot]

    The rows of [information_schema.COLUMNS] come as pairs of a table name
    and a column name; the loop files each column under its table with
    [tables.setdefault(t, set()).add(c)]. *)

Module Snapshot.
Import Text Resolver.

(** [s.add(x)] on a set kept as a list without repetition *)
Definition set_add (x : string) (xs : list string) : list string :=
  if mem x xs then xs else xs ++ [x].

(** [tables.setdefault(t, set()).add(c)] *)
Definition setdefault_add (tables : schema) (t c : string) : schema :=
  match dict_get t tables with
  | Some cols => dict_set t (set_add c cols) tables
  | None => dict_set t [c] tables
  end.

Definition snapshot_of_rows (rows : list (string * string)) : schema :=
  fold_left (fun tables r => setdefault_add tables (fst r) (snd r)) rows [].

End Snapshot.

(* ================================================================= *)
(** ** Config: [load_mysql_config]

    The [.env] file comes as the lines its iteration yields, or not at all
    when the path does not exist; [int] is Python's conversion of a text to
    an integer, which may raise. *)

Module Config.
Import Text Py.

Record settings : Type :=
  { host : option string;
    port : option Z;
    user : option string;
    password : option string;
    database : option string;
    charset : option string }.

Record mysql_config : Type :=
  { cfg_host : string;
    cfg_port : Z;
    cfg_user : string;
    cfg_password : string;
    cfg_database : string;
    cfg_charset : string }.

Definition unset : settings :=
  {| host := None; port := None; user := None; password := None;
     database := None; charset := None |}.

Definition is_equals (c : char) : bool := Nat.eqb (code c) 61.
Definition is_hash (c : char) : bool := Nat.eqb (code c) 35.

(** [line.split("=", 1)] when ["=" in line]: the text before the first
    equals sign and the text after it *)
Fixpoint split_once (line : string) : option (string * string) :=
  match line with
  | EmptyString => None
  | String c r =>
      if is_equals c then Some (EmptyString, r)
      else
        match split_once r with
        | Some (k, v) => Some (String c k, v)
        | None => None
        end
  end.

Definition starts_with_hash (line : string) : bool :=
  match line with String c _ => is_hash c | EmptyString => false end.

Section Load.
Variable int : string -> outcome Z.

(** the [if key == ...: ... elif ...] chain *)
Definition assign (cfg : settings) (key value : string) : outcome settings :=
  if String.eqb key "MYSQL_HOST" then
    Returned {| host := Some value; port := port cfg; user := user cfg;
                password := password cfg; database := database cfg;
                charset := charset cfg |}
  else if String.eqb key "MYSQL_PORT" then
    match int value with
    | Raised e => Raised e
    | Returned n =>
        Returned {| host := host cfg; port := Some n; user := user cfg;
                    password := password cfg; database := database cfg;
                    charset := charset cfg |}
    end
  else if String.eqb key "MYSQL_USER" then
    Returned {| host := host cfg; port := port cfg; user := Some value;
                password := password cfg; database := database cfg;
                charset := charset cfg |}
  else if String.eqb key "MYSQL_PASSWORD" then
    Returned {| host := host cfg; port := port cfg; user := user cfg;
                password := Some value; database := database cfg;
                charset := charset cfg |}
  else if String.eqb key "MYSQL_DB" then
    Returned {| host := host cfg; port := port cfg; user := user cfg;
                password := password cfg; database := Some value;
                charset := charset cfg |}
  else if String.eqb key "MYSQL_CHARSET" then
    Returned {| host := host cfg; port := port cfg; user := user cfg;
                password := password cfg; database := database cfg;
                charset := Some value |}
  else Returned cfg.

(** one turn of [for line in f] *)
Definition read_line (cfg : settings) (line : string) : outcome settings :=
  let line := strip line in
  if String.eqb line "" || starts_with_hash line then Returned cfg
  else
    match split_once line with
    | None => Returned cfg
    | Some (key, value) => assign cfg (strip key) (strip value)
    end.

Fixpoint read_lines (cfg : settings) (lines : list string)
  : outcome settings :=
  match lines with
  | [] => Returned cfg
  | line :: rest =>
      match read_line cfg line with
      | Raised e => Raised e
      | Returned cfg' => read_lines cfg' rest
      end
  end.

Definition is_none {A} (o : option A) : bool :=
  match o with None => true | Some _ => false end.

(** [[k for k, v in config.items() if v is None]] *)
Definition missing (cfg : settings) : list string :=
  (if is_none (host cfg) then ["host"] else [])
  ++ (if is_none (port cfg) then ["port"] else [])
  ++ (if is_none (user cfg) then ["user"] else [])
  ++ (if is_none (password cfg) then ["password"] else [])
  ++ (if is_none (database cfg) then ["database"] else [])
  ++ (if is_none (charset cfg) then ["charset"] else []).

(** the text of a list of strings, as [str] prints it *)
Definition list_repr (xs : list string) : string :=
  ("[" ++ join ", " (map (fun x => "'" ++ x ++ "'") xs) ++ "]")%string.

Definition load_mysql_config (env_path : string)
    (file : option (list string)) : outcome mysql_config :=
  match file with
  | None => Raised (exn_of (".env 文件不存在: " ++ env_path)%string)
  | Some lines =>
      match read_lines unset lines with
      | Raised e => Raised e
      | Returned cfg =>
          match host cfg, port cfg, user cfg, password cfg, database cfg,
                charset cfg with
          | Some h, Some p, Some u, Some pw, Some d, Some c =>
              Returned {| cfg_host := h; cfg_port := p; cfg_user := u;
                          cfg_password := pw; cfg_database := d;
                          cfg_charset := c |}
          | _, _, _, _, _, _ =>
              Raised (exn_of (".env 缺少必要配置: "
                              ++ list_repr (missing cfg))%string)
          end
      end
  end.

End Load.

End Config.

(* ================================================================= *)
(** ** Notions used to state further properties *)

Module Notions.
Import Text Re Scanner Spec Py Env Resolver.

(** the number of characters of [s] that satisfy [p] *)
Fixpoint count_char (p : char -> bool) (s : string) : nat :=
  match s with
  | EmptyString => 0
  | String c r => (if p c then 1 else 0) + count_char p r
  end.

(** the rows the export loop receives: the batches up to the first empty
    one *)
Fixpoint received (answers : list (outcome (list row))) : list row :=
  match answers with
  | Returned (r :: batch) :: later => (r :: batch) ++ received later
  | _ => []
  end.

(** no fetch raises before the loop stops *)
Fixpoint fetches_well (answers : list (outcome (list row))) : Prop :=
  match answers with
  | [] => True
  | Raised _ :: _ => False
  | Returned [] :: _ => True
  | Returned _ :: later => fetches_well later
  end.

(** the record [writer.writerow] gets for a row *)
Definition project (colnames : list string) (r : row)
  : list (option value) :=
  map (fun col => row_get col r) colnames.

Definition header (colnames : list string) : list (list (option value)) :=
  match colnames with
  | [] => []
  | _ => [map (fun c => Some (VStr c)) colnames]
  end.

Definition is_execute (e : event) : bool :=
  match e with Execute _ => true | _ => false end.

(** events that neither run a query nor open or close a connection *)
Definition calm (e : event) : Prop :=
  match e with
  | Execute _ | Connect | CloseConnection => False
  | _ => True
  end.

(** [st'] differs from [st] at most in the file [path], and by calm
    events *)
Definition touches (path : string) (st st' : state) : Prop :=
  (forall p, p <> path -> dict_get p (fs st') = dict_get p (fs st))
  /\ exists evs, trace st' = (trace st ++ evs)%list /\ Forall calm evs.

(** as [touches], with the statement [sql] executed at most once *)
Definition runs_once (path sql : string) (st st' : state) : Prop :=
  (forall p, p <> path -> dict_get p (fs st') = dict_get p (fs st))
  /\ exists evs,
       trace st' = (trace st ++ evs)%list
       /\ (Forall calm evs
           \/ exists before after,
                evs = (before ++ Execute sql :: after)%list
                /\ Forall calm before /\ Forall calm after).

(** a string of [k] semicolons *)
Fixpoint semicolons (k : nat) : string :=
  match k with
  | O => EmptyString
  | S k' => String ";" (semicolons k')
  end.

End Notions.

(* ================================================================= *)
(** ** Further statements and inputs used as examples *)

Module Cases.
Import Text Ast Resolver Py Env Samples.
Local Open Scope string_scope.

(** [SELECT 'a;b' AS x FROM t /* one; two */ -- end;]: three semicolons,
    each inside a literal or a comment *)
Definition semicolons_inside : list Spec.segment :=
  [Spec.Code "SELECT "; Spec.SingleQuoted "a;b";
   Spec.Code " AS x FROM t "; Spec.BlockComment " one; two ";
   Spec.Code " "; Spec.DashComment " end;"].

Definition two_statements : string := "SELECT 1; SELECT 2;".

(** a statement whose closing semicolon is followed by a newline *)
Definition semicolon_then_newline : string :=
  "SELECT a FROM t;" ++ String newline "".

(** a snapshot that spells its table with a capital *)
Definition capital_schema : schema := [("Orders", ["id"; "amount"])].

End Cases.

(* ================================================================= *)
(** ** Notions about the settings file *)

Module Envfile.
Import Text Py Config Spec.
Local Open Scope string_scope.

(** without white space at either end *)
Definition trimmed (s : string) : Prop :=
  first_is is_space s = false /\ last_is is_space s = false.

(** the six lines that state the settings [c], the port as [port_text] *)
Definition env_lines (c : mysql_config) (port_text : string) : list string :=
  ["MYSQL_HOST=" ++ cfg_host c;
   "MYSQL_PORT=" ++ port_text;
   "MYSQL_USER=" ++ cfg_user c;
   "MYSQL_PASSWORD=" ++ cfg_password c;
   "MYSQL_DB=" ++ cfg_database c;
   "MYSQL_CHARSET=" ++ cfg_charset c].

(** the key of the file and the key of the dictionary it sets *)
Definition settings_keys : list (string * string) :=
  [("MYSQL_HOST", "host"); ("MYSQL_PORT", "port"); ("MYSQL_USER", "user");
   ("MYSQL_PASSWORD", "password"); ("MYSQL_DB", "database");
   ("MYSQL_CHARSET", "charset")].

(** [int] on the one text the examples use *)
Definition int_3306 (text : string) : outcome Z :=
  if String.eqb text "3306" then Returned 3306%Z
  else Raised (exn_of "invalid literal for int() with base 10").

(** a local store with an empty password *)
Definition local_shop : mysql_config :=
  {| cfg_host := "localhost"; cfg_port := 3306%Z; cfg_user := "root";
     cfg_password := ""; cfg_database := "shop";
     cfg_charset := "utf8mb4" |}.

End Envfile.

(* ================================================================= *)
(** * Properties *)

(* ================================================================= *)
(** ** Characters and strings *)

Module Chars.
Import Text.

Lemma char_eqb_spec : forall a b : char, reflect (a = b) (Char.eqb a b).
Proof.
  intros [m] [n]. unfold Char.eqb. cbn [point].
  destruct (N.eqb_spec m n) as [->|Hne]; constructor.
  - reflexivity.
  - intros H. injection H as ->. now apply Hne.
Qed.

Lemma char_eqb_refl : forall a : char, Char.eqb a a = true.
Proof. intros [n]. apply N.eqb_refl. Qed.

Lemma code_inj : forall a b : char, code a = code b -> a = b.
Proof.
  intros [m] [n] H. unfold code in H. cbn [point] in H.
  apply N2Nat.inj in H. now subst.
Qed.

(** a character known by its code *)
Lemma is_code :
  forall (c : char) n, Nat.eqb (code c) n = true -> c = Char (N.of_nat n).
Proof.
  intros c n H. apply Nat.eqb_eq in H. apply code_inj.
  unfold code. cbn [point]. now rewrite Nat2N.id.
Qed.

Lemma assoc_in :
  forall (V : Type) n (pairs : list (N * V)) v,
    assoc n pairs = Some v -> In (n, v) pairs.
Proof.
  induction pairs as [|[k w] pairs IH]; intros v H; cbn [assoc] in H;
    [discriminate|].
  destruct (N.eqb_spec n k) as [->|_].
  - injection H as ->. now left.
  - right. now apply IH.
Qed.

(** white space is one of the 29 code points *)
Lemma space_cases :
  forall c, is_space c = true -> In (point c) Ucd.white_space.
Proof.
  intros c H. unfold is_space in H. apply existsb_exists in H.
  destruct H as [n [Hin Hn]]. apply N.eqb_eq in Hn. now subst.
Qed.

(** what holds of every code point of a list holds of a member *)
Lemma checked :
  forall (A : Type) (check : A -> bool) (xs : list A) x,
    forallb check xs = true -> In x xs -> check x = true.
Proof.
  intros A check xs x H Hin. rewrite forallb_forall in H. now apply H.
Qed.

(** the lower-case mapping: a code point that has one is in the table *)
Lemma lower_char_cases :
  forall c,
    (assoc (point c) Ucd.lower_pairs = None /\ lower_char c = c)
    \/ exists v, In (point c, v) Ucd.lower_pairs /\ lower_char c = Char v.
Proof.
  intros c. unfold lower_char.
  destruct (assoc (point c) Ucd.lower_pairs) as [v|] eqn:E.
  - right. exists v. split; [now apply assoc_in | reflexivity].
  - left. now split.
Qed.

Lemma lower_pairs_ok : forallb lower_pair_ok Ucd.lower_pairs = true.
Proof. vm_compute. reflexivity. Qed.

Lemma lower_pair_facts :
  forall k v,
    In (k, v) Ucd.lower_pairs ->
    assoc v Ucd.lower_pairs = None
    /\ is_word (Char k) = is_word (Char v)
    /\ is_space (Char k) = false
    /\ is_space (Char v) = false.
Proof.
  intros k v Hin.
  pose proof (checked _ _ _ _ lower_pairs_ok Hin) as H.
  unfold lower_pair_ok in H. cbn [fst snd] in H.
  apply andb_true_iff in H. destruct H as [H H4].
  apply andb_true_iff in H. destruct H as [H H3].
  apply andb_true_iff in H. destruct H as [H1 H2].
  apply negb_true_iff in H3, H4. apply eqb_prop in H2.
  destruct (assoc v Ucd.lower_pairs); [discriminate|]. auto.
Qed.

Lemma lower_char_idempotent :
  forall c, lower_char (lower_char c) = lower_char c.
Proof.
  intros c. destruct (lower_char_cases c) as [[_ H]|[v [Hin ->]]].
  - now rewrite !H.
  - destruct (lower_pair_facts _ _ Hin) as [H _].
    unfold lower_char. cbn [point]. now rewrite H.
Qed.

Lemma lower_char_word : forall c, is_word (lower_char c) = is_word c.
Proof.
  intros [n]. destruct (lower_char_cases (Char n)) as [[_ ->]|[v [Hin ->]]];
    [reflexivity|].
  cbn [point] in Hin. symmetry. apply (lower_pair_facts _ _ Hin).
Qed.

(** what holds of the 29 code points holds of white space *)
Lemma space_checked :
  forall (check : N -> bool),
    forallb check Ucd.white_space = true ->
    forall c, is_space c = true -> check (point c) = true.
Proof.
  intros check Hall c H. apply (checked _ _ _ _ Hall).
  now apply space_cases.
Qed.

Lemma space_not_word : forall c, is_space c = true -> is_word c = false.
Proof.
  intros [n] H. apply negb_true_iff.
  refine (space_checked (fun m => negb (is_word (Char m))) _ (Char n) H).
  vm_compute. reflexivity.
Qed.

(** white space is none of the characters the gateway looks for *)
Lemma space_not_code :
  forall n c,
    existsb (N.eqb (N.of_nat n)) Ucd.white_space = false ->
    is_space c = true -> Nat.eqb (code c) n = false.
Proof.
  intros n c Hn H. destruct (Nat.eqb (code c) n) eqn:E; [|reflexivity].
  apply is_code in E. subst c. unfold is_space in H. cbn [point] in H.
  congruence.
Qed.

Lemma lower_char_is_space : forall c, is_space (lower_char c) = is_space c.
Proof.
  intros [n]. destruct (lower_char_cases (Char n)) as [[_ ->]|[v [Hin ->]]];
    [reflexivity|].
  cbn [point] in Hin. destruct (lower_pair_facts _ _ Hin) as [_ [_ [-> ->]]].
  reflexivity.
Qed.

End Chars.

Module Strings.
Import Text Spec.

Lemma eqb_spec : forall a b : string, reflect (a = b) (String.eqb a b).
Proof.
  induction a as [|c a IH]; intros [|d b]; cbn [String.eqb];
    try (constructor; congruence).
  destruct (Chars.char_eqb_spec c d) as [->|Hne]; cbn [andb].
  - destruct (IH b) as [->|Hne]; constructor; congruence.
  - constructor. congruence.
Qed.

Lemma eqb_refl : forall a : string, String.eqb a a = true.
Proof. intros a. now destruct (eqb_spec a a). Qed.

Lemma eqb_eq : forall a b : string, String.eqb a b = true <-> a = b.
Proof.
  intros a b. destruct (eqb_spec a b); split; congruence.
Qed.

Lemma eqb_neq : forall a b : string, String.eqb a b = false <-> a <> b.
Proof.
  intros a b. destruct (eqb_spec a b); split; congruence.
Qed.

Lemma compare_antisym :
  forall a b : string, String.compare a b = CompOpp (String.compare b a).
Proof.
  induction a as [|c a IH]; intros [|d b]; cbn [String.compare];
    try reflexivity.
  unfold Char.compare. rewrite (N.compare_antisym (point c) (point d)).
  destruct (N.compare (point c) (point d)); cbn [CompOpp];
    [apply IH | reflexivity | reflexivity].
Qed.

Lemma leb_total :
  forall a b : string, String.leb a b = true \/ String.leb b a = true.
Proof.
  intros a b. unfold String.leb. rewrite (compare_antisym b a).
  destruct (String.compare a b); cbn [CompOpp]; auto.
Qed.

(** *** [str.lower()] leaves its results as they are *)

(** a character without a lower-case mapping of its own *)
Local Abbreviation settled :=
  (fun c : char =>
     match assoc (point c) Ucd.lower_pairs with
     | None => true
     | Some _ => false
     end).

Lemma settled_lower_char : forall c, settled (lower_char c) = true.
Proof.
  intros c. cbv beta.
  destruct (Chars.lower_char_cases c) as [[H ->]|[v [Hin ->]]].
  - now rewrite H.
  - cbn [point]. now rewrite (proj1 (Chars.lower_pair_facts _ _ Hin)).
Qed.

Lemma lower_from_settled :
  forall s b, all_chars settled (lower_from b s) = true.
Proof.
  induction s as [|c s IH]; intros b; [reflexivity|].
  cbn [lower_from]. destruct (N.eqb (point c) 931).
  - cbn [append all_chars]. rewrite IH. unfold sigma.
    destruct (b && negb (cased_follows s)); vm_compute; reflexivity.
  - unfold lower_points. destruct (N.eqb (point c) 304).
    + cbn [append all_chars]. rewrite IH. vm_compute. reflexivity.
    + cbn [append all_chars]. rewrite IH.
      now rewrite (settled_lower_char c).
Qed.

Lemma lower_from_fixed :
  forall t b, all_chars settled t = true -> lower_from b t = t.
Proof.
  induction t as [|c t IH]; intros b H; [reflexivity|].
  cbn [all_chars] in H. apply andb_true_iff in H. destruct H as [Hc H].
  cbv beta in Hc. cbn [lower_from].
  destruct (N.eqb_spec (point c) 931) as [E|_].
  { rewrite E in Hc. vm_compute in Hc. discriminate. }
  unfold lower_points.
  destruct (N.eqb_spec (point c) 304) as [E|_].
  { rewrite E in Hc. vm_compute in Hc. discriminate. }
  unfold lower_char.
  destruct (assoc (point c) Ucd.lower_pairs); [discriminate|].
  cbn [append]. now rewrite IH.
Qed.

Lemma lower_lower : forall s, lower (lower s) = lower s.
Proof.
  intros s. unfold lower. apply lower_from_fixed, lower_from_settled.
Qed.

End Strings.

(* ================================================================= *)
(** ** Letters in any case *)

Module LetterFacts.
Import Text Re Spec.

Lemma cased_is_letter : forall a, cased a = true -> In (point a) letters.
Proof.
  intros [n] H. unfold cased, is_upper, is_lower, between, code in H.
  cbn [point] in *. rewrite <- (N2Nat.id n). unfold letters.
  apply in_map. apply in_or_app.
  apply orb_true_iff in H. destruct H as [H|H];
    apply andb_true_iff in H; destruct H as [H1 H2];
    apply Nat.leb_le in H1, H2; [left | right]; apply in_seq; lia.
Qed.

Lemma letters_ok : forallb letter_ok letters = true.
Proof. vm_compute. reflexivity. Qed.

Lemma letter_facts :
  forall a,
    cased a = true ->
    is_word a = true
    /\ (forall m, In m (spellings a) ->
                  matches_nocase a (Char m) = true
                  /\ is_word (Char m) = true)
    /\ (forall m, In m (point (lower_char a) :: extras (point (lower_char a))) ->
                  In m (spellings a))
    /\ (forall k v, In (k, v) Ucd.lower_pairs ->
                    folds_to (point (lower_char a)) v = true ->
                    In k (spellings a)).
Proof.
  intros [n] Hc. apply cased_is_letter in Hc. cbn [point] in Hc.
  pose proof (Chars.checked _ _ _ _ letters_ok Hc) as H.
  unfold letter_ok in H.
  apply andb_true_iff in H. destruct H as [H H5].
  apply andb_true_iff in H. destruct H as [H H4].
  apply andb_true_iff in H. destruct H as [H H3].
  apply andb_true_iff in H. destruct H as [_ H2].
  rewrite forallb_forall in H3, H4, H5.
  split; [exact H2|]. split; [|split].
  - intros m Hm. apply andb_true_iff. now apply H3.
  - intros m Hm. specialize (H4 m Hm). apply existsb_exists in H4.
    destruct H4 as [x [Hx E]]. apply N.eqb_eq in E. now subst.
  - intros k v Hin Hf. specialize (H5 (k, v) Hin). cbn [fst snd] in H5.
    rewrite Hf in H5. cbn [implb] in H5. apply existsb_exists in H5.
    destruct H5 as [x [Hx E]]. apply N.eqb_eq in E. now subst.
Qed.

Lemma folds_to_in :
  forall lo l, folds_to lo l = true -> In l (lo :: extras lo).
Proof.
  intros lo l H. unfold folds_to in H. apply orb_true_iff in H.
  destruct H as [H|H].
  - apply N.eqb_eq in H. now left.
  - right. apply existsb_exists in H. destruct H as [x [Hx E]].
    apply N.eqb_eq in E. now subst.
Qed.

(** under [re.I] a letter of a pattern takes its spellings and nothing
    else, and any other character of a pattern only itself *)
Lemma nocase_same_letter :
  forall a c, matches_nocase a c = same_letter a c.
Proof.
  intros a c. unfold matches_nocase, same_letter.
  change (is_upper a || is_lower a) with (cased a).
  destruct (cased a) eqn:Hc; [|reflexivity].
  destruct (letter_facts a Hc) as [_ [H1 [H2 H3]]].
  destruct (existsb (N.eqb (point c)) (spellings a)) eqn:Hs.
  - apply existsb_exists in Hs. destruct Hs as [m [Hm E]].
    apply N.eqb_eq in E. subst m. destruct (H1 _ Hm) as [H _].
    unfold matches_nocase in H. rewrite Hc in H. now destruct c.
  - destruct (folds_to _ _) eqn:Hf; [|reflexivity].
    assert (Hin : In (point c) (spellings a)).
    { destruct (Chars.lower_char_cases c) as [[_ E]|[v [Hin E]]];
        rewrite E in Hf.
      - apply H2. now apply folds_to_in.
      - cbn [point] in Hf. exact (H3 _ _ Hin Hf). }
    assert (Hs' : existsb (N.eqb (point c)) (spellings a) = true)
      by (apply existsb_exists; exists (point c); split;
          [exact Hin | apply N.eqb_refl]).
    congruence.
Qed.

(** a spelling of a word character is a word character *)
Lemma same_letter_word :
  forall a c, same_letter a c = true -> is_word c = is_word a.
Proof.
  intros a c H. unfold same_letter in H.
  change (is_upper a || is_lower a) with (cased a) in H.
  destruct (cased a) eqn:Hc.
  - destruct (letter_facts a Hc) as [Ha [H1 _]]. rewrite Ha.
    apply existsb_exists in H. destruct H as [m [Hm E]].
    apply N.eqb_eq in E. subst m. destruct (H1 _ Hm) as [_ H].
    now destruct c.
  - destruct (Chars.char_eqb_spec a c); [now subst | discriminate].
Qed.

Lemma same_letter_refl : forall a, same_letter a a = true.
Proof.
  intros a. unfold same_letter.
  change (is_upper a || is_lower a) with (cased a).
  destruct (cased a) eqn:Hc; [|apply Chars.char_eqb_refl].
  apply existsb_exists. exists (point a). split; [|apply N.eqb_refl].
  destruct a as [n]. unfold cased, is_upper, is_lower, between, code in Hc.
  unfold spellings, is_upper, between, code. cbn [point] in *.
  destruct (Nat.leb 65 (N.to_nat n) && Nat.leb (N.to_nat n) 90) eqn:Hu.
  - right. left. lia.
  - now left.
Qed.

Lemma spelled_refl : forall w, spelled w w = true.
Proof.
  induction w as [|a w IH]; [reflexivity|]. cbn [spelled].
  now rewrite same_letter_refl, IH.
Qed.

Lemma spelled_word :
  forall w m,
    spelled w m = true -> all_chars is_word w = true ->
    all_chars is_word m = true.
Proof.
  induction w as [|a w IH]; intros [|c m] H Hw;
    cbn [spelled all_chars] in *; try discriminate; [reflexivity|].
  apply andb_true_iff in H. destruct H as [Hc H].
  apply andb_true_iff in Hw. destruct Hw as [Ha Hw].
  rewrite (same_letter_word _ _ Hc), Ha. now apply IH.
Qed.

Lemma spelled_not_empty :
  forall w m, spelled w m = true -> w <> "" -> m <> "".
Proof. intros [|a w] [|c m] H Hw; cbn [spelled] in *; congruence. Qed.

Lemma last_or_word :
  forall w a c,
    is_word a = is_word c ->
    word_opt (last_or (Some a) w) = word_opt (last_or (Some c) w).
Proof. destruct w; simpl; auto. Qed.

(** [eat] consumes a spelling of the word *)
Lemma eat_split :
  forall w prev s p r,
    eat w prev s = Some (p, r) ->
    exists m,
      s = (m ++ r)%string /\ spelled w m = true /\ p = last_or prev m.
Proof.
  induction w as [|a w IH]; intros prev s p r H; cbn [eat] in H.
  - injection H as <- <-. exists "". auto.
  - destruct s as [|c s]; [discriminate|].
    rewrite nocase_same_letter in H.
    destruct (same_letter a c) eqn:Hc; [|discriminate].
    destruct (IH _ _ _ _ H) as [m [-> [Hm ->]]].
    exists (String c m). cbn [append spelled last_or].
    now rewrite Hc, Hm.
Qed.

Lemma eat_complete :
  forall w m prev r,
    spelled w m = true ->
    eat w prev (m ++ r)%string = Some (last_or prev m, r).
Proof.
  induction w as [|a w IH]; intros [|c m] prev r H; cbn in H;
    try discriminate; [reflexivity|].
  apply andb_true_iff in H. destruct H as [Hc H].
  cbn [append eat last_or]. rewrite nocase_same_letter, Hc.
  now apply IH.
Qed.

Lemma eat_after :
  forall w prev s p r,
    eat w prev s = Some (p, r) ->
    after_keyword w s = Some r
    /\ word_opt p = word_opt (last_or prev w).
Proof.
  induction w as [|a w IH]; intros prev s p r H; cbn [eat] in H.
  - injection H as <- <-. auto.
  - destruct s as [|c s]; [discriminate|].
    rewrite nocase_same_letter in H. cbn [after_keyword last_or].
    destruct (same_letter a c) eqn:Hc; [|discriminate].
    destruct (IH _ _ _ _ H) as [Hafter Hlast].
    split; [exact Hafter|]. rewrite Hlast. apply last_or_word.
    now apply same_letter_word.
Qed.

End LetterFacts.

(* ================================================================= *)
(** ** The tree walk reaches every node *)

Module AstFacts.
Import Ast.

Lemma reaches_below_height :
  forall root d e, reaches root d e -> d < height root.
Proof.
  induction 1 as [[k args]|k args a d e Hin _ IH]; simpl.
  - lia.
  - assert (height a <= list_max (map height args)).
    { clear IH. induction args as [|x xs IHxs]; simpl in *.
      - contradiction.
      - destruct Hin as [->|Hin]; [lia|].
        specialize (IHxs Hin). lia. }
    lia.
Qed.

Lemma level_reaches :
  forall root d e, reaches root d e ->
  forall anc, exists anc', In (kind_of e, anc') (level d anc root).
Proof.
  induction 1 as [[k args]|k args a d e Hin _ IH]; intros anc; simpl.
  - exists anc. now left.
  - destruct (IH (k :: anc)) as [anc' Hanc'].
    exists anc'. apply in_flat_map. now exists a.
Qed.

Lemma walk_reaches :
  forall root d e, reaches root d e ->
  exists anc, In (kind_of e, anc) (walk root).
Proof.
  intros root d e H.
  destruct (level_reaches _ _ _ H []) as [anc Hanc].
  exists anc. unfold walk. apply in_flat_map.
  exists d. split; [|exact Hanc].
  apply in_seq. pose proof (reaches_below_height _ _ _ H). lia.
Qed.

Lemma find_all_subqueries_reaches :
  forall root d a args,
    reaches root d (Node (Subquery a) args) ->
    In a (find_all_subqueries root).
Proof.
  intros root d a args H.
  destruct (walk_reaches _ _ _ H) as [anc Hanc].
  unfold find_all_subqueries. apply in_flat_map.
  exists (Subquery a, anc). split; [exact Hanc|]. simpl. now left.
Qed.

Lemma find_all_ctes_reaches :
  forall root d a args,
    reaches root d (Node (CTE a) args) ->
    In a (find_all_ctes root).
Proof.
  intros root d a args H.
  destruct (walk_reaches _ _ _ H) as [anc Hanc].
  unfold find_all_ctes. apply in_flat_map.
  exists (CTE a, anc). split; [exact Hanc|]. simpl. now left.
Qed.

Lemma find_all_columns_reaches :
  forall root d n t args,
    reaches root d (Node (Column n t) args) ->
    exists anc,
      In {| col_name := n; col_table := t; col_ancestors := anc |}
         (find_all_columns root).
Proof.
  intros root d n t args H.
  destruct (walk_reaches _ _ _ H) as [anc Hanc].
  exists anc. unfold find_all_columns. apply in_flat_map.
  exists (Column n t, anc). split; [exact Hanc|]. simpl. now left.
Qed.

End AstFacts.

(* ================================================================= *)
(** ** The name resolver *)

Module ResolverFacts.
Import Text Ast Resolver AstFacts.

Lemma lower_empty : forall s, lower s = "" -> s = "".
Proof.
  intros [|c s] H; [reflexivity|]. unfold lower in H. cbn [lower_from] in H.
  unfold lower_points in H.
  destruct (N.eqb (point c) 931); [discriminate|].
  destruct (N.eqb (point c) 304); discriminate.
Qed.

Lemma mem_In : forall x xs, mem x xs = true <-> In x xs.
Proof.
  intros x xs. unfold mem. rewrite existsb_exists. split.
  - intros [y [Hy Heq]]. apply Strings.eqb_eq in Heq. now subst.
  - intros H. exists x. split; [exact H | apply Strings.eqb_refl].
Qed.

Section Loop.
Variable schema_tables : schema.
Variable real_aliases : dict string.
Variable derived_aliases : list string.

Local Abbreviation step :=
  (check_column schema_tables real_aliases derived_aliases).
Local Abbreviation adds :=
  (contribution schema_tables real_aliases derived_aliases).

(** a turn of the loop only appends *)
Lemma check_column_appends :
  forall mc ac col,
    step (mc, ac) col = (mc ++ fst (adds col), ac ++ snd (adds col)).
Proof.
  intros mc ac col.
  unfold contribution, check_column.
  repeat match goal with
         | |- context [if ?b then _ else _] => destruct b
         | |- context [match ?o with Some _ => _ | None => _ end] =>
             destruct o
         end; simpl; rewrite ?app_nil_r; reflexivity.
Qed.

Lemma fold_check_column :
  forall cols mc ac,
    fold_left step cols (mc, ac)
    = (mc ++ flat_map (fun c => fst (adds c)) cols,
       ac ++ flat_map (fun c => snd (adds c)) cols).
Proof.
  induction cols as [|c cols IH]; intros mc ac; cbn [fold_left flat_map].
  - now rewrite !app_nil_r.
  - rewrite check_column_appends, IH, <- !app_assoc. reflexivity.
Qed.

(** a missing column names the reference it comes from *)
Lemma missing_of_contribution :
  forall col m,
    In m (fst (adds col)) ->
    mc_column m = lower (col_name col)
    /\ mc_context m = clause_of (col_ancestors col).
Proof.
  intros col m. unfold contribution, check_column.
  repeat match goal with
         | |- context [if ?b then _ else _] => destruct b
         | |- context [match ?o with Some _ => _ | None => _ end] =>
             destruct o
         end; simpl; intros H;
    repeat match goal with
           | H : _ \/ _ |- _ => destruct H
           | H : False |- _ => contradiction
           end; subst; simpl; auto.
Qed.

Lemma ambiguous_of_contribution :
  forall col a,
    In a (snd (adds col)) ->
    ac_column a = lower (col_name col)
    /\ ac_context a = clause_of (col_ancestors col).
Proof.
  intros col a. unfold contribution, check_column.
  repeat match goal with
         | |- context [if ?b then _ else _] => destruct b
         | |- context [match ?o with Some _ => _ | None => _ end] =>
             destruct o
         end; simpl; intros H;
    repeat match goal with
           | H : _ \/ _ |- _ => destruct H
           | H : False |- _ => contradiction
           end; subst; simpl; auto.
Qed.

(** a reference whose prefix is a derived alias adds nothing *)
Lemma derived_prefix_skipped :
  forall acc col,
    col_table col <> "" ->
    mem (lower (col_table col)) derived_aliases = true ->
    step acc col = acc.
Proof.
  intros [mc ac] col Hprefix Hderived.
  unfold check_column. rewrite Hderived.
  destruct (String.eqb (lower (col_name col)) ""); [reflexivity|].
  destruct (Strings.eqb_spec (col_table col) ""); [contradiction|].
  reflexivity.
Qed.

(** a reference whose prefix is unknown adds nothing *)
Lemma unknown_prefix_skipped :
  forall acc col,
    col_table col <> "" ->
    mem (lower (col_table col)) derived_aliases = false ->
    dict_get (lower (col_table col)) real_aliases = None ->
    step acc col = acc.
Proof.
  intros [mc ac] col Hprefix Hderived Hreal.
  unfold check_column. rewrite Hderived, Hreal.
  destruct (String.eqb (lower (col_name col)) ""); [reflexivity|].
  destruct (Strings.eqb_spec (col_table col) ""); [contradiction|].
  reflexivity.
Qed.
End Loop.

(** what an unprefixed reference adds, by the number of candidates *)
Lemma unprefixed_contribution :
  forall schema_tables real_aliases derived_aliases col,
    col_table col = "" ->
    lower (col_name col) <> "" ->
    let name := lower (col_name col) in
    let ctx := clause_of (col_ancestors col) in
    let candidates := candidates_of schema_tables real_aliases name in
    contribution schema_tables real_aliases derived_aliases col
    = match length candidates with
      | 0 => ([{| mc_table := "*"; mc_column := name; mc_context := ctx |}],
              [])
      | 1 => ([], [])
      | _ => ([], [{| ac_column := name; ac_candidates := candidates;
                      ac_context := ctx |}])
      end.
Proof.
  intros schema_tables real_aliases derived_aliases col Hprefix Hname.
  unfold contribution, check_column. rewrite Hprefix.
  destruct (Strings.eqb_spec (lower (col_name col)) ""); [contradiction|].
  cbn [String.eqb negb].
  destruct (length (candidates_of schema_tables real_aliases
                      (lower (col_name col)))) as [|[|more]]; reflexivity.
Qed.

(** a table known to the snapshot that has the column counts once for
    each entry of the alias map that leads to it: twice when it is
    aliased *)
Lemma aliased_table_counts_twice :
  forall schema_tables a t c,
    mem t (all_real_tables schema_tables) = true ->
    has_column schema_tables t c = true ->
    candidates_of schema_tables [(a, t); (t, t)] c
    = [(t ++ "." ++ c)%string; (t ++ "." ++ c)%string].
Proof.
  intros schema_tables a t c Ht Hc. unfold candidates_of.
  cbn [flat_map snd]. rewrite Ht, Hc. reflexivity.
Qed.

(** the findings of a statement are those its column references add *)
Lemma check_schema_columns_findings :
  forall root schema_tables,
    let adds := contribution schema_tables
                  (_collect_real_table_aliases root)
                  (_collect_derived_aliases root) in
    snd (fst (_check_schema_columns root schema_tables))
      = flat_map (fun c => fst (adds c)) (find_all_columns root)
    /\ snd (_check_schema_columns root schema_tables)
      = flat_map (fun c => snd (adds c)) (find_all_columns root).
Proof.
  intros root schema_tables adds. unfold _check_schema_columns.
  rewrite fold_check_column. simpl. split; reflexivity.
Qed.

Lemma collect_keeps :
  forall xs acc x,
    In x acc ->
    In x (fold_left
            (fun aliases a =>
               if String.eqb a "" then aliases else lower a :: aliases)
            xs acc).
Proof.
  induction xs as [|y ys IH]; intros acc x H; simpl; [exact H|].
  apply IH. destruct (String.eqb y ""); [exact H | now right].
Qed.

Lemma collect_adds :
  forall xs acc a,
    In a xs -> a <> "" ->
    In (lower a)
       (fold_left
          (fun aliases a =>
             if String.eqb a "" then aliases else lower a :: aliases)
          xs acc).
Proof.
  induction xs as [|y ys IH]; intros acc a Hin Hne; simpl.
  - contradiction.
  - destruct Hin as [->|Hin].
    + apply collect_keeps.
      destruct (Strings.eqb_spec a ""); [contradiction | now left].
    + now apply IH.
Qed.

(** the alias of a CTE or of a subquery is collected as derived *)
Lemma derived_alias_collected :
  forall root a,
    a <> "" ->
    In a (find_all_ctes root) \/ In a (find_all_subqueries root) ->
    mem (lower a) (_collect_derived_aliases root) = true.
Proof.
  intros root a Hne H. apply mem_In. unfold _collect_derived_aliases.
  destruct H as [H|H].
  - apply collect_keeps. now apply collect_adds.
  - now apply collect_adds.
Qed.

End ResolverFacts.

Module ResolverClaims.
Import Text Ast Resolver AstFacts ResolverFacts Samples.

(** C1.  The claim says that an unprefixed column found in exactly one
    visible real table yields no finding, in particular over a single
    aliased table.  The resolver counts one candidate per entry of the
    alias map, and an aliased table has two entries (its alias and its own
    name): for [SELECT id FROM orders AS o] with [orders(id, amount)] in
    the snapshot, the column [id] is reported ambiguous between
    [orders.id] and [orders.id]. *)
Theorem aliased_table_column_reported_ambiguous :
  _collect_real_table_aliases select_id_from_aliased_orders
    = [("o", "orders"); ("orders", "orders")]
  /\ _check_schema_columns select_id_from_aliased_orders orders_schema
    = ([], [],
       [{| ac_column := "id";
           ac_candidates := ["orders.id"; "orders.id"];
           ac_context := "select" |}])
  /\ _check_schema_columns select_id_from_orders orders_schema
    = ([], [], []).
Proof. repeat split; vm_compute; reflexivity. Qed.

(** C3.  A column reference prefixed by the alias of a CTE or of a
    subquery is never reported missing: the turn of the loop that handles
    it leaves the findings as they are, and every missing column the
    resolver reports for the statement comes from a reference with another
    prefix. *)
Theorem derived_prefix_never_missing :
  forall root schema_tables a,
    a <> "" ->
    In a (find_all_ctes root) \/ In a (find_all_subqueries root) ->
    (forall col acc,
        lower (col_table col) = lower a ->
        check_column schema_tables (_collect_real_table_aliases root)
          (_collect_derived_aliases root) acc col = acc)
    /\ (forall m,
           In m (snd (fst (_check_schema_columns root schema_tables))) ->
           exists col,
             In col (find_all_columns root)
             /\ lower (col_table col) <> lower a
             /\ mc_column m = lower (col_name col)
             /\ mc_context m = clause_of (col_ancestors col)).
Proof.
  intros root schema_tables a Hne Ha.
  pose proof (derived_alias_collected root a Hne Ha) as Hmem.
  assert (Hskip : forall col acc,
             lower (col_table col) = lower a ->
             check_column schema_tables (_collect_real_table_aliases root)
               (_collect_derived_aliases root) acc col = acc).
  { intros col acc Heq. apply derived_prefix_skipped.
    - intros Hempty. rewrite Hempty in Heq. simpl in Heq.
      symmetry in Heq. apply lower_empty in Heq. contradiction.
    - now rewrite Heq. }
  split; [exact Hskip|].
  intros m Hm.
  destruct (check_schema_columns_findings root schema_tables) as [Hmc _].
  rewrite Hmc in Hm. apply in_flat_map in Hm.
  destruct Hm as [col [Hcol Hin]].
  exists col. split; [exact Hcol|]. split.
  - intros Heq. unfold contribution in Hin.
    rewrite (Hskip col ([], []) Heq) in Hin. exact Hin.
  - eapply missing_of_contribution. exact Hin.
Qed.

Lemma derived_prefix_never_missing_witness :
  ("derived" <> "")
  /\ (In "derived" (find_all_ctes select_from_derived)
      \/ In "derived" (find_all_subqueries select_from_derived))
  /\ (forall m,
         In m (snd (fst (_check_schema_columns select_from_derived
                           orders_schema))) ->
         exists col,
           In col (find_all_columns select_from_derived)
           /\ lower (col_table col) <> lower "derived"
           /\ mc_column m = lower (col_name col)
           /\ mc_context m = clause_of (col_ancestors col)).
Proof.
  split; [discriminate|].
  split; [right; vm_compute; left; reflexivity|].
  apply (derived_prefix_never_missing select_from_derived orders_schema
           "derived").
  - discriminate.
  - right. vm_compute. left. reflexivity.
Defined.

(** C9.  A column reference whose prefix is neither a derived alias nor a
    key of the alias map produces no finding: its turn of the loop leaves
    the findings as they are, and every missing or ambiguous column the
    resolver reports for the statement comes from a reference that is not
    of that kind. *)
Theorem unresolvable_prefix_no_finding :
  forall root schema_tables,
    let unresolvable col :=
      col_table col <> ""
      /\ mem (lower (col_table col)) (_collect_derived_aliases root) = false
      /\ dict_get (lower (col_table col))
           (_collect_real_table_aliases root) = None in
    forall col,
      unresolvable col ->
      (forall acc,
          check_column schema_tables (_collect_real_table_aliases root)
            (_collect_derived_aliases root) acc col = acc)
      /\ (forall m,
             In m (snd (fst (_check_schema_columns root schema_tables))) ->
             exists col',
               In col' (find_all_columns root) /\ ~ unresolvable col'
               /\ mc_column m = lower (col_name col')
               /\ mc_context m = clause_of (col_ancestors col'))
      /\ (forall a,
             In a (snd (_check_schema_columns root schema_tables)) ->
             exists col',
               In col' (find_all_columns root) /\ ~ unresolvable col'
               /\ ac_column a = lower (col_name col')
               /\ ac_context a = clause_of (col_ancestors col')).
Proof.
  intros root schema_tables unresolvable col Hcol.
  assert (Hskip : forall c acc,
             unresolvable c ->
             check_column schema_tables (_collect_real_table_aliases root)
               (_collect_derived_aliases root) acc c = acc).
  { intros c acc [H1 [H2 H3]]. now apply unknown_prefix_skipped. }
  destruct (check_schema_columns_findings root schema_tables)
    as [Hmc Hac].
  split; [intros acc; now apply Hskip|]. split.
  - intros m Hm. rewrite Hmc in Hm. apply in_flat_map in Hm.
    destruct Hm as [c [Hc Hin]]. exists c. split; [exact Hc|]. split.
    + intros Hu. unfold contribution in Hin.
      rewrite (Hskip c ([], []) Hu) in Hin. exact Hin.
    + eapply missing_of_contribution. exact Hin.
  - intros a Ha. rewrite Hac in Ha. apply in_flat_map in Ha.
    destruct Ha as [c [Hc Hin]]. exists c. split; [exact Hc|]. split.
    + intros Hu. unfold contribution in Hin.
      rewrite (Hskip c ([], []) Hu) in Hin. exact Hin.
    + eapply ambiguous_of_contribution. exact Hin.
Qed.

Lemma unresolvable_prefix_no_finding_witness :
  let root := select_ghost_prefix in
  let col := {| col_name := "total"; col_table := "ghost";
                col_ancestors := [Select] |} in
  In col (find_all_columns root)
  /\ (col_table col <> ""
      /\ mem (lower (col_table col)) (_collect_derived_aliases root) = false
      /\ dict_get (lower (col_table col))
           (_collect_real_table_aliases root) = None)
  /\ (forall acc,
         check_column orders_schema (_collect_real_table_aliases root)
           (_collect_derived_aliases root) acc col = acc)
  /\ _check_schema_columns root orders_schema = ([], [], []).
Proof.
  intros root col.
  assert (Hu : col_table col <> ""
               /\ mem (lower (col_table col))
                    (_collect_derived_aliases root) = false
               /\ dict_get (lower (col_table col))
                    (_collect_real_table_aliases root) = None).
  { split; [discriminate|]. split; vm_compute; reflexivity. }
  split; [vm_compute; left; reflexivity|].
  split; [exact Hu|].
  split; [|vm_compute; reflexivity].
  exact (proj1 (unresolvable_prefix_no_finding root orders_schema col Hu)).
Defined.

End ResolverClaims.

(* ================================================================= *)
(** ** The static check *)

Module StaticClaims.
Import Text Re Scanner Ast Resolver Py Static Samples.

(** case analysis on the innermost conditions of the goal *)
Ltac split_ifs :=
  repeat (match goal with
          | |- context [if ?b then _ else _] =>
              lazymatch b with
              | context [if _ then _ else _] => fail
              | _ => destruct b
              end
          end; cbn [status_eqb orb negb]).

(** C4.  In every result of the static check the [schema_match] status
    is [fail] exactly when a missing table or a missing column was found,
    [warn] exactly when only ambiguous columns were found and [pass]
    exactly when nothing was found; the overall status is [fail] exactly
    when one of the three stages failed, so ambiguous columns alone never
    fail the check. *)
Theorem schema_match_status_policy :
  forall sql parsed snapshot r,
    static_check_sql sql parsed snapshot = Returned r ->
    let c := check r in
    (schema_match c = fail <->
       missing_tables c <> [] \/ missing_columns c <> [])
    /\ (schema_match c = warn <->
          missing_tables c = [] /\ missing_columns c = []
          /\ ambiguous_columns c <> [])
    /\ (schema_match c = pass <->
          missing_tables c = [] /\ missing_columns c = []
          /\ ambiguous_columns c = [])
    /\ (overall r = fail <->
          multi_statement c = fail \/ readonly c = fail
          \/ schema_match c = fail \/ exists e, parsed = Raised e).
Proof.
  intros sql parsed snapshot r H.
  unfold static_check_sql in H.
  destruct parsed as [e|exprs].
  { inversion H; subst; clear H. simpl.
    repeat split; intros; try discriminate; try tauto;
      try (right; right; right; now exists e);
      intuition (try discriminate; try congruence). }
  destruct snapshot as [e|schema_tables]; [discriminate|].
  match type of H with
  | context [match ?x with Raised _ => _ | Returned _ => _ end] =>
      destruct x as [e|[[mt mc] ac]] eqn:Hres; [discriminate|]
  end.
  inversion H; subst; clear H. cbn [check schema_match missing_tables
    missing_columns ambiguous_columns overall multi_statement readonly].
  destruct mt, mc, ac; cbn [is_empty negb orb];
    split_ifs; cbn [status_eqb orb];
    repeat split; intros; try discriminate; try tauto;
      repeat match goal with
             | H : _ \/ _ |- _ => destruct H
             | H : exists _, _ |- _ => destruct H
             end;
      try discriminate; try tauto;
      intuition (try discriminate; try congruence).
Qed.

Lemma schema_match_status_policy_witness :
  exists r,
    static_check_sql "SELECT id FROM orders AS o"
      (Returned [Some select_id_from_aliased_orders])
      (Returned orders_schema) = Returned r
    /\ schema_match (check r) = warn
    /\ overall r = pass
    /\ (overall r = fail <->
          multi_statement (check r) = fail \/ readonly (check r) = fail
          \/ schema_match (check r) = fail
          \/ exists e,
               Returned [Some select_id_from_aliased_orders] = Raised e).
Proof.
  eexists. split; [vm_compute; reflexivity|].
  split; [reflexivity|]. split; [reflexivity|].
  eapply (proj2 (proj2 (proj2
    (schema_match_status_policy "SELECT id FROM orders AS o"
       (Returned [Some select_id_from_aliased_orders])
       (Returned orders_schema) _ _)))).
  Unshelve. vm_compute. reflexivity.
Defined.

End StaticClaims.

(* ================================================================= *)
(** ** The execution coordinator *)

Module DynamicFacts.
Import Text Scanner Py Resolver Env Dynamic.

(** once the gates are passed and the connection and the cursor are
    open, the outcome is decided by the two queries *)
Lemma dynamic_check_sql_runs :
  forall w sql N P st,
    _is_single_statement sql = true ->
    _is_readonly_select sql = true ->
    connect_error w = None ->
    cursor_error w = None ->
    fst (dynamic_check_sql w sql N P st)
    = outcome_of (fetch_count w (execute w (count_sql sql)))
        (fetch_sample w (execute w (preview_sql sql P)) N).
Proof.
  intros w sql N P st Hsingle Hreadonly Hconnect Hcursor.
  unfold dynamic_check_sql.
  rewrite Hsingle, Hreadonly, Hconnect, Hcursor.
  cbv [negb bind log ret probe_and_preview _count_rows _preview_rows
       run_query close_connection fst].
  destruct (close_error w); reflexivity.
Qed.

(** a rejected statement leaves the store alone *)
Lemma dynamic_check_sql_rejects :
  forall w sql N P st,
    _is_readonly_select sql = false ->
    exists text,
      dynamic_check_sql w sql N P st
      = (runtime_error None None text, st).
Proof.
  intros w sql N P st Hreadonly. unfold dynamic_check_sql.
  rewrite Hreadonly.
  destruct (_is_single_statement sql); cbv [negb ret]; eauto.
Qed.

Lemma pick_in_range :
  forall (pool : list row) idxs,
    Forall (fun i => i < length pool) idxs ->
    exists rows,
      pick pool idxs = Returned rows
      /\ map Some rows = map (nth_error pool) idxs.
Proof.
  intros pool idxs H. induction H as [|i idxs Hi _ [rows [Hrows Hmap]]].
  - exists []. split; reflexivity.
  - apply nth_error_Some in Hi.
    destruct (nth_error pool i) as [r|] eqn:Hnth; [|contradiction].
    exists (r :: rows). simpl. rewrite Hnth, Hrows, Hmap. split; reflexivity.
Qed.

Lemma picked_rows_in_pool :
  forall (pool : list row) idxs rows,
    map Some rows = map (nth_error pool) idxs ->
    forall r, In r rows -> In r pool.
Proof.
  intros pool idxs. induction idxs as [|i idxs IH]; intros rows Hmap r Hin.
  - destruct rows; [contradiction | discriminate].
  - destruct rows as [|x rows]; [contradiction|].
    simpl in Hmap. injection Hmap as Hx Hrest.
    destruct Hin as [->|Hin].
    + eapply nth_error_In. symmetry. exact Hx.
    + eapply IH; eauto.
Qed.

(** the sampling step for a sample limit that is not negative *)
Lemma sample_pool_spec :
  forall w pool N,
    (0 <= N)%Z ->
    sampler_contract w ->
    exists rows,
      sample_pool w pool N = Returned rows
      /\ ((Z.of_nat (length pool) <= N)%Z -> rows = pool)
      /\ ((N < Z.of_nat (length pool))%Z ->
          exists idxs,
            length idxs = Z.to_nat N
            /\ NoDup idxs
            /\ Forall (fun i => i < length pool) idxs
            /\ map Some rows = map (nth_error pool) idxs)
      /\ Z.of_nat (length rows) = Z.min (Z.of_nat (length pool)) N
      /\ (forall r, In r rows -> In r pool).
Proof.
  intros w pool N HN Hsampler. unfold sample_pool.
  destruct pool as [|r0 pool'] eqn:Hpool.
  - exists []. simpl. repeat split; auto; try lia; try contradiction.
  - rewrite <- Hpool.
    destruct (Z.leb_spec (Z.of_nat (length pool)) N) as [Hle|Hgt].
    + exists pool. repeat split; auto; lia.
    + unfold random_sample.
      destruct (Z.ltb_spec N 0) as [?|_]; [lia|].
      destruct (Z.ltb_spec (Z.of_nat (length pool)) N) as [?|_]; [lia|].
      cbn [orb].
      destruct (Hsampler (length pool) (Z.to_nat N)) as [Hlen [Hnodup Hrange]];
        [lia|].
      destruct (pick_in_range pool _ Hrange) as [rows [Hpick Hmap]].
      exists rows. rewrite Hpick.
      assert (Hrows : length rows = Z.to_nat N).
      { rewrite <- Hlen, <- (length_map Some rows), Hmap.
        apply length_map. }
      repeat split.
      * lia.
      * intros _. exists (sample w (length pool) (Z.to_nat N)).
        repeat split; auto.
      * rewrite Hrows. lia.
      * eapply picked_rows_in_pool. exact Hmap.
Qed.

(** *** The draws *)

Lemma in_arrangements :
  forall k avail d,
    In d (arrangements avail k)
    <-> length d = k /\ NoDup d /\ incl d avail.
Proof.
  induction k as [|k IH]; intros avail d; cbn [arrangements].
  - split.
    + intros [<-|[]]. repeat split; [constructor | intros x []].
    + intros [Hlen _]. destruct d; [now left | discriminate].
  - rewrite in_flat_map. split.
    + intros [i [Hi Hd]]. apply in_map_iff in Hd.
      destruct Hd as [d' [<- Hd']]. apply IH in Hd'.
      destruct Hd' as [Hlen [Hnd Hincl]]. split; [|split].
      * cbn. now rewrite Hlen.
      * constructor; [|exact Hnd]. intros Hin. apply Hincl in Hin.
        now apply remove_In in Hin.
      * intros x [<-|Hx]; [exact Hi|].
        apply Hincl in Hx. now apply in_remove in Hx.
    + intros [Hlen [Hnd Hincl]]. destruct d as [|i d']; [discriminate|].
      inversion Hnd as [|? ? Hnotin Hnd']; subst.
      exists i. split; [apply Hincl; now left|].
      apply in_map. apply IH. split; [|split].
      * cbn in Hlen. lia.
      * exact Hnd'.
      * intros x Hx. apply in_in_remove.
        -- intros ->. contradiction.
        -- apply Hincl. now right.
Qed.

Lemma nodup_remove :
  forall (l : list nat) x, NoDup l -> NoDup (remove Nat.eq_dec x l).
Proof.
  induction l as [|y l IH]; intros x H; cbn [remove]; [constructor|].
  inversion H as [|? ? Hy Hl]; subst.
  destruct (Nat.eq_dec x y); [now apply IH|].
  constructor; [|now apply IH].
  intros Hin. apply in_remove in Hin. now destruct Hin.
Qed.

Lemma length_remove :
  forall (l : list nat) x,
    NoDup l -> In x l -> S (length (remove Nat.eq_dec x l)) = length l.
Proof.
  induction l as [|y l IH]; intros x Hnd Hin; [contradiction|].
  inversion Hnd as [|? ? Hy Hl]; subst. cbn [remove].
  destruct (Nat.eq_dec x y) as [->|Hne].
  - now rewrite notin_remove.
  - destruct Hin as [->|Hin]; [contradiction|].
    cbn [length]. now rewrite IH.
Qed.

Lemma nodup_flat_map :
  forall (A B : Type) (f : A -> list B) l,
    NoDup l ->
    (forall x, In x l -> NoDup (f x)) ->
    (forall x y z, In x l -> In y l -> x <> y -> In z (f x) ->
                   ~ In z (f y)) ->
    NoDup (flat_map f l).
Proof.
  intros A B f. induction l as [|x l IH]; intros Hnd Hf Hdis;
    cbn [flat_map]; [constructor|].
  inversion Hnd as [|? ? Hx Hl]; subst. apply NoDup_app.
  - apply Hf. now left.
  - apply IH; [exact Hl | intros y Hy; apply Hf; now right |].
    intros a b z Ha Hb. apply Hdis; now right.
  - intros z Hz Hz'. apply in_flat_map in Hz'.
    destruct Hz' as [y [Hy Hzy]].
    apply (Hdis x y z); [now left | now right | | exact Hz | exact Hzy].
    intros ->. contradiction.
Qed.

Lemma nodup_map_cons :
  forall (i : nat) (l : list (list nat)),
    NoDup l -> NoDup (map (cons i) l).
Proof.
  induction 1 as [|d l Hd Hl IH]; cbn [map]; constructor; [|exact IH].
  intros Hin. apply in_map_iff in Hin. destruct Hin as [d' [E Hd']].
  injection E as ->. contradiction.
Qed.

Lemma nodup_arrangements :
  forall k avail, NoDup avail -> NoDup (arrangements avail k).
Proof.
  induction k as [|k IH]; intros avail Hnd; cbn [arrangements].
  - constructor; [intros [] | constructor].
  - apply nodup_flat_map; [exact Hnd | |].
    + intros i _. apply nodup_map_cons. apply IH. now apply nodup_remove.
    + intros i j d _ _ Hne Hi Hj.
      apply in_map_iff in Hi. destruct Hi as [a [<- _]].
      apply in_map_iff in Hj. destruct Hj as [b [H _]].
      injection H as H _. now apply Hne.
Qed.

(** the arrangements of all of a list are its [k!] orders *)
Lemma length_arrangements :
  forall k avail,
    NoDup avail -> length avail = k ->
    length (arrangements avail k) = fact k.
Proof.
  induction k as [|k IH]; intros avail Hnd Hlen; [reflexivity|].
  cbn [arrangements].
  rewrite (flat_map_constant_length (c := fact k)).
  - rewrite Hlen. reflexivity.
  - intros i Hi. rewrite length_map. apply IH.
    + now apply nodup_remove.
    + pose proof (length_remove avail i Hnd Hi). lia.
Qed.

Lemma within_incl :
  forall chosen d, within chosen d = true <-> incl d chosen.
Proof.
  intros chosen d. unfold within. rewrite forallb_forall. split.
  - intros H x Hx. specialize (H x Hx). apply existsb_exists in H.
    destruct H as [y [Hy E]]. apply Nat.eqb_eq in E. now subst.
  - intros H x Hx. apply existsb_exists. exists x.
    split; [now apply H | apply Nat.eqb_refl].
Qed.

Lemma below_incl :
  forall n (d : list nat),
    Forall (fun i => i < n) d <-> incl d (seq 0 n).
Proof.
  intros n d. rewrite Forall_forall. split.
  - intros H x Hx. apply in_seq. specialize (H x Hx). lia.
  - intros H x Hx. apply H in Hx. apply in_seq in Hx. lia.
Qed.

(** the draws are the arrangements of [k] positions below [n], each
    once *)
Lemma draws_spec :
  forall n k,
    NoDup (draws n k)
    /\ forall d,
         In d (draws n k)
         <-> length d = k /\ NoDup d /\ Forall (fun i => i < n) d.
Proof.
  intros n k. unfold draws. split.
  - apply nodup_arrangements, seq_NoDup.
  - intros d. rewrite in_arrangements, below_incl. reflexivity.
Qed.

(** every set of [k] positions is picked by [k!] of the draws *)
Lemma ways_of_a_set :
  forall n k chosen,
    length chosen = k -> NoDup chosen ->
    Forall (fun i => i < n) chosen ->
    ways n k chosen = fact k.
Proof.
  intros n k chosen Hlen Hnd Hbelow. unfold ways.
  rewrite <- (length_arrangements k chosen Hnd Hlen).
  apply Permutation_length, NoDup_Permutation.
  - apply NoDup_filter. apply (draws_spec n k).
  - now apply nodup_arrangements.
  - intros d. rewrite filter_In, (proj2 (draws_spec n k)), within_incl,
      in_arrangements.
    apply below_incl in Hbelow. split.
    + intros [[H1 [H2 _]] H3]. auto.
    + intros [H1 [H2 H3]]. repeat split; auto.
      apply below_incl. intros x Hx. auto.
Qed.

(** the sampling step follows the draw *)
Lemma sample_pool_follows_draw :
  forall w pool N,
    (0 <= N)%Z ->
    (N < Z.of_nat (length pool))%Z ->
    In (sample w (length pool) (Z.to_nat N))
       (draws (length pool) (Z.to_nat N)) ->
    exists rows,
      sample_pool w pool N = Returned rows
      /\ map Some rows
         = map (nth_error pool) (sample w (length pool) (Z.to_nat N))
      /\ length rows = Z.to_nat N
      /\ (forall r, In r rows -> In r pool).
Proof.
  intros w pool N HN Hlt Hdraw.
  apply (proj2 (draws_spec _ _)) in Hdraw.
  destruct Hdraw as [Hlen [_ Hbelow]].
  destruct (pick_in_range pool _ Hbelow) as [rows [Hpick Hmap]].
  exists rows. unfold sample_pool.
  destruct pool as [|r0 pool'] eqn:Hpool; [cbn in Hlt; lia|].
  rewrite <- Hpool in *.
  destruct (Z.leb_spec (Z.of_nat (length pool)) N) as [?|_]; [lia|].
  unfold random_sample.
  destruct (Z.ltb_spec N 0) as [?|_]; [lia|].
  destruct (Z.ltb_spec (Z.of_nat (length pool)) N) as [?|_]; [lia|].
  cbn [orb]. split; [exact Hpick|]. split; [exact Hmap|]. split.
  - rewrite <- Hlen, <- (length_map Some rows), Hmap. apply length_map.
  - eapply picked_rows_in_pool. exact Hmap.
Qed.

End DynamicFacts.

Module DynamicClaims.
Import Text Scanner Py Resolver Env Dynamic DynamicFacts Samples.

(** C5, as stated, at a negative sample limit: with a pool of three rows
    and a sample limit of -1 the pool is larger than the limit, the
    sampler refuses the negative size, and no sample is returned: the
    execution ends as a runtime error. *)
Lemma negative_sample_limit_raises :
  execute three_rows_world (preview_sql sql_t 200) = Returned three_rows
  /\ fst (_preview_rows three_rows_world sql_t 200 (-1) start)
     = Raised (exn_of "Sample larger than population or is negative")
  /\ status (fst (dynamic_check_sql three_rows_world sql_t (-1) 200 start))
     = "runtime_error"
  /\ ~ (exists rows,
           fst (_preview_rows three_rows_world sql_t 200 (-1) start)
           = Returned rows
           /\ Z.of_nat (length rows)
              = Z.min (Z.of_nat (length three_rows)) (-1)).
Proof.
  split; [reflexivity|]. split; [vm_compute; reflexivity|].
  split; [vm_compute; reflexivity|].
  intros [rows [H _]]. vm_compute in H. discriminate.
Qed.

(** C5, amended.  For a sample limit [N >= 0] and a preview query that
    fetched [pool], the sampling step returns the whole pool when it has
    at most [N] rows, and otherwise the rows at the [N] distinct positions
    of the pool that [random.sample] drew, in the order drawn; the sample
    has [min(|pool|, N)] rows and each of them is a row of the pool.  The
    draw is uniform: the answers of [random.sample], each as likely as
    another, are the arrangements of [N] distinct positions, each once,
    so that every set of [N] positions is picked by the same number of
    them, [N!]. *)
Theorem sample_is_uniform_draw :
  forall w sql P N st pool,
    (0 <= N)%Z ->
    execute w (preview_sql sql P) = Returned pool ->
    let n := length pool in
    let k := Z.to_nat N in
    (k < n -> In (sample w n k) (draws n k)) ->
    exists rows,
      fst (_preview_rows w sql P N st) = Returned rows
      /\ ((Z.of_nat n <= N)%Z -> rows = pool)
      /\ ((N < Z.of_nat n)%Z ->
          map Some rows = map (nth_error pool) (sample w n k)
          /\ length (sample w n k) = k
          /\ NoDup (sample w n k)
          /\ Forall (fun i => i < n) (sample w n k))
      /\ Z.of_nat (length rows) = Z.min (Z.of_nat n) N
      /\ (forall r, In r rows -> In r pool)
      /\ NoDup (draws n k)
      /\ (forall d,
             In d (draws n k)
             <-> length d = k /\ NoDup d /\ Forall (fun i => i < n) d)
      /\ (forall chosen,
             length chosen = k -> NoDup chosen ->
             Forall (fun i => i < n) chosen ->
             ways n k chosen = fact k).
Proof.
  intros w sql P N st pool HN Hpool n k Hdraw.
  assert (Hrun : fst (_preview_rows w sql P N st) = sample_pool w pool N).
  { cbv [_preview_rows run_query bind log ret fst]. now rewrite Hpool. }
  rewrite Hrun.
  assert (Huniform :
            NoDup (draws n k)
            /\ (forall d,
                   In d (draws n k)
                   <-> length d = k /\ NoDup d
                       /\ Forall (fun i => i < n) d)
            /\ (forall chosen,
                   length chosen = k -> NoDup chosen ->
                   Forall (fun i => i < n) chosen ->
                   ways n k chosen = fact k)).
  { destruct (draws_spec n k) as [H1 H2].
    split; [exact H1|]. split; [exact H2|].
    intros chosen. apply ways_of_a_set. }
  destruct (Z.leb_spec (Z.of_nat n) N) as [Hle|Hgt].
  - exists pool. split.
    { unfold sample_pool. destruct pool as [|r0 pool']; [reflexivity|].
      fold n. destruct (Z.leb_spec (Z.of_nat n) N); [reflexivity | lia]. }
    split; [reflexivity|]. split; [lia|]. split; [fold n; lia|].
    split; [auto | exact Huniform].
  - assert (Hk : k < n) by (unfold k; lia).
    destruct (sample_pool_follows_draw w pool N HN Hgt (Hdraw Hk))
      as [rows [Hrows [Hmap [Hlen Hin]]]].
    exists rows. split; [exact Hrows|]. split; [lia|]. split.
    { intros _. split; [exact Hmap|].
      now apply (proj2 (draws_spec n k)), Hdraw. }
    split; [rewrite Hlen; fold n; lia|].
    split; [exact Hin | exact Huniform].
Qed.

Lemma sample_is_uniform_draw_witness :
  let w := with_draw three_rows_world [2; 0]%nat in
  (0 <= 2)%Z
  /\ execute w (preview_sql sql_t 200) = Returned three_rows
  /\ In (sample w 3 2) (draws 3 2)
  /\ fst (_preview_rows w sql_t 200 2 start) = Returned [row_a 3; row_a 1]
  /\ ways 3 2 [0; 2]%nat = 2
  /\ ways 3 2 [1; 2]%nat = 2
  /\ length (draws 3 2) = 6
  /\ exists rows,
      fst (_preview_rows w sql_t 200 2 start) = Returned rows
      /\ map Some rows = map (nth_error three_rows) (sample w 3 2)
      /\ Z.of_nat (length rows) = Z.min (Z.of_nat (length three_rows)) 2
      /\ (forall r, In r rows -> In r three_rows).
Proof.
  intros w.
  assert (Hdraw : In (sample w 3 2) (draws 3 2))
    by (vm_compute; auto 10).
  split; [lia|]. split; [reflexivity|]. split; [exact Hdraw|].
  split; [vm_compute; reflexivity|]. split; [vm_compute; reflexivity|].
  split; [vm_compute; reflexivity|]. split; [vm_compute; reflexivity|].
  destruct (sample_is_uniform_draw w sql_t 200 2 start three_rows
              ltac:(lia) eq_refl (fun _ => Hdraw))
    as [rows [H1 [_ [H3 [H4 [H5 _]]]]]].
  exists rows. split; [exact H1|].
  split; [apply H3; vm_compute; reflexivity|]. split; [exact H4 | exact H5].
Defined.

(** C6, as stated, on a pool larger than the sample limit: the count
    probe fails, the preview fetches three rows, the sample limit is 2,
    and the reported [row_count] is 2, the size of the sample, not the
    size of the pool. *)
Lemma count_failure_row_count_is_not_pool_size :
  (exists e, execute uncountable_world (count_sql sql_t) = Raised e)
  /\ execute uncountable_world (preview_sql sql_t 200)
     = Returned three_rows
  /\ row_count (fst (dynamic_check_sql uncountable_world sql_t 2 200 start))
     = Some 2%Z
  /\ row_count (fst (dynamic_check_sql uncountable_world sql_t 2 200 start))
     <> Some (Z.of_nat (length three_rows)).
Proof.
  split; [eexists; vm_compute; reflexivity|].
  split; [vm_compute; reflexivity|].
  split; [vm_compute; reflexivity|].
  vm_compute. discriminate.
Qed.

(** C6, amended.  When the count probe fails and the preview succeeds
    the outcome is a success whose [row_count] is the number of sample
    rows returned (for a sample limit [N >= 0], [min(|pool|, N)]); when
    that number is not zero the sample is returned with the note that the
    count failed, and when it is zero the outcome is the empty one with
    its hint. *)
Theorem count_failure_falls_back_to_sample :
  forall w sql N P st ce pool samples,
    _is_single_statement sql = true ->
    _is_readonly_select sql = true ->
    connect_error w = None ->
    cursor_error w = None ->
    execute w (count_sql sql) = Raised ce ->
    execute w (preview_sql sql P) = Returned pool ->
    sample_pool w pool N = Returned samples ->
    let r := fst (dynamic_check_sql w sql N P st) in
    ok r = true
    /\ status r = "success"
    /\ row_count r = Some (Z.of_nat (length samples))
    /\ (samples <> [] ->
        sample_rows r = Some samples /\ message r = count_note ce)
    /\ (samples = [] -> r = success 0 [] empty_hint)
    /\ ((0 <= N)%Z -> sampler_contract w ->
        Z.of_nat (length samples) = Z.min (Z.of_nat (length pool)) N).
Proof.
  intros w sql N P st ce pool samples Hs Hr Hc Hk Hcount Hpool Hsample r.
  subst r. rewrite dynamic_check_sql_runs by assumption.
  rewrite Hcount, Hpool. cbn [fetch_count fetch_sample].
  rewrite Hsample. unfold outcome_of.
  destruct samples as [|x xs].
  - cbn [length Z.of_nat Z.eqb]. cbn [ok status row_count success].
    repeat split; auto; try (now exfalso).
    intros HN Hsampler.
    destruct (sample_pool_spec w pool N HN Hsampler)
      as [rows [Hrows [_ [_ [Hlen _]]]]].
    rewrite Hsample in Hrows. injection Hrows as <-. exact Hlen.
  - destruct (Z.eqb_spec (Z.of_nat (length (x :: xs))) 0) as [H0|_].
    { simpl in H0. lia. }
    cbn [ok status row_count sample_rows message success].
    repeat split; auto; try discriminate.
    intros HN Hsampler.
    destruct (sample_pool_spec w pool N HN Hsampler)
      as [rows [Hrows [_ [_ [Hlen _]]]]].
    rewrite Hsample in Hrows. injection Hrows as <-. exact Hlen.
Qed.

Lemma count_failure_falls_back_to_sample_witness :
  let r := fst (dynamic_check_sql uncountable_world sql_t 2 200 start) in
  _is_single_statement sql_t = true
  /\ _is_readonly_select sql_t = true
  /\ execute uncountable_world (count_sql sql_t)
     = Raised (exn_of "(1064, 'syntax error')")
  /\ execute uncountable_world (preview_sql sql_t 200)
     = Returned three_rows
  /\ sample_pool uncountable_world three_rows 2
     = Returned [row_a 1; row_a 2]
  /\ ok r = true
  /\ status r = "success"
  /\ row_count r = Some 2%Z.
Proof.
  intros r.
  assert (H1 : _is_single_statement sql_t = true)
    by (vm_compute; reflexivity).
  assert (H2 : _is_readonly_select sql_t = true)
    by (vm_compute; reflexivity).
  assert (H3 : execute uncountable_world (count_sql sql_t)
               = Raised (exn_of "(1064, 'syntax error')"))
    by (vm_compute; reflexivity).
  assert (H4 : execute uncountable_world (preview_sql sql_t 200)
               = Returned three_rows)
    by (vm_compute; reflexivity).
  assert (H5 : sample_pool uncountable_world three_rows 2
               = Returned [row_a 1; row_a 2])
    by (vm_compute; reflexivity).
  repeat (split; [assumption|]).
  destruct (count_failure_falls_back_to_sample uncountable_world sql_t 2
              200 start _ _ _ H1 H2 eq_refl eq_refl H3 H4 H5)
    as [Hok [Hstatus [Hcount _]]].
  repeat split; assumption.
Defined.

(** C7.  A statement that passes the gates, runs, and returns no row
    (the preview fetches nothing, and the count probe answers 0 or fails)
    ends as a success with [row_count = 0], no sample row and the hint to
    re-examine the filter conditions; it is not a runtime error. *)
Theorem zero_rows_is_success :
  forall w sql N P st,
    _is_single_statement sql = true ->
    _is_readonly_select sql = true ->
    connect_error w = None ->
    cursor_error w = None ->
    execute w (preview_sql sql P) = Returned [] ->
    (fetch_count w (execute w (count_sql sql)) = Returned 0%Z
     \/ exists e, fetch_count w (execute w (count_sql sql)) = Raised e) ->
    let r := fst (dynamic_check_sql w sql N P st) in
    ok r = true
    /\ status r = "success"
    /\ row_count r = Some 0%Z
    /\ sample_rows r = Some []
    /\ message r = empty_hint
    /\ error r = None
    /\ status r <> "runtime_error".
Proof.
  intros w sql N P st Hs Hr Hc Hk Hpool Hcount r. subst r.
  rewrite dynamic_check_sql_runs by assumption.
  rewrite Hpool. cbn [fetch_sample sample_pool].
  destruct Hcount as [H0|[e He]].
  - rewrite H0. cbv [outcome_of Z.eqb ok status row_count sample_rows
                     message error success].
    repeat split. discriminate.
  - rewrite He. cbv [outcome_of length Z.of_nat Z.eqb ok status row_count
                     sample_rows message error success].
    repeat split. discriminate.
Qed.

Lemma zero_rows_is_success_witness :
  let r := fst (dynamic_check_sql empty_world sql_t 10 200 start) in
  ok r = true
  /\ status r = "success"
  /\ row_count r = Some 0%Z
  /\ sample_rows r = Some []
  /\ message r = empty_hint
  /\ error r = None
  /\ status r <> "runtime_error".
Proof.
  apply (zero_rows_is_success empty_world sql_t 10 200 start).
  - vm_compute; reflexivity.
  - vm_compute; reflexivity.
  - reflexivity.
  - reflexivity.
  - vm_compute; reflexivity.
  - left. vm_compute; reflexivity.
Defined.

End DynamicClaims.

(* ================================================================= *)
(** ** The read-only gate *)

Module GateFacts.
Import Text Re Scanner Spec.

Lemma space_or_paren_not_word :
  forall c, space_or_paren c = true -> is_word c = false.
Proof.
  intros c H. unfold space_or_paren in H. apply orb_true_iff in H.
  destruct H as [H|H].
  - now apply Chars.space_not_word.
  - apply Chars.is_code in H. subst c. vm_compute. reflexivity.
Qed.

Section Repeat.
Variable cls : char -> bool.
Variable k : option char -> string -> bool.

(** a match of [[cls]*] then [k] splits the text *)
Lemma star0_split :
  forall s prev,
    star0 cls k prev s = true ->
    exists pre rest prev',
      s = (pre ++ rest)%string
      /\ all_chars cls pre = true
      /\ k prev' rest = true.
Proof.
  induction s as [|c r IH]; intros prev H; simpl in H.
  - exists "", "", prev. auto.
  - apply orb_true_iff in H. destruct H as [H|H].
    + apply andb_true_iff in H. destruct H as [Hc H].
      destruct (IH _ H) as [pre [rest [prev' [-> [Hall Hk]]]]].
      exists (String c pre), rest, prev'. simpl. rewrite Hc. auto.
    + exists "", (String c r), prev. auto.
Qed.
End Repeat.

Lemma lstrip_all_chars :
  forall p pre rest,
    all_chars p pre = true ->
    lstrip_by p (pre ++ rest) = lstrip_by p rest.
Proof.
  induction pre as [|c pre IH]; intros rest H; simpl in *.
  - reflexivity.
  - apply andb_true_iff in H. destruct H as [Hc H].
    rewrite Hc. now apply IH.
Qed.

Lemma all_chars_weaken :
  forall (p q : char -> bool) s,
    (forall c, p c = true -> q c = true) ->
    all_chars p s = true -> all_chars q s = true.
Proof.
  induction s as [|c r IH]; intros Hpq H; simpl in *; [reflexivity|].
  apply andb_true_iff in H. destruct H as [Hc H].
  rewrite (Hpq _ Hc). now apply IH.
Qed.

Lemma eat_keyword :
  forall kw prev s,
    kw = "select" \/ kw = "with" ->
    eat_then (fun p r => at_boundary p r && true) prev s kw = true ->
    begins_with_spelling kw s = true
    /\ lstrip_by space_or_paren s = s.
Proof.
  intros kw prev s Hkw H. unfold eat_then in H.
  destruct (eat kw prev s) as [[p r]|] eqn:Heat; [|discriminate].
  destruct (LetterFacts.eat_after _ _ _ _ _ Heat) as [Hafter Hlast].
  assert (Hp : word_opt p = true)
    by (rewrite Hlast; destruct Hkw; subst; reflexivity).
  rewrite andb_true_r in H. unfold at_boundary in H.
  rewrite Hp in H. split.
  - unfold begins_with_spelling. rewrite Hafter.
    destruct (word_opt (head r)); [discriminate | reflexivity].
  - destruct s as [|c s]; [reflexivity|]. simpl.
    destruct (space_or_paren c) eqn:Hc; [|reflexivity].
    apply space_or_paren_not_word in Hc.
    assert (Hw : is_word c = true).
    { destruct Hkw; subst kw; cbn [after_keyword] in Hafter;
        match type of Hafter with
        | context [same_letter ?x c] =>
            destruct (same_letter x c) eqn:E; [|discriminate]
        end; rewrite (LetterFacts.same_letter_word _ _ E); reflexivity. }
    congruence.
Qed.

(** the head pattern only matches a text that begins with SELECT or
    WITH, in one of their spellings, after white space and opening
    parentheses *)
Lemma head_pattern_sound :
  forall sql,
    match_start head_pattern sql = true ->
    begins_with_select_or_with_spelled sql = true.
Proof.
  intros sql H. unfold match_start, head_pattern in H.
  cbn [match_here] in H.
  apply star0_split in H.
  destruct H as [p1 [r1 [v1 [-> [H1 H]]]]].
  apply star0_split in H.
  destruct H as [p2 [r2 [v2 [-> [H2 H]]]]].
  apply star0_split in H.
  destruct H as [p3 [r3 [v3 [-> [H3 H]]]]].
  unfold begins_with_select_or_with_spelled.
  assert (Hs : forall c, is_space c = true -> space_or_paren c = true)
    by (intros c Hc; unfold space_or_paren; now rewrite Hc).
  assert (Hl : forall c, lparen c = true -> space_or_paren c = true)
    by (intros c Hc; unfold space_or_paren; rewrite Hc;
        apply orb_true_r).
  rewrite (lstrip_all_chars _ p1)
    by (apply (all_chars_weaken is_space); assumption).
  rewrite (lstrip_all_chars _ p2)
    by (apply (all_chars_weaken lparen); assumption).
  rewrite (lstrip_all_chars _ p3)
    by (apply (all_chars_weaken is_space); assumption).
  cbn [existsb] in H. rewrite orb_false_r in H.
  apply orb_true_iff in H. destruct H as [H|H].
  - destruct (eat_keyword "select" v3 r3 (or_introl eq_refl) H)
      as [Hk Hstrip].
    rewrite Hstrip, Hk. reflexivity.
  - destruct (eat_keyword "with" v3 r3 (or_intror eq_refl) H)
      as [Hk Hstrip].
    rewrite Hstrip, Hk. apply orb_true_r.
Qed.

Lemma readonly_gate_closed :
  forall sql,
    begins_with_select_or_with_spelled sql = false ->
    _is_readonly_select sql = false.
Proof.
  intros sql H. unfold _is_readonly_select.
  destruct (match_start head_pattern sql) eqn:Hm; [|reflexivity].
  apply head_pattern_sound in Hm. congruence.
Qed.

End GateFacts.

(* ================================================================= *)
(** ** The exporter *)

Module ExporterFacts.
Import Text Scanner Py Resolver Env Exporter.

Lemma dict_get_remove :
  forall (V : Type) k (d : dict V), dict_get k (dict_remove k d) = None.
Proof.
  induction d as [|[k' v] d IH]; simpl; [reflexivity|].
  destruct (String.eqb k k') eqn:E; [exact IH|].
  simpl. now rewrite E.
Qed.

(** after the clean-up the file is gone, unless its removal failed *)
Lemma cleanup_removes :
  forall w path st,
    remove_error w = None ->
    dict_get path (fs (snd (cleanup w path st))) = None.
Proof.
  intros w path st Hremove. unfold cleanup.
  cbv [bind get_fs log put_fs ret].
  destruct (dict_get path (fs st)) eqn:Hget; cbn [snd fs].
  - rewrite Hremove. cbn [snd fs]. apply dict_get_remove.
  - exact Hget.
Qed.

Lemma cleanup_keeps_when_removal_fails :
  forall w path st e,
    remove_error w = Some e ->
    fs (snd (cleanup w path st)) = fs st.
Proof.
  intros w path st e Hremove. unfold cleanup.
  cbv [bind get_fs log put_fs ret].
  destruct (dict_get path (fs st)); cbn [snd fs]; [|reflexivity].
  rewrite Hremove. reflexivity.
Qed.

Lemma close_connection_fs :
  forall w st, fs (snd (close_connection w st)) = fs st.
Proof.
  intros w st. unfold close_connection. cbv [bind log ret].
  destruct (close_error w); reflexivity.
Qed.

(** the run of a request that reaches the [with] block *)
Lemma save_to_csv_runs :
  forall w sql fetch_size excel_friendly st,
    _is_single_statement sql = true ->
    _is_readonly_select sql = true ->
    makedirs_error w = None ->
    connect_error w = None ->
    save_to_csv w sql fetch_size excel_friendly st
    = let '(body, st1) :=
        with_block w sql fetch_size (path_of w)
          (encoding_of excel_friendly) (at_block st) in
      match body with
      | Raised e =>
          (Returned (runtime_error (exn_str e)),
           snd (close_connection w (snd (cleanup w (path_of w) st1))))
      | Returned n =>
          (fst (save_to_csv w sql fetch_size excel_friendly st),
           snd (close_connection w st1))
      end.
Proof.
  intros w sql fetch_size excel_friendly st Hs Hr Hm Hc.
  unfold save_to_csv. rewrite Hs, Hr, Hm, Hc.
  cbv [negb bind log ret]. cbn [fs writes trace].
  change {| fs := fs st; writes := writes st;
            trace := (trace st ++ [MakeDirs output_dir]) ++ [Connect] |}
    with (at_block st).
  destruct (with_block w sql fetch_size (path_of w)
              (encoding_of excel_friendly) (at_block st)) as [[e|n] st1].
  - destruct (cleanup w (path_of w) st1) as [[] st2]. cbn [fst snd].
    destruct (close_connection w st2) as [[] st3]. reflexivity.
  - cbn [fst snd].
    destruct (close_connection w st1) as [[] st2]. reflexivity.
Qed.

(** a rejected statement leaves the store and the files alone *)
Lemma save_to_csv_rejects :
  forall w sql fetch_size excel_friendly st,
    _is_readonly_select sql = false ->
    exists text,
      save_to_csv w sql fetch_size excel_friendly st
      = (Returned (runtime_error text), st).
Proof.
  intros w sql fetch_size excel_friendly st Hr. unfold save_to_csv.
  rewrite Hr. destruct (_is_single_statement sql); cbv [negb ret]; eauto.
Qed.

End ExporterFacts.

Module ExporterClaims.
Import Text Scanner Py Resolver Env Exporter ExporterFacts Samples.

(** C8, as stated, when the removal fails: the stream breaks after the
    header and three rows are written, the removal of the output file
    raises, which is swallowed, and the partial file is still there when
    the runtime error is returned. *)
Lemma failed_removal_leaves_partial_file :
  let w := broken_stream_world
             (Some (exn_of "[Errno 13] Permission denied")) in
  let run := save_to_csv w sql_t 1000 true start in
  fst run = Returned (runtime_error "(2013, 'Lost connection')")
  /\ dict_get (path_of w) (fs (snd run))
     = Some {| encoding := "utf-8-sig";
               records :=
                 [[Some (VStr "a")]; [Some (VInt 1)]; [Some (VInt 2)];
                  [Some (VInt 3)]] |}
  /\ dict_get (path_of w) (fs (snd run)) <> None.
Proof.
  intros w run. split; [vm_compute; reflexivity|].
  split; [vm_compute; reflexivity|].
  vm_compute. discriminate.
Qed.

(** C8, amended.  When the [with] block of an export request raises
    (the cursor or the file cannot be opened, or the execution, a fetch or
    a write fails once the file is created), the request returns a
    structured runtime error carrying the exception's text instead of
    raising, and the output file is not there any more unless its removal
    itself failed, in which case the files are left as the block left
    them. *)
Theorem failed_export_is_cleaned_up :
  forall w sql fetch_size excel_friendly st e,
    _is_single_statement sql = true ->
    _is_readonly_select sql = true ->
    makedirs_error w = None ->
    connect_error w = None ->
    fst (with_block w sql fetch_size (path_of w)
           (encoding_of excel_friendly) (at_block st)) = Raised e ->
    let run := save_to_csv w sql fetch_size excel_friendly st in
    fst run = Returned (runtime_error (exn_str e))
    /\ (remove_error w = None ->
        dict_get (path_of w) (fs (snd run)) = None)
    /\ (remove_error w <> None ->
        fs (snd run)
        = fs (snd (with_block w sql fetch_size (path_of w)
                     (encoding_of excel_friendly) (at_block st)))).
Proof.
  intros w sql fetch_size excel_friendly st e Hs Hr Hm Hc Hbody run.
  subst run. rewrite save_to_csv_runs by assumption.
  destruct (with_block w sql fetch_size (path_of w)
              (encoding_of excel_friendly) (at_block st))
    as [body st1].
  cbn [fst] in Hbody. subst body. cbn [fst snd].
  split; [reflexivity|]. rewrite close_connection_fs. split.
  - intros Hremove. now apply cleanup_removes.
  - intros Hremove. destruct (remove_error w) as [x|] eqn:Hx.
    + eapply cleanup_keeps_when_removal_fails. exact Hx.
    + contradiction.
Qed.

Lemma failed_export_is_cleaned_up_witness :
  let w := broken_stream_world None in
  let run := save_to_csv w sql_t 1000 true start in
  fst (with_block w sql_t 1000 (path_of w) (encoding_of true)
         (at_block start))
  = Raised (exn_of "(2013, 'Lost connection')")
  /\ trace (snd run)
     = [MakeDirs output_dir; Connect; OpenCursor; OpenFile (path_of w);
        Execute sql_t; WriteRow (path_of w); FetchMany;
        WriteRow (path_of w); WriteRow (path_of w); WriteRow (path_of w);
        FetchMany; Remove (path_of w); CloseConnection]
  /\ fst run = Returned (runtime_error "(2013, 'Lost connection')")
  /\ dict_get (path_of w) (fs (snd run)) = None.
Proof.
  intros w run.
  assert (Hbody : fst (with_block w sql_t 1000 (path_of w)
                         (encoding_of true) (at_block start))
                  = Raised (exn_of "(2013, 'Lost connection')"))
    by (vm_compute; reflexivity).
  split; [exact Hbody|]. split; [vm_compute; reflexivity|].
  destruct (failed_export_is_cleaned_up w sql_t 1000 true start _
              ltac:(vm_compute; reflexivity)
              ltac:(vm_compute; reflexivity)
              eq_refl eq_refl Hbody) as [Hres [Hgone _]].
  split; [exact Hres|]. apply Hgone. reflexivity.
Defined.

End ExporterClaims.

(* ================================================================= *)
(** ** The gate in front of the store *)

Module GateClaims.
Import Text Re Scanner Spec Py Env GateFacts DynamicFacts ExporterFacts
  Samples.

(** C10, as stated, on WITH written with a capital I with a dot and on
    SELECT written with a long s.  Neither text begins with the keyword in
    any case: [str.lower()] turns the dotted I into an i followed by a
    combining dot and leaves the long s as it is.  Yet [re.I] takes the
    dotted I for an I and the long s for an S: the gate answers true, and
    the execution runs the statement on the store. *)
Lemma long_s_passes_the_gate :
  (begins_with_select_or_with dotted_with = false
   /\ _is_single_statement dotted_with = true
   /\ _is_readonly_select dotted_with = true
   /\ In (Execute (Dynamic.count_sql dotted_with))
        (trace (snd (Dynamic.dynamic_check_sql three_rows_world dotted_with
                       10 200 start))))
  /\ (begins_with_select_or_with long_s_select = false
      /\ _is_single_statement long_s_select = true
      /\ _is_readonly_select long_s_select = true
      /\ In (Execute (Dynamic.count_sql long_s_select))
           (trace (snd (Dynamic.dynamic_check_sql three_rows_world
                          long_s_select 10 200 start)))).
Proof.
  split; (repeat (split; [vm_compute; reflexivity|])); vm_compute; auto.
Qed.

(** C10, amended.  A text that does not begin, after optional white space
    and opening parentheses, with SELECT or WITH in one of the spellings
    [re.I] takes (each letter in either case, the long s for S, the dotted
    capital I and the dotless i for I) followed by no word character, is
    refused by the read-only gate; the execution and the export then
    answer a runtime error and leave the store and the files untouched.
    A read-only statement that starts with a comment is such a text. *)
Theorem readonly_gate_requires_spelled_keyword :
  forall sql,
    begins_with_select_or_with_spelled sql = false ->
    _is_readonly_select sql = false
    /\ (forall w N P st,
           exists text,
             Dynamic.dynamic_check_sql w sql N P st
             = (Dynamic.runtime_error None None text, st))
    /\ (forall w fetch_size excel_friendly st,
           exists text,
             Exporter.save_to_csv w sql fetch_size excel_friendly st
             = (Returned (Exporter.runtime_error text), st)).
Proof.
  intros sql H. apply readonly_gate_closed in H.
  split; [exact H|]. split.
  - intros. now apply dynamic_check_sql_rejects.
  - intros. now apply save_to_csv_rejects.
Qed.

Lemma readonly_gate_requires_spelled_keyword_witness :
  begins_with_select_or_with_spelled commented_select = false
  /\ _is_single_statement commented_select = true
  /\ _is_readonly_select commented_select = false
  /\ Dynamic.dynamic_check_sql three_rows_world commented_select 10 200
       start
     = (Dynamic.runtime_error None None
          "仅允许只读查询（SELECT/WITH/UNION），或检测到危险关键字",
        start).
Proof.
  split; [vm_compute; reflexivity|].
  split; [vm_compute; reflexivity|].
  split.
  - apply (readonly_gate_requires_spelled_keyword commented_select).
    vm_compute; reflexivity.
  - vm_compute; reflexivity.
Defined.

End GateClaims.

(* ================================================================= *)
(** ** The scrubbing passes on tame statements *)

Module ScannerFacts.
Import Text Re Scanner Spec.
Local Open Scope string_scope.

Lemma append_assoc :
  forall a b c : string, (a ++ b) ++ c = a ++ (b ++ c).
Proof. induction a; intros; simpl; [reflexivity | now rewrite IHa]. Qed.

Lemma append_empty_r : forall s : string, s ++ "" = s.
Proof. induction s; simpl; [reflexivity | now rewrite IHs]. Qed.

Lemma length_append :
  forall a b : string,
    String.length (a ++ b) = String.length a + String.length b.
Proof. induction a; intros; simpl; [reflexivity | now rewrite IHa]. Qed.

Section Sub.
Variable m : matcher.
Variable repl : string.

(** inside a match the text is dropped *)
Lemma sub_aux_skips :
  forall t rest,
    sub_aux m repl (String.length t) (t ++ rest) = sub_aux m repl 0 rest.
Proof.
  induction t as [|c t IH]; intros rest; simpl.
  - destruct rest; reflexivity.
  - apply IH.
Qed.

(** a match at the head is replaced *)
Lemma sub_match :
  forall c t rest,
    m (String c t ++ rest) = Some (String.length (String c t)) ->
    sub m repl (String c t ++ rest) = repl ++ sub m repl rest.
Proof.
  intros c t rest H. unfold sub. cbn [append sub_aux].
  cbn [append] in H. rewrite H. cbn [String.length].
  now rewrite sub_aux_skips.
Qed.

(** a stretch where the matcher stays silent is copied *)
Lemma sub_quiet :
  forall t rest,
    quiet m t rest -> sub m repl (t ++ rest) = t ++ sub m repl rest.
Proof.
  induction t as [|c t IH]; intros rest H.
  - reflexivity.
  - destruct H as [Hc Ht]. unfold sub in *. cbn [append sub_aux].
    rewrite Hc. now rewrite IH.
Qed.

Lemma quiet_app :
  forall a b rest,
    quiet m a (b ++ rest) -> quiet m b rest -> quiet m (a ++ b) rest.
Proof.
  induction a as [|c a IH]; intros b rest Ha Hb.
  - exact Hb.
  - destruct Ha as [Hc Ha]. cbn [append quiet]. split.
    + now rewrite append_assoc.
    + now apply IH.
Qed.

(** a matcher that starts with a character [p] is silent on a stretch
    without any *)
Lemma quiet_without :
  forall p,
    (forall s, first_is p s = false -> m s = None) ->
    forall t rest, contains_char p t = false -> quiet m t rest.
Proof.
  intros p Hm. induction t as [|c t IH]; intros rest H; cbn [quiet].
  - exact I.
  - cbn [contains_char] in H. apply orb_false_iff in H.
    destruct H as [Hc Ht]. split; [|now apply IH].
    apply Hm. exact Hc.
Qed.

(** a matcher that starts with [p] then [q] is silent on a stretch where
    no [p] is followed by a [q], the end of the stretch included *)
Lemma quiet_free2 :
  forall p q,
    (forall s, first_is p s && second_is q s = false -> m s = None) ->
    forall t rest,
      free2 p q t = true ->
      last_is p t && first_is q rest = false ->
      quiet m t rest.
Proof.
  intros p q Hm. induction t as [|c t IH]; intros rest Hfree Hlast;
    cbn [quiet].
  - exact I.
  - cbn [free2] in Hfree. apply andb_true_iff in Hfree.
    destruct Hfree as [Hc Hfree]. split.
    + apply Hm. cbn [first_is second_is].
      destruct t as [|d t].
      * cbn [append]. cbn [last_is] in Hlast. exact Hlast.
      * cbn [first_is] in Hc. cbn [append first_is].
        now apply negb_true_iff in Hc.
    + apply IH; [exact Hfree|].
      destruct t as [|d t]; [reflexivity | exact Hlast].
Qed.

End Sub.

(** *** What sets each matcher off *)

Lemma dash_comment_starts :
  forall s, first_is dash s && second_is dash s = false ->
            line_comment_dash s = None.
Proof.
  intros [|c [|d r]] H; cbn in *; try reflexivity. now rewrite H.
Qed.

Lemma hash_comment_starts :
  forall s, first_is hash s = false -> line_comment_hash s = None.
Proof. intros [|c r] H; cbn in *; [reflexivity | now rewrite H]. Qed.

Lemma block_comment_starts :
  forall s, first_is slash s && second_is star s = false ->
            block_comment s = None.
Proof.
  intros [|c [|d r]] H; cbn in *; try reflexivity. now rewrite H.
Qed.

Lemma quoted_starts :
  forall q s, first_is q s = false -> quoted q s = None.
Proof. intros q [|c r] H; cbn in *; [reflexivity | now rewrite H]. Qed.

(** *** How far each matcher goes *)

Lemma rest_of_line_stops :
  forall b rest,
    contains_char is_newline b = false ->
    rest = "" \/ first_is is_newline rest = true ->
    rest_of_line (b ++ rest) = String.length b.
Proof.
  induction b as [|c b IH]; intros rest Hb Hrest.
  - destruct rest as [|d r]; [reflexivity|].
    destruct Hrest as [Hrest|Hrest]; [discriminate|].
    cbn in *. now rewrite Hrest.
  - cbn [contains_char] in Hb. apply orb_false_iff in Hb.
    destruct Hb as [Hc Hb]. cbn [append rest_of_line String.length].
    rewrite Hc. now rewrite IH.
Qed.

Lemma until_close_finds :
  forall b rest,
    free2 star slash b = true ->
    until_close (b ++ "*/" ++ rest) = Some (String.length b + 2).
Proof.
  induction b as [|c b IH]; intros rest Hb.
  - reflexivity.
  - cbn [free2] in Hb. apply andb_true_iff in Hb.
    destruct Hb as [Hc Hb]. apply negb_true_iff in Hc.
    cbn [append until_close String.length].
    specialize (IH rest Hb).
    destruct b as [|d b].
    + cbn [append] in *. cbn [first_is] in Hc.
      replace (star c && slash "*"%char) with false
        by (symmetry; apply andb_false_r).
      cbn [append] in IH. rewrite IH. reflexivity.
    + cbn [append] in *. cbn [first_is] in Hc. rewrite Hc.
      rewrite IH. reflexivity.
Qed.

Lemma quoted_body_closes :
  forall q qc n b rest,
    String.length b <= n ->
    q qc = true ->
    well_escaped q b = true ->
    quoted_body q (b ++ String qc rest) = Some (String.length b + 1).
Proof.
  intros q qc. induction n as [|n IH]; intros b rest Hn Hq Hb.
  - destruct b; [|simpl in Hn; lia]. cbn. now rewrite Hq.
  - destruct b as [|c b]; [cbn; now rewrite Hq|].
    cbn [well_escaped] in Hb. cbn [append quoted_body String.length].
    destruct (q c); [discriminate|].
    destruct (backslash c).
    + destruct b as [|d b]; [discriminate|].
      apply andb_true_iff in Hb. destruct Hb as [Hd Hb].
      apply negb_true_iff in Hd. cbn [append]. rewrite Hd.
      rewrite IH; [|simpl in *; lia|exact Hq|exact Hb].
      reflexivity.
    + rewrite IH; [|simpl in *; lia|exact Hq|exact Hb]. reflexivity.
Qed.

(** *** One pass over a tame statement *)

Lemma quiet_wrapped :
  forall m pre b post rest,
    quiet m pre ((b ++ post) ++ rest) ->
    quiet m b (post ++ rest) ->
    quiet m post rest ->
    quiet m (pre ++ b ++ post) rest.
Proof.
  intros m pre b post rest Hpre Hb Hpost.
  apply quiet_app; [exact Hpre|]. now apply quiet_app.
Qed.

Lemma line_end_text :
  forall tail k,
    line_end tail = true ->
    text_after k tail = ""
    \/ first_is is_newline (text_after k tail) = true.
Proof.
  intros [|[s| | | | |] tail] k H; try discriminate.
  - now left.
  - right. destruct s as [|c s]; [discriminate|]. exact H.
Qed.

Lemma newline_is_no_dash :
  forall rest,
    rest = "" \/ first_is is_newline rest = true ->
    first_is dash rest = false.
Proof.
  intros [|c r] [H|H]; try reflexivity; try discriminate.
  cbn in *. unfold is_newline, dash, is_char in *.
  apply Nat.eqb_eq in H. now rewrite H.
Qed.

Ltac bools :=
  repeat match goal with
         | H : _ && _ = true |- _ =>
             apply andb_true_iff in H; destruct H
         | H : negb _ = true |- _ => apply negb_true_iff in H
         end.

Lemma dash_comment_starts1 :
  forall s, first_is dash s = false -> line_comment_dash s = None.
Proof. intros s H. apply dash_comment_starts. now rewrite H. Qed.

Lemma block_comment_starts1 :
  forall s, first_is slash s = false -> block_comment s = None.
Proof. intros s H. apply block_comment_starts. now rewrite H. Qed.

(** the dash pass inside a line: a [--] is taken with all that follows
    up to the end of the line, and the pass starts afresh after it *)
Lemma sub_dash_line :
  forall b,
    contains_char is_newline b = false ->
    contains_char is_newline (sub line_comment_dash " " b) = false
    /\ forall rest,
         rest = "" \/ first_is is_newline rest = true ->
         sub line_comment_dash " " (b ++ rest)
         = sub line_comment_dash " " b ++ sub line_comment_dash " " rest.
Proof.
  induction b as [|c b IH]; intros Hb.
  - split; [reflexivity | intros; reflexivity].
  - cbn [contains_char] in Hb. apply orb_false_iff in Hb.
    destruct Hb as [Hc Hb]. destruct (IH Hb) as [IH1 IH2].
    destruct (dash c && first_is dash b) eqn:Hdd.
    + destruct b as [|d b]; [now rewrite andb_false_r in Hdd|].
      cbn [first_is] in Hdd.
      cbn [contains_char] in Hb. apply orb_false_iff in Hb.
      destruct Hb as [_ Hb].
      assert (Hcut : forall rest,
                 rest = "" \/ first_is is_newline rest = true ->
                 sub line_comment_dash " " (String c (String d b) ++ rest)
                 = " " ++ sub line_comment_dash " " rest).
      { intros rest Hrest. apply sub_match.
        cbn [append line_comment_dash String.length]. rewrite Hdd.
        now rewrite rest_of_line_stops. }
      assert (Halone : sub line_comment_dash " " (String c (String d b))
                       = " ").
      { rewrite <- (append_empty_r (String c (String d b))).
        rewrite Hcut by now left. reflexivity. }
      rewrite Halone. split; [reflexivity|].
      intros rest Hrest. now apply Hcut.
    + assert (Hnone : forall rest,
                 rest = "" \/ first_is is_newline rest = true ->
                 line_comment_dash (String c (b ++ rest)) = None).
      { intros rest Hrest. apply dash_comment_starts.
        cbn [first_is second_is].
        destruct b as [|d b]; [|exact Hdd].
        cbn [append]. rewrite (newline_is_no_dash _ Hrest).
        apply andb_false_r. }
      assert (Hstep : forall rest,
                 rest = "" \/ first_is is_newline rest = true ->
                 sub line_comment_dash " " (String c (b ++ rest))
                 = String c (sub line_comment_dash " " (b ++ rest))).
      { intros rest Hrest. unfold sub. cbn [sub_aux].
        now rewrite Hnone. }
      assert (Halone : sub line_comment_dash " " (String c b)
                       = String c (sub line_comment_dash " " b)).
      { pose proof (Hstep "" ltac:(now left)) as H.
        now rewrite !append_empty_r in H. }
      rewrite Halone. split.
      * cbn [contains_char]. now rewrite Hc, IH1.
      * intros rest Hrest. cbn [append].
        now rewrite Hstep, IH2.
Qed.

(** *** The statement once the dash pass has met it *)

Lemma first_is_append :
  forall p a b,
    first_is p (a ++ b)
    = match a with EmptyString => first_is p b | String _ _ => first_is p a end.
Proof. intros p [|c a] b; reflexivity. Qed.

Lemma first_is_dashed :
  forall p segs,
    first_is p (render_all (map dashed segs)) = first_is p (render_all segs).
Proof.
  unfold render_all. induction segs as [|seg tail IH]; [reflexivity|].
  cbn [map text_after].
  destruct seg as [s|b|b|b|b|b]; cbn [dashed render_after Nat.leb];
    try reflexivity.
  rewrite !first_is_append. destruct s; [exact IH | reflexivity].
Qed.

Lemma line_end_dashed :
  forall segs, line_end (map dashed segs) = line_end segs.
Proof. intros [|[s|b|b|b|b|b] tail]; reflexivity. Qed.

Lemma lexical_dashed :
  forall segs, lexical segs = true -> lexical (map dashed segs) = true.
Proof.
  induction segs as [|seg tail IH]; intros H; [reflexivity|].
  cbn [map lexical] in *. bools.
  rewrite IH by assumption. rewrite andb_true_r.
  apply andb_true_iff. split.
  - destruct seg as [s|b|b|b|b|b]; cbn [dashed]; try assumption.
    cbn [lexical_segment] in *. bools. apply negb_true_iff.
    now apply sub_dash_line.
  - rewrite line_end_dashed.
    destruct seg as [s|b|b|b|b|b]; cbn [dashed is_line_comment] in *;
      assumption.
Qed.

Lemma tame_dashed :
  forall segs, tame segs = true -> tame (map dashed segs) = true.
Proof.
  induction segs as [|seg tail IH]; intros H; [reflexivity|].
  cbn [map tame] in *. bools.
  rewrite IH by assumption. rewrite andb_true_r.
  destruct seg as [s|b|b|b|b|b]; cbn [dashed tame_segment] in *;
    try assumption; try reflexivity.
  unfold joins in *. now rewrite !first_is_dashed.
Qed.

Lemma text_after_dashed :
  forall k segs,
    2 <= k -> text_after k (map dashed segs) = text_after k segs.
Proof.
  intros k segs Hk. induction segs as [|seg tail IH]; [reflexivity|].
  cbn [map text_after]. rewrite IH.
  destruct seg as [s|b|b|b|b|b]; cbn [dashed render_after];
    try reflexivity.
  now replace (Nat.leb 2 k) with true by (symmetry; now apply Nat.leb_le).
Qed.

(** no segment but code begins with a star *)
Lemma first_star_after :
  forall k segs,
    first_is star (text_after k segs) = first_is star (text_after 0 segs).
Proof.
  intros k. induction segs as [|seg tail IH]; [reflexivity|].
  cbn [text_after].
  destruct seg as [s|b|b|b|b|b]; cbn [render_after Nat.leb].
  - rewrite !first_is_append. destruct s; [exact IH | reflexivity].
  - destruct k; reflexivity.
  - destruct k as [|[|k]]; reflexivity.
  - destruct k as [|[|[|k]]]; reflexivity.
  - destruct k as [|[|[|[|k]]]]; reflexivity.
  - destruct k as [|[|[|[|[|k]]]]]; reflexivity.
Qed.

(** pass 1 removes the dash comments, and what it takes for one in the
    body of a hash comment *)
Lemma pass_dash :
  forall segs,
    lexical segs = true -> tame segs = true ->
    pass 1 (text_after 0 segs) = text_after 1 (map dashed segs).
Proof.
  induction segs as [|seg tail IH]; intros Hlex Htame; [reflexivity|].
  cbn [map text_after]. cbn [lexical tame] in Hlex, Htame. bools.
  specialize (IH ltac:(assumption) ltac:(assumption)).
  cbn [pass] in *.
  destruct seg as [s|b|b|b|b|b];
    unfold lexical_segment, tame_segment, unmarked in *; bools;
    cbn [dashed render_after Nat.leb is_line_comment] in *.
  - rewrite sub_quiet, IH; [reflexivity|].
    apply (quiet_free2 _ dash dash dash_comment_starts); [assumption|].
    match goal with
    | H : joins _ _ = false |- _ =>
        apply orb_false_iff in H; destruct H as [H _]; exact H
    end.
  - pose proof (line_end_text tail 0 ltac:(assumption)) as Hend.
    change ("--" ++ b) with (String "-" ("-" ++ b)).
    rewrite sub_match, IH; [reflexivity|].
    cbn [append line_comment_dash String.length]. cbn.
    now rewrite rest_of_line_stops.
  - pose proof (line_end_text tail 0 ltac:(assumption)) as Hend.
    destruct (sub_dash_line b ltac:(assumption)) as [_ Hsub].
    rewrite append_assoc, sub_quiet.
    + rewrite Hsub, IH by assumption. now rewrite append_assoc.
    + apply (quiet_without _ dash); [|reflexivity].
      intros x Hx. now apply dash_comment_starts1.
  - rewrite sub_quiet, IH; [reflexivity|].
    apply quiet_wrapped.
    + apply (quiet_without _ dash); [|reflexivity].
      intros x Hx. now apply dash_comment_starts1.
    + apply (quiet_free2 _ dash dash dash_comment_starts); [assumption|].
      apply andb_false_r.
    + apply (quiet_without _ dash); [|reflexivity].
      intros x Hx. now apply dash_comment_starts1.
  - rewrite sub_quiet, IH; [reflexivity|].
    apply quiet_wrapped.
    + apply (quiet_without _ dash); [|reflexivity].
      intros x Hx. now apply dash_comment_starts1.
    + apply (quiet_free2 _ dash dash dash_comment_starts); [assumption|].
      apply andb_false_r.
    + apply (quiet_without _ dash); [|reflexivity].
      intros x Hx. now apply dash_comment_starts1.
  - rewrite sub_quiet, IH; [reflexivity|].
    apply quiet_wrapped.
    + apply (quiet_without _ dash); [|reflexivity].
      intros x Hx. now apply dash_comment_starts1.
    + apply (quiet_free2 _ dash dash dash_comment_starts); [assumption|].
      apply andb_false_r.
    + apply (quiet_without _ dash); [|reflexivity].
      intros x Hx. now apply dash_comment_starts1.
Qed.

(** a stretch without the character that sets the matcher off *)
Ltac silent starts :=
  apply (quiet_without _ _ starts); first [reflexivity | assumption].

Ltac silent_wrapped starts :=
  apply quiet_wrapped; silent starts.

(** pass 2 removes the hash comments and nothing else *)
Lemma pass_hash :
  forall segs,
    lexical segs = true -> tame segs = true ->
    pass 2 (text_after 1 segs) = text_after 2 segs.
Proof.
  induction segs as [|seg tail IH]; intros Hlex Htame; [reflexivity|].
  cbn [text_after]. cbn [lexical tame] in Hlex, Htame. bools.
  specialize (IH ltac:(assumption) ltac:(assumption)).
  cbn [pass] in *.
  destruct seg as [s|b|b|b|b|b];
    unfold lexical_segment, tame_segment, unmarked in *; bools;
    cbn [render_after Nat.leb is_line_comment] in *.
  - rewrite sub_quiet, IH; [reflexivity|]. silent hash_comment_starts.
  - rewrite sub_quiet, IH; [reflexivity|]. silent hash_comment_starts.
  - pose proof (line_end_text tail 1 ltac:(assumption)) as Hend.
    change ("#" ++ b) with (String "#" b).
    rewrite sub_match, IH; [reflexivity|].
    cbn [append line_comment_hash String.length]. cbn.
    now rewrite rest_of_line_stops.
  - rewrite sub_quiet, IH; [reflexivity|].
    silent_wrapped hash_comment_starts.
  - rewrite sub_quiet, IH; [reflexivity|].
    silent_wrapped hash_comment_starts.
  - rewrite sub_quiet, IH; [reflexivity|].
    silent_wrapped hash_comment_starts.
Qed.

(** pass 3 removes the block comments and nothing else *)
Lemma pass_block :
  forall segs,
    lexical segs = true -> tame segs = true ->
    pass 3 (text_after 2 segs) = text_after 3 segs.
Proof.
  induction segs as [|seg tail IH]; intros Hlex Htame; [reflexivity|].
  cbn [text_after]. cbn [lexical tame] in Hlex, Htame. bools.
  specialize (IH ltac:(assumption) ltac:(assumption)).
  cbn [pass] in *.
  destruct seg as [s|b|b|b|b|b];
    unfold lexical_segment, tame_segment, unmarked in *; bools;
    cbn [render_after Nat.leb is_line_comment] in *.
  - rewrite sub_quiet, IH; [reflexivity|].
    apply (quiet_free2 _ slash star block_comment_starts); [assumption|].
    rewrite first_star_after.
    match goal with
    | H : joins _ _ = false |- _ =>
        apply orb_false_iff in H; destruct H as [_ H]; exact H
    end.
  - rewrite sub_quiet, IH; [reflexivity|]. silent block_comment_starts1.
  - rewrite sub_quiet, IH; [reflexivity|]. silent block_comment_starts1.
  - change ("/*" ++ b ++ "*/") with (String "/" ("*" ++ b ++ "*/")).
    rewrite sub_match, IH; [reflexivity|].
    cbn [append block_comment String.length].
    replace (slash "/"%char && star "*"%char) with true by reflexivity.
    rewrite append_assoc, until_close_finds by assumption.
    rewrite length_append. reflexivity.
  - rewrite sub_quiet, IH; [reflexivity|].
    apply quiet_wrapped.
    + silent block_comment_starts1.
    + apply (quiet_free2 _ slash star block_comment_starts); [assumption|].
      apply andb_false_r.
    + silent block_comment_starts1.
  - rewrite sub_quiet, IH; [reflexivity|].
    apply quiet_wrapped.
    + silent block_comment_starts1.
    + apply (quiet_free2 _ slash star block_comment_starts); [assumption|].
      apply andb_false_r.
    + silent block_comment_starts1.
Qed.

(** pass 4 empties the single-quoted literals and nothing else *)
Lemma pass_single_quoted :
  forall segs,
    lexical segs = true -> tame segs = true ->
    pass 4 (text_after 3 segs) = text_after 4 segs.
Proof.
  induction segs as [|seg tail IH]; intros Hlex Htame; [reflexivity|].
  cbn [text_after]. cbn [lexical tame] in Hlex, Htame. bools.
  specialize (IH ltac:(assumption) ltac:(assumption)).
  cbn [pass] in *.
  destruct seg as [s|b|b|b|b|b];
    unfold lexical_segment, tame_segment, unmarked in *; bools;
    cbn [render_after Nat.leb is_line_comment] in *.
  - rewrite sub_quiet, IH; [reflexivity|]. silent (quoted_starts squote).
  - rewrite sub_quiet, IH; [reflexivity|]. silent (quoted_starts squote).
  - rewrite sub_quiet, IH; [reflexivity|]. silent (quoted_starts squote).
  - rewrite sub_quiet, IH; [reflexivity|]. silent (quoted_starts squote).
  - change (one squote_char ++ b ++ one squote_char)
      with (String squote_char (b ++ one squote_char)).
    rewrite sub_match, IH; [reflexivity|].
    cbn [append quoted String.length].
    replace (squote squote_char) with true by reflexivity.
    rewrite append_assoc. cbn [one append].
    rewrite (quoted_body_closes squote squote_char (String.length b))
      by (first [lia | reflexivity | assumption]).
    rewrite length_append. reflexivity.
  - rewrite sub_quiet, IH; [reflexivity|].
    silent_wrapped (quoted_starts squote).
Qed.

(** pass 5 empties the double-quoted literals and nothing else *)
Lemma pass_double_quoted :
  forall segs,
    lexical segs = true -> tame segs = true ->
    pass 5 (text_after 4 segs) = text_after 5 segs.
Proof.
  induction segs as [|seg tail IH]; intros Hlex Htame; [reflexivity|].
  cbn [text_after]. cbn [lexical tame] in Hlex, Htame. bools.
  specialize (IH ltac:(assumption) ltac:(assumption)).
  cbn [pass] in *.
  destruct seg as [s|b|b|b|b|b];
    unfold lexical_segment, tame_segment, unmarked in *; bools;
    cbn [render_after Nat.leb is_line_comment] in *.
  - rewrite sub_quiet, IH; [reflexivity|]. silent (quoted_starts dquote).
  - rewrite sub_quiet, IH; [reflexivity|]. silent (quoted_starts dquote).
  - rewrite sub_quiet, IH; [reflexivity|]. silent (quoted_starts dquote).
  - rewrite sub_quiet, IH; [reflexivity|]. silent (quoted_starts dquote).
  - rewrite sub_quiet, IH; [reflexivity|]. silent (quoted_starts dquote).
  - change (one dquote_char ++ b ++ one dquote_char)
      with (String dquote_char (b ++ one dquote_char)).
    rewrite sub_match, IH; [reflexivity|].
    cbn [append quoted String.length].
    replace (dquote dquote_char) with true by reflexivity.
    rewrite append_assoc. cbn [one append].
    rewrite (quoted_body_closes dquote dquote_char (String.length b))
      by (first [lia | reflexivity | assumption]).
    rewrite length_append. reflexivity.
Qed.

(** on a tame statement the scrubber leaves the statement outside its
    comments and literals *)
Lemma scrub_tame :
  forall segs,
    lexical segs = true -> tame segs = true ->
    _remove_comments_and_strings (render_all segs) = outside_all segs.
Proof.
  intros segs Hlex Htame.
  pose proof (lexical_dashed segs Hlex) as Hlex'.
  pose proof (tame_dashed segs Htame) as Htame'.
  change (_remove_comments_and_strings (render_all segs))
    with (pass 5 (pass 4 (pass 3 (pass 2 (pass 1 (text_after 0 segs)))))).
  rewrite pass_dash by assumption.
  rewrite pass_hash, pass_block, pass_single_quoted, pass_double_quoted
    by assumption.
  unfold outside_all. apply text_after_dashed. lia.
Qed.

End ScannerFacts.

(* ================================================================= *)
(** ** The keyword scan does not tell the cases apart *)

(* ================================================================= *)
(** ** Text: reversal, stripping and counting *)

Module TextFacts.
Import Text Re Scanner Spec Notions ScannerFacts.
Local Open Scope string_scope.

Lemma rev_onto_append :
  forall s acc, rev_onto s acc = rev s ++ acc.
Proof.
  unfold rev. induction s as [|c s IH]; intros acc; simpl.
  - reflexivity.
  - rewrite IH, (IH (String c "")), append_assoc. reflexivity.
Qed.

Lemma rev_cons : forall c s, rev (String c s) = rev s ++ String c "".
Proof. intros c s. unfold rev at 1. simpl. apply rev_onto_append. Qed.

Lemma rev_append : forall a b, rev (a ++ b) = rev b ++ rev a.
Proof.
  induction a as [|c a IH]; intros b.
  - simpl. now rewrite append_empty_r.
  - cbn [append]. rewrite !rev_cons, IH, append_assoc. reflexivity.
Qed.

Lemma rev_involutive : forall s, rev (rev s) = s.
Proof.
  induction s as [|c s IH]; [reflexivity|].
  rewrite rev_cons, rev_append, IH. reflexivity.
Qed.

Lemma count_append :
  forall p a b, count_char p (a ++ b) = count_char p a + count_char p b.
Proof.
  induction a as [|c a IH]; intros b; simpl; [reflexivity|].
  rewrite IH. lia.
Qed.

Lemma count_rev : forall p s, count_char p (rev s) = count_char p s.
Proof.
  induction s as [|c s IH]; [reflexivity|].
  rewrite rev_cons, count_append, IH. simpl. lia.
Qed.

Lemma count_none_iff :
  forall p s, contains_char p s = false <-> count_char p s = 0.
Proof.
  induction s as [|c s IH]; simpl; [tauto|].
  destruct (p c); simpl.
  - split; [discriminate | lia].
  - exact IH.
Qed.

Lemma all_chars_append :
  forall p a b, all_chars p (a ++ b) = all_chars p a && all_chars p b.
Proof.
  induction a as [|c a IH]; intros b; simpl; [reflexivity|].
  now rewrite IH, andb_assoc.
Qed.

Lemma all_chars_rev : forall p s, all_chars p (rev s) = all_chars p s.
Proof.
  induction s as [|c s IH]; [reflexivity|].
  rewrite rev_cons, all_chars_append, IH. simpl.
  rewrite andb_true_r. apply andb_comm.
Qed.

Lemma last_is_append_one :
  forall p s c, last_is p (s ++ String c "") = p c.
Proof.
  induction s as [|d s IH]; intros c; [reflexivity|].
  cbn [append last_is]. rewrite IH.
  destruct s; reflexivity.
Qed.

Lemma first_is_rev : forall p s, first_is p (rev s) = last_is p s.
Proof.
  intros p s. rewrite <- (rev_involutive s) at 2.
  destruct (rev s) as [|c r]; [reflexivity|].
  rewrite rev_cons, last_is_append_one. reflexivity.
Qed.

(** [lstrip] takes a run of stripped characters off the front *)
Lemma lstrip_split :
  forall p s,
    exists pre,
      s = pre ++ lstrip_by p s
      /\ all_chars p pre = true
      /\ first_is p (lstrip_by p s) = false.
Proof.
  induction s as [|c s [pre [Hs [Hpre Hfirst]]]]; simpl.
  - exists "". auto.
  - destruct (p c) eqn:Hc.
    + exists (String c pre). simpl. rewrite Hc, <- Hs. auto.
    + exists "". simpl. auto.
Qed.

(** [rstrip] takes a run of stripped characters off the end *)
Lemma rstrip_split :
  forall p s,
    exists suf,
      s = rstrip_by p s ++ suf
      /\ all_chars p suf = true
      /\ last_is p (rstrip_by p s) = false.
Proof.
  intros p s. unfold rstrip_by.
  destruct (lstrip_split p (rev s)) as [pre [Hs [Hpre Hfirst]]].
  exists (rev pre). split; [|split].
  - rewrite <- rev_append, <- Hs. symmetry. apply rev_involutive.
  - now rewrite all_chars_rev.
  - now rewrite <- first_is_rev, rev_involutive.
Qed.

Lemma count_all_chars :
  forall (p q : char -> bool) s,
    (forall c, q c = true -> p c = false) ->
    all_chars q s = true -> count_char p s = 0.
Proof.
  induction s as [|c s IH]; intros Hpq H; simpl in *; [reflexivity|].
  apply andb_true_iff in H. destruct H as [Hc H].
  rewrite (Hpq c Hc), IH by assumption. reflexivity.
Qed.

Lemma count_lstrip :
  forall (p q : char -> bool) s,
    (forall c, q c = true -> p c = false) ->
    count_char p (lstrip_by q s) = count_char p s.
Proof.
  intros p q s Hpq.
  destruct (lstrip_split q s) as [pre [Hs [Hpre _]]].
  rewrite Hs at 2. rewrite count_append.
  rewrite (count_all_chars p q pre Hpq Hpre). reflexivity.
Qed.

Lemma count_rstrip :
  forall (p q : char -> bool) s,
    (forall c, q c = true -> p c = false) ->
    count_char p (rstrip_by q s) = count_char p s.
Proof.
  intros p q s Hpq. unfold rstrip_by.
  now rewrite count_rev, count_lstrip, count_rev.
Qed.

Lemma space_is_no_semicolon :
  forall c, is_space c = true -> is_semicolon c = false.
Proof.
  intros c H. apply (Chars.space_not_code 59 c); [|exact H].
  vm_compute. reflexivity.
Qed.

Lemma count_strip :
  forall s, count_char is_semicolon (strip s) = count_char is_semicolon s.
Proof.
  intros s. unfold strip.
  rewrite count_rstrip, count_lstrip by apply space_is_no_semicolon.
  reflexivity.
Qed.

(** a text that ends with a semicolon is the rest, then the semicolon *)
Lemma endswith_semicolon :
  forall t,
    endswith t ";" = true ->
    t = drop_last t ++ ";"
    /\ count_char is_semicolon t = S (count_char is_semicolon (drop_last t)).
Proof.
  intros t H. unfold endswith, drop_last in *.
  change (rev ";") with ";" in H.
  destruct (rev t) as [|c r] eqn:Hrev; [discriminate|].
  cbn [prefix] in H.
  destruct (Chars.char_eqb_spec ";" c) as [<-|]; [|discriminate].
  assert (Ht : t = rev r ++ ";").
  { rewrite <- (rev_involutive t), Hrev, rev_cons. reflexivity. }
  split; [exact Ht|].
  rewrite Ht at 1. rewrite count_append. simpl. lia.
Qed.

Lemma not_endswith_semicolon :
  forall t, endswith t ";" = false -> last_is is_semicolon t = false.
Proof.
  intros t H. unfold endswith in H. change (rev ";") with ";" in H.
  rewrite <- first_is_rev.
  destruct (rev t) as [|c r]; [reflexivity|].
  cbn [prefix first_is] in *.
  destruct (Chars.char_eqb_spec ";" c) as [<-|Hne].
  - destruct r; discriminate.
  - destruct (is_semicolon c) eqn:E; [|reflexivity].
    apply Chars.is_code in E. exfalso. apply Hne. now rewrite E.
Qed.

End TextFacts.

(* ================================================================= *)
(** ** What the patterns of the denylist find *)

Module PhraseFacts.
Import Text Re Scanner Spec Notions ScannerFacts TextFacts LetterFacts.
Local Open Scope string_scope.

Lemma last_or_of_word :
  forall m prev,
    m <> "" -> all_chars is_word m = true ->
    word_opt (last_or prev m) = true.
Proof.
  induction m as [|c m IH]; intros prev Hne H; [contradiction|].
  cbn [all_chars] in H. apply andb_true_iff in H. destruct H as [Hc H].
  cbn [last_or]. destruct m as [|d m]; [exact Hc|].
  apply IH; [discriminate | exact H].
Qed.

Lemma last_or_last_is :
  forall a, word_opt (last_or None a) = last_is is_word a.
Proof.
  assert (H : forall a prev,
             word_opt (last_or prev a)
             = match a with
               | EmptyString => word_opt prev
               | String _ _ => last_is is_word a
               end).
  { induction a as [|c a IH]; intros prev; [reflexivity|].
    cbn [last_or last_is]. rewrite IH. destruct a; reflexivity. }
  intros a. rewrite H. destruct a; reflexivity.
Qed.

Lemma head_first_is :
  forall s, word_opt (head s) = first_is is_word s.
Proof. destruct s; reflexivity. Qed.

Lemma first_of_word :
  forall m r,
    m <> "" -> all_chars is_word m = true ->
    first_is is_word (m ++ r) = true.
Proof.
  intros [|c m] r Hne H; [contradiction|].
  cbn [all_chars] in H. now apply andb_true_iff in H.
Qed.

(** a search finds the place where the pattern matches *)
Lemma search_from_finds :
  forall p s prev,
    search_from p prev s = true <->
    exists a rest, s = a ++ rest /\ match_here p (last_or prev a) rest = true.
Proof.
  intros p. induction s as [|c s IH]; intros prev; cbn [search_from].
  - rewrite orb_false_r. split.
    + intros H. exists "", "". auto.
    + intros [a [rest [Hs H]]].
      destruct a; [|discriminate]. destruct rest; [|discriminate].
      exact H.
  - split.
    + intros H. apply orb_true_iff in H. destruct H as [H|H].
      * exists "", (String c s). auto.
      * apply IH in H. destruct H as [a [rest [-> H]]].
        exists (String c a), rest. auto.
    + intros [a [rest [Hs H]]]. apply orb_true_iff.
      destruct a as [|d a].
      * left. cbn in Hs. subst rest. exact H.
      * right. cbn [append] in Hs. injection Hs as <- ->.
        apply IH. exists a, rest. auto.
Qed.

Section Continuation.
Variable k : option char -> string -> bool.

(** a literal matches one of its spellings *)
Lemma eat_then_finds :
  forall w prev s,
    eat_then k prev s w = true <->
    exists m r,
      s = m ++ r /\ spelled w m = true /\ k (last_or prev m) r = true.
Proof.
  intros w prev s. unfold eat_then. split.
  - destruct (eat w prev s) as [[p r]|] eqn:E; [|discriminate].
    intros H. destruct (eat_split _ _ _ _ _ E) as [m [-> [Hm ->]]].
    exists m, r. auto.
  - intros [m [r [-> [Hm H]]]]. now rewrite (eat_complete w m prev r Hm).
Qed.

(** a starred class matches a run of its characters *)
Lemma star0_finds :
  forall cls s prev,
    star0 cls k prev s = true <->
    exists g rest,
      s = g ++ rest /\ all_chars cls g = true
      /\ k (last_or prev g) rest = true.
Proof.
  intros cls. induction s as [|c s IH]; intros prev; cbn [star0].
  - split.
    + intros H. exists "", "". auto.
    + intros [g [rest [Hs [_ H]]]].
      destruct g; [|discriminate]. destruct rest; [|discriminate].
      exact H.
  - split.
    + intros H. apply orb_true_iff in H. destruct H as [H|H].
      * apply andb_true_iff in H. destruct H as [Hc H]. apply IH in H.
        destruct H as [g [rest [-> [Hg H]]]].
        exists (String c g), rest. cbn [append all_chars last_or].
        rewrite Hc. auto.
      * exists "", (String c s). auto.
    + intros [g [rest [Hs [Hg H]]]]. apply orb_true_iff.
      destruct g as [|d g].
      * right. cbn in Hs. subst rest. exact H.
      * left. cbn [append] in Hs. injection Hs as <- ->.
        cbn [all_chars] in Hg. apply andb_true_iff in Hg.
        destruct Hg as [Hc Hg]. rewrite Hc. apply IH.
        exists g, rest. auto.
Qed.

Lemma plus1_finds :
  forall cls s prev,
    plus1 cls k prev s = true <->
    exists g rest,
      s = g ++ rest /\ g <> "" /\ all_chars cls g = true
      /\ k (last_or prev g) rest = true.
Proof.
  intros cls [|c s] prev; cbn [plus1].
  - split; [discriminate|]. intros [g [rest [Hs [Hne _]]]].
    destruct g; [contradiction | discriminate].
  - split.
    + intros H. apply andb_true_iff in H. destruct H as [Hc H].
      apply star0_finds in H. destruct H as [g [rest [-> [Hg H]]]].
      exists (String c g), rest. cbn [append all_chars last_or].
      rewrite Hc. repeat split; auto. discriminate.
    + intros [g [rest [Hs [Hne [Hg H]]]]].
      destruct g as [|d g]; [contradiction|].
      cbn [append] in Hs. injection Hs as <- ->.
      cbn [all_chars] in Hg. apply andb_true_iff in Hg.
      destruct Hg as [Hc Hg]. rewrite Hc. apply star0_finds.
      exists g, rest. auto.
Qed.
End Continuation.

Lemma proper_word_facts :
  forall w,
    proper_word w = true -> w <> "" /\ all_chars is_word w = true.
Proof.
  intros w H. unfold proper_word in H. apply andb_true_iff in H.
  destruct H as [Hne Hw]. split; [|exact Hw].
  destruct w; [discriminate Hne | discriminate].
Qed.

(** a spelling of a proper word is not empty and is made of word
    characters: a word character ends it and begins it *)
Lemma spelling_facts :
  forall w m prev r,
    proper_word w = true -> spelled w m = true ->
    word_opt (last_or prev m) = true
    /\ first_is is_word (m ++ r) = true.
Proof.
  intros w m prev r Hw Hm.
  destruct (proper_word_facts w Hw) as [Hne Hall].
  pose proof (spelled_word _ _ Hm Hall) as Hmw.
  pose proof (spelled_not_empty _ _ Hm Hne) as Hmne.
  split; [now apply last_or_of_word | now apply first_of_word].
Qed.

Lemma boundary_before :
  forall a rest,
    first_is is_word rest = true ->
    at_boundary (last_or None a) rest = negb (last_is is_word a).
Proof.
  intros a rest H. unfold at_boundary.
  rewrite head_first_is, H, last_or_last_is.
  now destruct (last_is is_word a).
Qed.

Lemma boundary_after :
  forall p b,
    word_opt p = true ->
    at_boundary p b = negb (first_is is_word b).
Proof.
  intros p b H. unfold at_boundary. now rewrite head_first_is, H.
Qed.

Lemma spelled_paren : forall m, spelled "(" m = true <-> m = "(".
Proof.
  intros m. split.
  - destruct m as [|c [|d m]]; cbn [spelled]; try discriminate.
    + rewrite andb_true_r. unfold same_letter.
      change (is_upper "(" || is_lower "(") with false. cbv iota.
      intros H. destruct (Chars.char_eqb_spec "(" c); [now subst | discriminate].
    + now rewrite andb_false_r.
  - intros ->. reflexivity.
Qed.

(** a pattern [\bWORD\b] finds the whole words *)
Lemma word_found_iff :
  forall w s,
    proper_word w = true ->
    (search [Boundary; Lit w; Boundary] s = true <-> whole_word w s).
Proof.
  intros w s Hw. unfold search, whole_word. rewrite search_from_finds.
  split.
  - intros [a [rest [-> H]]]. cbn [match_here] in H.
    apply andb_true_iff in H. destruct H as [Hb H].
    apply eat_then_finds in H. destruct H as [m [b [-> [Hm H]]]].
    destruct (spelling_facts w m (last_or None a) b Hw Hm) as [Hl Hf].
    rewrite boundary_before in Hb by exact Hf.
    rewrite andb_true_r, boundary_after in H by exact Hl.
    apply negb_true_iff in Hb, H.
    exists a, m, b. auto.
  - intros [a [m [b [-> [Hm [Ha Hb]]]]]].
    destruct (spelling_facts w m (last_or None a) b Hw Hm) as [Hl Hf].
    exists a, (m ++ b). split; [reflexivity|]. cbn [match_here].
    rewrite boundary_before, Ha by exact Hf. cbn [negb andb].
    apply eat_then_finds. exists m, b.
    rewrite andb_true_r, boundary_after, Hb by exact Hl. auto.
Qed.

(** a pattern [\bWORD\s+WORD\b] finds the two words with white space
    between them *)
Lemma words_found_iff :
  forall w1 w2 s,
    proper_word w1 = true -> proper_word w2 = true ->
    (search [Boundary; Lit w1; Plus is_space; Lit w2; Boundary] s = true
     <-> occurs (Words w1 w2) s).
Proof.
  intros w1 w2 s Hw1 Hw2. unfold search. cbn [occurs].
  rewrite search_from_finds. split.
  - intros [a [rest [-> H]]]. cbn [match_here] in H.
    apply andb_true_iff in H. destruct H as [Hb H].
    apply eat_then_finds in H. destruct H as [m1 [r1 [-> [Hm1 H]]]].
    apply plus1_finds in H. destruct H as [g [r2 [-> [Hg [Hsp H]]]]].
    apply eat_then_finds in H. destruct H as [m2 [b [-> [Hm2 H]]]].
    destruct (spelling_facts w1 m1 (last_or None a) (g ++ m2 ++ b) Hw1 Hm1)
      as [_ Hf].
    destruct (spelling_facts w2 m2
                (last_or (last_or (last_or None a) m1) g) b Hw2 Hm2)
      as [Hl _].
    rewrite boundary_before in Hb by exact Hf.
    rewrite andb_true_r, boundary_after in H by exact Hl.
    apply negb_true_iff in Hb, H.
    exists a, m1, g, m2, b. auto 10.
  - intros [a [m1 [g [m2 [b [-> [Hm1 [Hg [Hsp [Hm2 [Ha Hb]]]]]]]]]]].
    destruct (spelling_facts w1 m1 (last_or None a) (g ++ m2 ++ b) Hw1 Hm1)
      as [_ Hf].
    destruct (spelling_facts w2 m2
                (last_or (last_or (last_or None a) m1) g) b Hw2 Hm2)
      as [Hl _].
    exists a, (m1 ++ g ++ m2 ++ b). split; [reflexivity|].
    cbn [match_here]. rewrite boundary_before, Ha by exact Hf.
    cbn [negb andb]. apply eat_then_finds. exists m1, (g ++ m2 ++ b).
    split; [reflexivity|]. split; [exact Hm1|].
    apply plus1_finds. exists g, (m2 ++ b).
    split; [reflexivity|]. split; [exact Hg|]. split; [exact Hsp|].
    apply eat_then_finds. exists m2, b.
    rewrite andb_true_r, boundary_after, Hb by exact Hl. auto.
Qed.

(** a pattern [\bWORD\s*\(] finds the word before an opening
    parenthesis, white space allowed between them *)
Lemma call_found_iff :
  forall f s,
    proper_word f = true ->
    (search [Boundary; Lit f; Star is_space; Lit "("] s = true
     <-> occurs (Call f) s).
Proof.
  intros f s Hf. unfold search. cbn [occurs].
  rewrite search_from_finds. split.
  - intros [a [rest [-> H]]]. cbn [match_here] in H.
    apply andb_true_iff in H. destruct H as [Hb H].
    apply eat_then_finds in H. destruct H as [m [r1 [-> [Hm H]]]].
    apply star0_finds in H. destruct H as [g [r2 [-> [Hsp H]]]].
    apply eat_then_finds in H. destruct H as [m2 [b [-> [Hm2 _]]]].
    apply spelled_paren in Hm2. subst m2.
    destruct (spelling_facts f m (last_or None a) (g ++ "(" ++ b) Hf Hm)
      as [_ Hfirst].
    rewrite boundary_before in Hb by exact Hfirst.
    apply negb_true_iff in Hb.
    exists a, m, g, b. auto.
  - intros [a [m [g [b [-> [Hm [Hsp Ha]]]]]]].
    destruct (spelling_facts f m (last_or None a) (g ++ "(" ++ b) Hf Hm)
      as [_ Hfirst].
    exists a, (m ++ g ++ "(" ++ b). split; [reflexivity|].
    cbn [match_here]. rewrite boundary_before, Ha by exact Hfirst.
    cbn [negb andb]. apply eat_then_finds. exists m, (g ++ "(" ++ b).
    split; [reflexivity|]. split; [exact Hm|].
    apply star0_finds. exists g, ("(" ++ b).
    split; [reflexivity|]. split; [exact Hsp|].
    apply eat_then_finds. exists "(", b. auto.
Qed.

(** the pattern of a phrase finds the phrase *)
Lemma found_iff :
  forall ph s,
    proper ph = true ->
    (search (pattern_of ph) s = true <-> occurs ph s).
Proof.
  intros [w|w1 w2|f] s H; cbn [proper pattern_of] in *.
  - now apply word_found_iff.
  - apply andb_true_iff in H. destruct H. now apply words_found_iff.
  - now apply call_found_iff.
Qed.

Lemma denylist_proper : forallb proper denylist = true.
Proof. vm_compute. reflexivity. Qed.

(** FORBIDDEN_TOKENS holds the patterns of the denylisted phrases *)
Lemma tokens_are_phrases :
  map atoms FORBIDDEN_TOKENS = map pattern_of denylist.
Proof. reflexivity. Qed.

(** the scan has a hit exactly when a denylisted phrase occurs *)
Lemma scan_finds_denylisted :
  forall s,
    existsb (fun t => search (atoms t) s) FORBIDDEN_TOKENS = true
    <-> denylisted s.
Proof.
  intros s. unfold denylisted. rewrite existsb_exists. split.
  - intros [t [Hin H]].
    assert (Hp : In (atoms t) (map pattern_of denylist))
      by (rewrite <- tokens_are_phrases; now apply in_map).
    apply in_map_iff in Hp. destruct Hp as [ph [Heq Hph]].
    exists ph. split; [exact Hph|].
    apply found_iff; [|now rewrite Heq].
    exact (Chars.checked _ _ _ _ denylist_proper Hph).
  - intros [ph [Hph H]].
    assert (Hp : In (pattern_of ph) (map atoms FORBIDDEN_TOKENS))
      by (rewrite tokens_are_phrases; now apply in_map).
    apply in_map_iff in Hp. destruct Hp as [t [Heq Ht]].
    exists t. split; [exact Ht|]. rewrite Heq.
    apply found_iff; [|exact H].
    exact (Chars.checked _ _ _ _ denylist_proper Hph).
Qed.

End PhraseFacts.

Module ScannerClaims.
Import Text Re Scanner Spec Ast Resolver Py Static Env ScannerFacts
  PhraseFacts Samples.

Lemma no_hits_iff :
  forall scrubbed,
    is_empty (forbidden_hits scrubbed)
    = negb (existsb (fun t => search (atoms t) scrubbed) FORBIDDEN_TOKENS).
Proof.
  intros scrubbed. unfold forbidden_hits.
  induction FORBIDDEN_TOKENS as [|t ts IH]; [reflexivity|].
  cbn [filter existsb]. destruct (search (atoms t) scrubbed).
  - reflexivity.
  - exact IH.
Qed.

(** when the statement parses, the finding is reported exactly when the
    scan of the scrubbed text has a hit *)
Lemma forbidden_finding_iff_hits :
  forall sql exprs snapshot r,
    static_check_sql sql (Returned exprs) snapshot = Returned r ->
    forbidden (check r) = forbidden_hits (_remove_comments_and_strings sql)
    /\ ((exists f, In f (findings r) /\ code f = "FORBIDDEN_TOKEN")
        <-> is_empty (forbidden (check r)) = false)
    /\ (is_empty (forbidden (check r)) = false ->
        readonly (check r) = fail /\ overall r = fail).
Proof.
  intros sql exprs snapshot r H. unfold static_check_sql in H.
  destruct snapshot as [e|schema_tables]; [discriminate|].
  match type of H with
  | context [match ?x with Raised _ => _ | Returned _ => _ end] =>
      destruct x as [e|[[mt mc] ac]]; [discriminate|]
  end.
  inversion H; subst; clear H.
  cbn [check forbidden findings readonly overall].
  split; [reflexivity|].
  destruct (is_empty (forbidden_hits (_remove_comments_and_strings sql)));
    cbn [negb orb].
  - split.
    + split; [|discriminate]. intros [f [Hin Hcode]].
      repeat match goal with
             | H : context [if ?b then _ else _] |- _ => destruct b
             end;
        repeat (apply in_app_or in Hin; destruct Hin as [Hin|Hin]);
        cbn [In] in Hin;
        repeat match goal with
               | H : _ \/ _ |- _ => destruct H
               | H : False |- _ => contradiction
               end; subst; discriminate.
    + discriminate.
  - split.
    + split; [reflexivity|]. intros _. eexists. split.
      * apply in_or_app. right. left. reflexivity.
      * reflexivity.
    + intros _. rewrite orb_true_r. cbn [status_eqb].
      rewrite orb_true_r. cbn [orb]. split; reflexivity.
Qed.

(** C2, as stated, on two statements.  In the first the keyword INTO
    OUTFILE stands outside the literals, but a literal holds a hash sign:
    the hash pass takes the rest of the line for a comment and the scan
    finds nothing, whatever the parser answers; the statement passes the
    two gates of the execution, which runs it on the store.  In the second
    the keyword DROP only stands inside a single-quoted literal, but a
    double-quoted literal before it holds a single quote: the single-quote
    pass pairs the quotes wrongly and the keyword is found, by the gate of
    the execution and, when the statement parses, by the static check. *)
Lemma scrubbing_ignores_lexical_context :
  (lexical hash_in_literal = true
   /\ render_all hash_in_literal
      = "SELECT '#' AS tag INTO OUTFILE '/tmp/x' FROM t"
   /\ occurs (Words "INTO" "OUTFILE") (outside_all hash_in_literal)
   /\ forbidden_hits (_remove_comments_and_strings
                        (render_all hash_in_literal)) = []
   /\ (forall parsed snapshot r,
          static_check_sql (render_all hash_in_literal) parsed snapshot
          = Returned r ->
          forbidden (check r) = []
          /\ ~ (exists f, In f (findings r) /\ code f = "FORBIDDEN_TOKEN"))
   /\ _is_single_statement (render_all hash_in_literal) = true
   /\ _is_readonly_select (render_all hash_in_literal) = true
   /\ In (Execute (Dynamic.count_sql (render_all hash_in_literal)))
        (trace (snd (Dynamic.dynamic_check_sql three_rows_world
                       (render_all hash_in_literal) 10 200 start))))
  /\ (lexical quote_in_literal = true
      /\ ~ denylisted (outside_all quote_in_literal)
      /\ forbidden_hits (_remove_comments_and_strings
                           (render_all quote_in_literal))
         = ["\bDROP\b"]
      /\ _is_readonly_select (render_all quote_in_literal) = false
      /\ (forall exprs snapshot r,
             static_check_sql (render_all quote_in_literal)
               (Returned exprs) snapshot = Returned r ->
             forbidden (check r) = ["\bDROP\b"]
             /\ overall r = fail
             /\ exists f, In f (findings r) /\ code f = "FORBIDDEN_TOKEN")).
Proof.
  split.
  - split; [vm_compute; reflexivity|]. split; [vm_compute; reflexivity|].
    split.
    { exists "SELECT '' AS tag ", "INTO", " ", "OUTFILE", " '' FROM t".
      repeat split; try (vm_compute; reflexivity). discriminate. }
    assert (Hnone : forbidden_hits (_remove_comments_and_strings
                                      (render_all hash_in_literal)) = [])
      by (vm_compute; reflexivity).
    split; [exact Hnone|]. split.
    { intros [e|exprs] snapshot r Hr.
      - cbn [static_check_sql] in Hr. injection Hr as <-.
        cbn [check forbidden initial_checks findings].
        split; [reflexivity|]. intros [f [[<-|[]] Hcode]]. discriminate.
      - destruct (forbidden_finding_iff_hits _ _ _ _ Hr)
          as [Hhits [Hiff _]].
        rewrite Hnone in Hhits. split; [exact Hhits|].
        intros Hf. apply Hiff in Hf. rewrite Hhits in Hf. discriminate. }
    split; [vm_compute; reflexivity|]. split; [vm_compute; reflexivity|].
    vm_compute. auto.
  - split; [vm_compute; reflexivity|]. split.
    { intros H. apply scan_finds_denylisted in H. vm_compute in H.
      discriminate. }
    assert (Hdrop : forbidden_hits (_remove_comments_and_strings
                                      (render_all quote_in_literal))
                    = ["\bDROP\b"])
      by (vm_compute; reflexivity).
    split; [exact Hdrop|]. split; [vm_compute; reflexivity|].
    intros exprs snapshot r Hr.
    destruct (forbidden_finding_iff_hits _ _ _ _ Hr)
      as [Hhits [Hiff Hfail]].
    rewrite Hdrop in Hhits. rewrite Hhits in Hiff, Hfail.
    split; [exact Hhits|]. split.
    + now apply Hfail.
    + now apply Hiff.
Qed.

(** C2, amended.  Take a statement that parses, given by its lexical
    structure, on which the five scrubbing passes leave exactly the text
    outside comments and literals; so it is on every statement whose
    comments and literals are tame (no comment marker inside a literal,
    neither [--] nor [#] inside a block comment, no single quote inside a
    double-quoted literal, no comment marker made of the end of a stretch
    of code and the start of what follows).  The static check reports the
    forbidden-token finding exactly when a denylisted keyword occurs
    outside comments and literals, its letters in any case, as whole
    words; so a keyword that only stands inside a literal or a comment
    never triggers it, and a keyword outside fails the read-only stage and
    the check, and closes the read-only gate. *)
Theorem forbidden_token_where_scrubbing_is_exact :
  forall segs exprs snapshot r,
    lexical segs = true ->
    static_check_sql (render_all segs) (Returned exprs) snapshot
    = Returned r ->
    (tame segs = true -> scrubbed_exactly segs)
    /\ (scrubbed_exactly segs ->
        forbidden (check r) = forbidden_hits (outside_all segs)
        /\ ((exists f, In f (findings r) /\ code f = "FORBIDDEN_TOKEN")
            <-> denylisted (outside_all segs))
        /\ (denylisted (outside_all segs) ->
            readonly (check r) = fail /\ overall r = fail
            /\ _is_readonly_select (render_all segs) = false)).
Proof.
  intros segs exprs snapshot r Hlex Hr.
  split; [intros Htame; now apply scrub_tame|].
  intros Hscrub. unfold scrubbed_exactly in Hscrub.
  destruct (forbidden_finding_iff_hits _ _ _ _ Hr) as [Hhits [Hiff Hfail]].
  rewrite Hscrub in Hhits.
  assert (Hempty : is_empty (forbidden (check r)) = false
                   <-> denylisted (outside_all segs)).
  { rewrite Hhits, no_hits_iff, negb_false_iff.
    apply scan_finds_denylisted. }
  split; [exact Hhits|]. split.
  - now rewrite Hiff.
  - intros Hk. destruct (Hfail (proj2 Hempty Hk)) as [H1 H2].
    split; [exact H1|]. split; [exact H2|].
    unfold _is_readonly_select. rewrite Hscrub.
    apply scan_finds_denylisted in Hk. rewrite Hk.
    destruct (negb (match_start head_pattern (render_all segs)));
      reflexivity.
Qed.

Lemma forbidden_token_where_scrubbing_is_exact_witness :
  let segs := markers_at_the_seams in
  lexical segs = true
  /\ tame segs = true
  /\ ~ denylisted (outside_all segs)
  /\ exists r,
      static_check_sql (render_all segs) (Returned [Some select_from_t])
        (Returned t_schema) = Returned r
      /\ scrubbed_exactly segs
      /\ ~ (exists f, In f (findings r) /\ code f = "FORBIDDEN_TOKEN").
Proof.
  intros segs.
  assert (Hlex : lexical segs = true) by (vm_compute; reflexivity).
  assert (Htame : tame segs = true) by (vm_compute; reflexivity).
  assert (Hk : ~ denylisted (outside_all segs)).
  { intros H. apply scan_finds_denylisted in H. vm_compute in H.
    discriminate. }
  split; [exact Hlex|]. split; [exact Htame|]. split; [exact Hk|].
  eexists. split; [vm_compute; reflexivity|].
  match goal with
  | |- context [findings ?res] =>
      destruct (forbidden_token_where_scrubbing_is_exact segs
                  [Some select_from_t] (Returned t_schema) res Hlex
                  ltac:(vm_compute; reflexivity))
        as [Hscrub Hscan]
  end.
  specialize (Hscrub Htame). split; [exact Hscrub|].
  destruct (Hscan Hscrub) as [_ [Hiff _]].
  intros Hf. apply Hk. now apply Hiff.
Defined.

End ScannerClaims.

(* ================================================================= *)
(** ** Further properties: the single-statement gate and the wrappers *)

Module StatementFacts.
Import Text Re Scanner Spec Notions Py Env ScannerFacts TextFacts Samples
  Cases.
Local Open Scope string_scope.

Lemma gate_counts_semicolons :
  forall sql,
    let scrubbed := _remove_comments_and_strings sql in
    (count_char is_semicolon scrubbed = 0 -> _is_single_statement sql = true)
    /\ (_is_single_statement sql = true ->
        count_char is_semicolon scrubbed <= 1)
    /\ (_is_single_statement sql = true ->
        count_char is_semicolon scrubbed = 1 ->
        endswith (strip scrubbed) ";" = true).
Proof.
  intros sql scrubbed. unfold _is_single_statement. fold scrubbed.
  pose proof (count_strip scrubbed) as Hstrip.
  destruct (endswith (strip scrubbed) ";") eqn:Hend.
  - destruct (endswith_semicolon _ Hend) as [_ Hcount].
    rewrite Hstrip in Hcount. repeat split.
    + intros H0. lia.
    + intros H. apply negb_true_iff, count_none_iff in H.
      rewrite count_strip in H. lia.
  - repeat split.
    + intros H0. apply negb_true_iff, count_none_iff. lia.
    + intros H. apply negb_true_iff, count_none_iff in H. lia.
    + intros H H1. apply negb_true_iff, count_none_iff in H. lia.
Qed.

(** X1.  The single-statement gate counts the semicolons left after
    scrubbing: a statement with none is accepted, an accepted statement has
    at most one, and when it has one it is the last character that is not
    white space. *)
Theorem single_statement_semicolons :
  forall sql,
    let scrubbed := _remove_comments_and_strings sql in
    (count_char is_semicolon scrubbed = 0 -> _is_single_statement sql = true)
    /\ (_is_single_statement sql = true ->
        count_char is_semicolon scrubbed <= 1)
    /\ (_is_single_statement sql = true ->
        count_char is_semicolon scrubbed = 1 ->
        endswith (strip scrubbed) ";" = true).
Proof.
  intros sql. exact (gate_counts_semicolons sql).
Qed.

Lemma count_text_after :
  forall segs,
    (forall s, In (Code s) segs -> contains_char is_semicolon s = false) ->
    count_char is_semicolon (outside_all segs) = 0.
Proof.
  unfold outside_all. induction segs as [|seg segs IH]; intros H.
  - reflexivity.
  - cbn [text_after]. rewrite count_append, IH.
    + destruct seg as [s|b|b|b|b|b]; cbn [render_after Nat.leb];
        try reflexivity.
      rewrite Nat.add_0_r. apply count_none_iff, H. now left.
    + intros s Hs. apply H. now right.
Qed.

(** X2.  On a statement whose comments and literals are tame, semicolons
    inside comments and quoted literals do not count: when the code outside
    them holds no semicolon the statement is a single statement. *)
Theorem semicolons_in_literals_and_comments_ignored :
  forall segs,
    lexical segs = true ->
    tame segs = true ->
    (forall s, In (Code s) segs -> contains_char is_semicolon s = false) ->
    _is_single_statement (render_all segs) = true.
Proof.
  intros segs Hlex Htame Hcode.
  apply (proj1 (gate_counts_semicolons (render_all segs))).
  rewrite scrub_tame by assumption. now apply count_text_after.
Qed.

Lemma semicolons_in_literals_and_comments_ignored_witness :
  lexical semicolons_inside = true
  /\ tame semicolons_inside = true
  /\ count_char is_semicolon (render_all semicolons_inside) = 3
  /\ _is_single_statement (render_all semicolons_inside) = true.
Proof.
  split; [vm_compute; reflexivity|].
  split; [vm_compute; reflexivity|].
  split; [vm_compute; reflexivity|].
  apply (semicolons_in_literals_and_comments_ignored semicolons_inside);
    [vm_compute; reflexivity | vm_compute; reflexivity |].
  intros s Hs. cbv [semicolons_inside In] in Hs.
  repeat (destruct Hs as [Hs|Hs];
          [first [discriminate Hs
                 | injection Hs as <-; vm_compute; reflexivity]|]).
  contradiction.
Defined.

(** X3.  A statement with two or more semicolons left after scrubbing is
    refused by the execution and by the export, with the multi-statement
    message, before any connection is made: the store and the files stay as
    they are. *)
Theorem several_semicolons_rejected :
  forall sql,
    2 <= count_char is_semicolon (_remove_comments_and_strings sql) ->
    _is_single_statement sql = false
    /\ (forall w N P st,
           Dynamic.dynamic_check_sql w sql N P st
           = (Dynamic.runtime_error None None
                "仅允许单条 SQL 语句（检测到多语句）", st))
    /\ (forall w fetch_size excel_friendly st,
           Exporter.save_to_csv w sql fetch_size excel_friendly st
           = (Returned
                (Exporter.runtime_error "仅允许单条 SQL 语句（检测到多语句）"),
              st)).
Proof.
  intros sql H.
  assert (Hs : _is_single_statement sql = false).
  { destruct (_is_single_statement sql) eqn:E; [|reflexivity].
    pose proof (proj1 (proj2 (gate_counts_semicolons sql)) E). lia. }
  split; [exact Hs|]. split; intros.
  - unfold Dynamic.dynamic_check_sql. rewrite Hs. reflexivity.
  - unfold Exporter.save_to_csv. rewrite Hs. reflexivity.
Qed.

Lemma several_semicolons_rejected_witness :
  2 <= count_char is_semicolon (_remove_comments_and_strings two_statements)
  /\ _is_single_statement two_statements = false
  /\ Exporter.save_to_csv three_rows_world two_statements 1000 true start
     = (Returned
          (Exporter.runtime_error "仅允许单条 SQL 语句（检测到多语句）"),
        start).
Proof.
  assert (H : 2 <= count_char is_semicolon
                     (_remove_comments_and_strings two_statements))
    by (vm_compute; lia).
  split; [exact H|].
  destruct (several_semicolons_rejected two_statements H) as [Hs [_ Hx]].
  split; [exact Hs | apply Hx].
Defined.

Lemma lstrip_semicolons_run :
  forall k s,
    first_is is_semicolon s = false ->
    lstrip_by is_semicolon (semicolons k ++ s) = s.
Proof.
  induction k as [|k IH]; intros s H; cbn [semicolons append].
  - destruct s as [|c s]; [reflexivity|]. cbn in *. now rewrite H.
  - cbn [lstrip_by]. replace (is_semicolon ";") with true by reflexivity.
    now apply IH.
Qed.

Lemma rev_semicolons : forall k, rev (semicolons k) = semicolons k.
Proof.
  induction k as [|k IH]; [reflexivity|].
  cbn [semicolons]. rewrite rev_cons, IH.
  clear IH. induction k as [|k IH]; [reflexivity|].
  cbn [semicolons append]. now rewrite IH.
Qed.

Lemma all_semicolons :
  forall s, all_chars is_semicolon s = true ->
            s = semicolons (String.length s).
Proof.
  induction s as [|c s IH]; intros H; [reflexivity|].
  cbn in H. apply andb_true_iff in H. destruct H as [Hc H].
  cbn [String.length semicolons]. rewrite <- IH by assumption.
  f_equal. apply Chars.is_code in Hc. now rewrite Hc.
Qed.

(** X4.  [rstrip(';')] cuts the statement into a body that does not end
    with a semicolon and a run of semicolons; so the COUNT and LIMIT
    wrappers built around a statement do not depend on how many semicolons
    end it.  Only the semicolons at the very end are cut: a statement that
    ends with another character is wrapped as it is, so that the accepted
    statement whose semicolon is followed by a newline keeps the semicolon
    inside the wrappers. *)
Theorem wrappers_ignore_trailing_semicolons :
  forall sql,
    (exists k, sql = rstrip_semicolons sql ++ semicolons k)
    /\ last_is is_semicolon (rstrip_semicolons sql) = false
    /\ (forall k P,
           Dynamic.count_sql (sql ++ semicolons k) = Dynamic.count_sql sql
           /\ Dynamic.preview_sql (sql ++ semicolons k) P
              = Dynamic.preview_sql sql P)
    /\ (last_is is_semicolon sql = false ->
        Dynamic.count_sql sql
        = "SELECT COUNT(*) AS __cnt FROM ( " ++ sql ++ " ) AS __t")
    /\ _is_single_statement semicolon_then_newline = true
    /\ Dynamic.count_sql semicolon_then_newline
       = "SELECT COUNT(*) AS __cnt FROM ( " ++ semicolon_then_newline
         ++ " ) AS __t".
Proof.
  intros sql.
  assert (Hkeep : forall s,
             last_is is_semicolon s = false -> rstrip_semicolons s = s).
  { intros s Hs. unfold rstrip_semicolons, rstrip_by.
    rewrite <- first_is_rev in Hs.
    destruct (rev s) as [|c r] eqn:Hrev.
    - rewrite <- (rev_involutive s), Hrev. reflexivity.
    - cbn [first_is] in Hs. cbn [lstrip_by]. rewrite Hs.
      rewrite <- Hrev. apply rev_involutive. }
  unfold rstrip_semicolons.
  destruct (rstrip_split is_semicolon sql) as [suf [Hs [Hsuf Hlast]]].
  split; [|split; [|split; [|split; [|split]]]].
  4: { intros H. unfold Dynamic.count_sql. now rewrite Hkeep. }
  4: { vm_compute. reflexivity. }
  4: { vm_compute. reflexivity. }
  - exists (String.length suf). rewrite <- (all_semicolons suf Hsuf).
    exact Hs.
  - exact Hlast.
  - intros k P.
    assert (Hk : rstrip_by is_semicolon (sql ++ semicolons k)
                 = rstrip_by is_semicolon sql).
    { rewrite Hs at 1. rewrite (all_semicolons suf Hsuf).
      set (body := rstrip_by is_semicolon sql) in *.
      unfold rstrip_by at 1.
      rewrite !rev_append, !rev_semicolons, <- append_assoc.
      assert (Hrun : forall a b,
                 semicolons a ++ semicolons b = semicolons (a + b)).
      { induction a as [|a IHa]; intros b; [reflexivity|].
        cbn [semicolons append Nat.add]. now rewrite IHa. }
      rewrite Hrun, lstrip_semicolons_run.
      - apply rev_involutive.
      - now rewrite first_is_rev. }
    unfold Dynamic.count_sql, Dynamic.preview_sql, rstrip_semicolons.
    rewrite Hk. split; reflexivity.
Qed.

End StatementFacts.

(* ================================================================= *)
(** ** Dictionaries *)

Module DictFacts.
Import Text Resolver.

Section Dict.
Context {V : Type}.
Implicit Types (d : dict V) (k : string) (v : V).

Lemma dict_get_set_same :
  forall d k v, dict_get k (dict_set k v d) = Some v.
Proof.
  induction d as [|[k' v'] d IH]; intros k v; simpl.
  - now rewrite Strings.eqb_refl.
  - destruct (String.eqb k k') eqn:E; simpl.
    + now rewrite Strings.eqb_refl.
    + now rewrite E.
Qed.

Lemma dict_get_set_other :
  forall d k k' v, k' <> k -> dict_get k' (dict_set k v d) = dict_get k' d.
Proof.
  induction d as [|[k0 v0] d IH]; intros k k' v Hne; simpl.
  - destruct (Strings.eqb_spec k' k); [contradiction | reflexivity].
  - destruct (Strings.eqb_spec k k0) as [->|Hk]; simpl.
    + destruct (Strings.eqb_spec k' k0); [contradiction | reflexivity].
    + destruct (String.eqb k' k0); [reflexivity | now apply IH].
Qed.

Lemma in_dict_set :
  forall d k v k' v',
    In (k', v') (dict_set k v d) -> (k' = k /\ v' = v) \/ In (k', v') d.
Proof.
  induction d as [|[k0 v0] d IH]; intros k v k' v' H; simpl in *.
  - destruct H as [H|[]]. injection H as <- <-. now left.
  - destruct (String.eqb k k0); simpl in H.
    + destruct H as [H|H]; [injection H as <- <-; now left | now right; right].
    + destruct H as [H|H]; [now right; left|].
      destruct (IH _ _ _ _ H); [now left | now right; right].
Qed.

Lemma keys_dict_set :
  forall d k v,
    keys (dict_set k v d)
    = if mem k (keys d) then keys d else keys d ++ [k].
Proof.
  induction d as [|[k0 v0] d IH]; intros k v; [reflexivity|].
  unfold keys, mem in *. cbn [dict_set map fst existsb].
  destruct (String.eqb k k0) eqn:E; cbn [map fst orb].
  - apply Strings.eqb_eq in E. now subst.
  - rewrite IH.
    destruct (existsb (String.eqb k) (map fst d)); reflexivity.
Qed.

Lemma mem_iff : forall x xs, mem x xs = true <-> In x xs.
Proof.
  intros x xs. unfold mem. rewrite existsb_exists. split.
  - intros [y [Hy Heq]]. apply Strings.eqb_eq in Heq. now subst.
  - intros H. exists x. split; [exact H | apply Strings.eqb_refl].
Qed.

Lemma mem_false_iff : forall x xs, mem x xs = false <-> ~ In x xs.
Proof.
  intros x xs. rewrite <- mem_iff. destruct (mem x xs).
  - split; [discriminate | intros H; now contradiction H].
  - split; [intros _; discriminate | reflexivity].
Qed.

Lemma keys_grow :
  forall d k v x, In x (keys d) -> In x (keys (dict_set k v d)).
Proof.
  intros d k v x H. rewrite keys_dict_set.
  destruct (mem k (keys d)); [exact H | apply in_or_app; now left].
Qed.

Lemma key_set : forall d k v, In k (keys (dict_set k v d)).
Proof.
  intros d k v. rewrite keys_dict_set.
  destruct (mem k (keys d)) eqn:E.
  - now apply mem_iff.
  - apply in_or_app. right. now left.
Qed.

Lemma keys_of_dict_set :
  forall d k v x, In x (keys (dict_set k v d)) -> x = k \/ In x (keys d).
Proof.
  intros d k v x H. rewrite keys_dict_set in H.
  destruct (mem k (keys d)); [now right|].
  apply in_app_or in H. destruct H as [H|[H|[]]]; [now right | now left].
Qed.

Lemma nodup_keys_set :
  forall d k v, NoDup (keys d) -> NoDup (keys (dict_set k v d)).
Proof.
  intros d k v H. rewrite keys_dict_set.
  destruct (mem k (keys d)) eqn:E; [exact H|].
  apply mem_false_iff in E.
  apply NoDup_app; [exact H | repeat constructor; intros [] | ].
  intros x Hx [<-|[]]. contradiction.
Qed.

Lemma dict_get_in :
  forall d k v, dict_get k d = Some v -> In (k, v) d.
Proof.
  induction d as [|[k0 v0] d IH]; intros k v H; simpl in *;
    [discriminate|].
  destruct (Strings.eqb_spec k k0) as [->|].
  - injection H as <-. now left.
  - right. now apply IH.
Qed.

Lemma in_keys_get :
  forall d k, In k (keys d) <-> dict_get k d <> None.
Proof.
  induction d as [|[k0 v0] d IH]; intros k; simpl.
  - split; [intros [] | intros H; now contradiction H].
  - destruct (Strings.eqb_spec k k0) as [->|Hne].
    + split; [discriminate | now left].
    + rewrite <- IH. split.
      * intros [H|H]; [now contradiction Hne | exact H].
      * now right.
Qed.

Lemma in_dict_get :
  forall d k v, NoDup (keys d) -> In (k, v) d -> dict_get k d = Some v.
Proof.
  induction d as [|[k0 v0] d IH]; intros k v Hnd H; simpl in *;
    [contradiction|].
  inversion Hnd as [|? ? Hnotin Hnd']; subst.
  destruct H as [H|H].
  - injection H as -> ->. now rewrite Strings.eqb_refl.
  - destruct (Strings.eqb_spec k k0) as [->|].
    + exfalso. apply Hnotin. change (In (fst (k0, v)) (map fst d)).
      now apply in_map.
    + now apply IH.
Qed.

End Dict.

End DictFacts.

(* ================================================================= *)
(** ** The alias map of a statement *)

Module AliasFacts.
Import Text Ast Resolver AstFacts ResolverFacts DictFacts Samples Cases.
Local Open Scope string_scope.

Lemma lower_idempotent : forall s, lower (lower s) = lower s.
Proof. exact Strings.lower_lower. Qed.

Lemma lower_nonempty : forall s, s <> "" -> lower s <> "".
Proof. intros s H E. apply H. now apply lower_empty. Qed.

Lemma level_sound :
  forall d root anc k anc',
    In (k, anc') (level d anc root) ->
    exists e, reaches root d e /\ kind_of e = k.
Proof.
  induction d as [|d IH]; intros [k0 args] anc k anc' H; simpl in H.
  - destruct H as [H|[]]. injection H as <- _.
    exists (Node k0 args). split; [constructor | reflexivity].
  - apply in_flat_map in H. destruct H as [a [Ha H]].
    destruct (IH _ _ _ _ H) as [e [He Hk]].
    exists e. split; [|exact Hk]. now apply reach_arg with (a := a).
Qed.

Lemma walk_sound :
  forall root k anc,
    In (k, anc) (walk root) ->
    exists d e, reaches root d e /\ kind_of e = k.
Proof.
  intros root k anc H. unfold walk in H. apply in_flat_map in H.
  destruct H as [d [_ H]]. exists d. now apply level_sound with (anc := [])
    (anc' := anc).
Qed.

(** [find_all(exp.Table)] yields the table nodes of the tree *)
Lemma find_all_tables_iff :
  forall root n a,
    In (n, a) (find_all_tables root)
    <-> exists d args, reaches root d (Node (Table n a) args).
Proof.
  intros root n a. split.
  - unfold find_all_tables. intros H. apply in_flat_map in H.
    destruct H as [[k anc] [Hv H]]. simpl in H.
    destruct k; simpl in H; try contradiction.
    destruct H as [H|[]]. injection H as -> ->.
    destruct (walk_sound _ _ _ Hv) as [d [[k args] [Hr Hk]]].
    simpl in Hk. subst k. now exists d, args.
  - intros [d [args H]].
    destruct (walk_reaches _ _ _ H) as [anc Hanc].
    unfold find_all_tables. apply in_flat_map.
    exists (Table n a, anc). split; [exact Hanc | now left].
Qed.

Local Abbreviation alias_step :=
  (fun (mapping : dict string) (t : string * string) =>
     let real_name := lower (fst t) in
     if String.eqb real_name "" then mapping
     else
       let alias_str := snd t in
       let mapping :=
         if String.eqb alias_str "" then mapping
         else dict_set (lower alias_str) real_name mapping in
       dict_set real_name real_name mapping).

Section Invariant.
Variable all : list (string * string).

(** where an entry of the map comes from *)
Local Abbreviation sound :=
  (fun m : dict string =>
     NoDup (keys m)
     /\ forall k v, In (k, v) m ->
          In v (keys m)
          /\ exists n a,
              In (n, a) all /\ lower n <> "" /\ v = lower n
              /\ (k = lower n \/ (a <> "" /\ k = lower a))).

Lemma alias_step_sound :
  forall m t, In t all -> sound m -> sound (alias_step m t).
Proof.
  intros m [n a] Hin [Hnd Hent]. cbn [fst snd].
  destruct (Strings.eqb_spec (lower n) "") as [|Hn]; [now split|].
  destruct (Strings.eqb_spec a "") as [->|Ha].
  - split; [now apply nodup_keys_set|].
    intros k v H. apply in_dict_set in H. destruct H as [[-> ->]|H].
    + split; [apply key_set|]. exists n, "". repeat split; auto.
    + destruct (Hent _ _ H) as [Hv Hs]. split; [now apply keys_grow|].
      exact Hs.
  - split; [now apply nodup_keys_set, nodup_keys_set|].
    intros k v H. apply in_dict_set in H. destruct H as [[-> ->]|H].
    + split; [apply key_set|]. exists n, a. repeat split; auto.
    + apply in_dict_set in H. destruct H as [[-> ->]|H].
      * split; [apply key_set|]. exists n, a. repeat split; auto.
      * destruct (Hent _ _ H) as [Hv Hs].
        split; [now apply keys_grow, keys_grow|]. exact Hs.
Qed.

Lemma alias_fold_sound :
  forall l m,
    (forall t, In t l -> In t all) -> sound m ->
    sound (fold_left alias_step l m).
Proof.
  induction l as [|t l IH]; intros m Hl Hm; [exact Hm|].
  cbn [fold_left]. apply IH.
  - intros x Hx. apply Hl. now right.
  - apply alias_step_sound; [apply Hl; now left | exact Hm].
Qed.

End Invariant.

Lemma alias_step_keys_grow :
  forall m t x, In x (keys m) -> In x (keys (alias_step m t)).
Proof.
  intros m [n a] x H. cbn [fst snd].
  destruct (String.eqb (lower n) ""); [exact H|].
  destruct (String.eqb a ""); [now apply keys_grow|].
  now apply keys_grow, keys_grow.
Qed.

Lemma alias_fold_keys_grow :
  forall l m x, In x (keys m) -> In x (keys (fold_left alias_step l m)).
Proof.
  induction l as [|t l IH]; intros m x H; [exact H|].
  cbn [fold_left]. now apply IH, alias_step_keys_grow.
Qed.

Lemma alias_step_covers :
  forall m n a,
    lower n <> "" ->
    dict_get (lower n) (alias_step m (n, a)) = Some (lower n)
    /\ In (lower n) (keys (alias_step m (n, a)))
    /\ (a <> "" -> In (lower a) (keys (alias_step m (n, a)))).
Proof.
  intros m n a Hn. cbn [fst snd].
  destruct (Strings.eqb_spec (lower n) "") as [|_]; [contradiction|].
  split; [apply dict_get_set_same|]. split; [apply key_set|].
  intros Ha. destruct (Strings.eqb_spec a "") as [|_]; [contradiction|].
  apply keys_grow, key_set.
Qed.

Lemma alias_fold_covers :
  forall l m n a,
    In (n, a) l -> lower n <> "" ->
    In (lower n) (keys (fold_left alias_step l m))
    /\ (a <> "" -> In (lower a) (keys (fold_left alias_step l m))).
Proof.
  induction l as [|t l IH]; intros m n a Hin Hn; [contradiction|].
  cbn [fold_left]. destruct Hin as [->|Hin]; [|now apply IH].
  destruct (alias_step_covers m n a Hn) as [_ [H1 H2]].
  split; [|intros Ha]; apply alias_fold_keys_grow; auto.
Qed.

(** a name stays mapped to itself as long as no later table takes it as
    its alias *)
Lemma alias_fold_keeps :
  forall l m t,
    dict_get t m = Some t ->
    (forall n a, In (n, a) l -> lower n <> "" -> a <> "" ->
                 lower a = t -> lower n = t) ->
    dict_get t (fold_left alias_step l m) = Some t.
Proof.
  induction l as [|[n a] l IH]; intros m t Hm Hl; [exact Hm|].
  cbn [fold_left]. apply IH.
  - cbn [fst snd].
    destruct (Strings.eqb_spec (lower n) "") as [|Hn]; [exact Hm|].
    assert (Hinner :
              dict_get t (if String.eqb a "" then m
                          else dict_set (lower a) (lower n) m) = Some t).
    { destruct (Strings.eqb_spec a "") as [|Ha]; [exact Hm|].
      destruct (string_dec (lower a) t) as [E|E].
      - pose proof (Hl n a (or_introl eq_refl) Hn Ha E) as E2.
        rewrite E, E2. apply dict_get_set_same.
      - rewrite dict_get_set_other by congruence. exact Hm. }
    destruct (string_dec (lower n) t) as [E|E].
    + rewrite E. apply dict_get_set_same.
    + rewrite dict_get_set_other by congruence. exact Hinner.
  - intros n' a' Hin. apply Hl. now right.
Qed.

Lemma collect_sound :
  forall root,
    let m := _collect_real_table_aliases root in
    NoDup (keys m)
    /\ forall k v, In (k, v) m ->
         In v (keys m)
         /\ exists n a,
             In (n, a) (find_all_tables root) /\ lower n <> ""
             /\ v = lower n
             /\ (k = lower n \/ (a <> "" /\ k = lower a)).
Proof.
  intros root m. subst m. unfold _collect_real_table_aliases.
  apply (alias_fold_sound (find_all_tables root)).
  - auto.
  - split; [constructor | intros k v []].
Qed.

(** X6.  The alias map of a statement has one entry per key; every key
    and every value is a non-empty lower-case name; every value is the
    lower-cased name of a table node of the statement, is itself a key, and
    the key is that table's lower-cased name or alias. *)
Theorem alias_map_well_formed :
  forall root,
    let m := _collect_real_table_aliases root in
    NoDup (keys m)
    /\ forall k v, In (k, v) m ->
         k <> "" /\ lower k = k /\ v <> "" /\ lower v = v
         /\ dict_get k m = Some v
         /\ dict_get v m <> None
         /\ exists d n a args,
             reaches root d (Node (Table n a) args)
             /\ v = lower n
             /\ (k = lower n \/ (a <> "" /\ k = lower a)).
Proof.
  intros root m. destruct (collect_sound root) as [Hnd Hent].
  fold m in Hnd, Hent. split; [exact Hnd|].
  intros k v H. destruct (Hent _ _ H) as [Hv [n [a [Hin [Hn [-> Hk]]]]]].
  assert (Hkk : k <> "" /\ lower k = k).
  { destruct Hk as [->|[Ha ->]]; split;
      auto using lower_idempotent, lower_nonempty. }
  destruct Hkk as [Hk1 Hk2].
  repeat split; auto using lower_idempotent.
  - now apply in_dict_get.
  - now apply in_keys_get.
  - apply find_all_tables_iff in Hin. destruct Hin as [d [args Hr]].
    now exists d, n, a, args.
Qed.

(** X7.  A prefix resolves in the alias map exactly when it is, in lower
    case, the name or the alias of a table node of the statement that has a
    name. *)
Theorem alias_map_domain :
  forall root k,
    dict_get k (_collect_real_table_aliases root) <> None
    <-> exists d n a args,
          reaches root d (Node (Table n a) args)
          /\ lower n <> ""
          /\ (k = lower n \/ (a <> "" /\ k = lower a)).
Proof.
  intros root k. rewrite <- in_keys_get. split.
  - intros H. unfold keys in H. apply in_map_iff in H.
    destruct H as [[k' v] [Hk H]]. simpl in Hk. subst k'.
    destruct (collect_sound root) as [_ Hent].
    destruct (Hent _ _ H) as [_ [n [a [Hin [Hn [_ Hk]]]]]].
    apply find_all_tables_iff in Hin. destruct Hin as [d [args Hr]].
    now exists d, n, a, args.
  - intros [d [n [a [args [Hr [Hn Hk]]]]]].
    assert (Hin : In (n, a) (find_all_tables root))
      by (apply find_all_tables_iff; now exists d, args).
    destruct (alias_fold_covers (find_all_tables root) [] n a Hin Hn)
      as [H1 H2].
    unfold _collect_real_table_aliases.
    destruct Hk as [->|[Ha ->]]; auto.
Qed.

End AliasFacts.

(* ================================================================= *)
(** ** Tables and columns reported by the resolver *)

Module TableFacts.
Import Text Ast Resolver AstFacts ResolverFacts DictFacts AliasFacts Py
  Static Samples Cases.
Local Open Scope string_scope.

Local Abbreviation le := (fun a b : string => String.leb a b = true).

Lemma leb_trans :
  forall a b c,
    String.leb a b = true -> String.leb b c = true ->
    String.leb a c = true.
Proof.
  unfold String.leb.
  induction a as [|x a IH]; intros [|y b] [|z c]; simpl;
    try (intros; first [reflexivity | discriminate]).
  unfold Char.compare.
  destruct (N.compare_spec (point x) (point y));
    destruct (N.compare_spec (point y) (point z));
    destruct (N.compare_spec (point x) (point z));
    intros Hab Hbc;
    first [reflexivity | discriminate | (exfalso; lia)
          | (eapply IH; eassumption)].
Qed.

Lemma in_insert_sorted :
  forall x l y, In y (insert_sorted x l) <-> y = x \/ In y l.
Proof.
  induction l as [|z l IH]; intros y; simpl.
  - split; [intros [H|[]]; now left | intros [H|[]]; now left].
  - destruct (String.leb x z); simpl.
    + split; [intros [H|H]; [now left | now right] | ].
      intros [H|H]; [now left | now right].
    + rewrite IH. split; intros H; tauto.
Qed.

Lemma nodup_insert_sorted :
  forall x l, ~ In x l -> NoDup l -> NoDup (insert_sorted x l).
Proof.
  induction l as [|z l IH]; intros Hx Hnd; simpl.
  - constructor; [intros [] | constructor].
  - destruct (String.leb x z).
    + now constructor.
    + inversion Hnd as [|? ? Hz Hl]; subst. constructor.
      * rewrite in_insert_sorted. intros [->|H]; [|contradiction].
        apply Hx. now left.
      * apply IH; [|exact Hl]. intros H. apply Hx. now right.
Qed.

Lemma sorted_insert_sorted :
  forall x l, StronglySorted le l -> StronglySorted le (insert_sorted x l).
Proof.
  induction l as [|z l IH]; intros Hs; simpl.
  - constructor; constructor.
  - inversion Hs as [|? ? Hl Hz]; subst.
    destruct (String.leb x z) eqn:E.
    + constructor; [exact Hs|]. constructor; [exact E|].
      eapply Forall_impl; [|exact Hz]. intros w Hw.
      now apply leb_trans with (b := z).
    + constructor; [now apply IH|].
      apply Forall_forall. intros w Hw. apply in_insert_sorted in Hw.
      destruct Hw as [->|Hw].
      * destruct (Strings.leb_total x z) as [H|H]; [congruence | exact H].
      * rewrite Forall_forall in Hz. now apply Hz.
Qed.

Lemma sorted_set_spec :
  forall l,
    NoDup (sorted_set l)
    /\ StronglySorted le (sorted_set l)
    /\ forall x, In x (sorted_set l) <-> In x l.
Proof.
  intros l. unfold sorted_set.
  pose proof (NoDup_nodup string_dec l) as Hnd.
  assert (Hin : forall x, In x (nodup string_dec l) <-> In x l)
    by (intros x; apply nodup_In).
  revert Hnd Hin. generalize (nodup string_dec l) as u. intros u Hnd Hin.
  assert (H : NoDup (fold_right insert_sorted [] u)
              /\ StronglySorted le (fold_right insert_sorted [] u)
              /\ forall x, In x (fold_right insert_sorted [] u) <-> In x u).
  { clear Hin. induction u as [|y u IH]; simpl.
    - split; [constructor|]. split; [constructor | tauto].
    - inversion Hnd as [|? ? Hy Hu]; subst.
      destruct (IH Hu) as [H1 [H2 H3]]. split; [|split].
      + apply nodup_insert_sorted; [now rewrite H3 | exact H1].
      + now apply sorted_insert_sorted.
      + intros x. rewrite in_insert_sorted, H3. split; intros [H|H]; auto. }
  destruct H as [H1 [H2 H3]]. split; [exact H1|]. split; [exact H2|].
  intros x. now rewrite H3, Hin.
Qed.

Lemma sorted_filter :
  forall (f : string -> bool) l,
    StronglySorted le l -> StronglySorted le (filter f l).
Proof.
  induction l as [|z l IH]; intros Hs; simpl; [constructor|].
  inversion Hs as [|? ? Hl Hz]; subst.
  destruct (f z); [|now apply IH].
  constructor; [now apply IH|].
  apply Forall_forall. intros w Hw. apply filter_In in Hw.
  rewrite Forall_forall in Hz. now apply Hz.
Qed.

Lemma missing_tables_filter :
  forall root schema_tables,
    map mt_table (fst (fst (_check_schema_columns root schema_tables)))
    = filter (fun t => negb (mem t (map lower (keys schema_tables))))
        (sorted_set (values (_collect_real_table_aliases root))).
Proof.
  intros root schema_tables. unfold _check_schema_columns.
  destruct (fold_left _ _ _) as [mc ac]. cbn [fst].
  induction (sorted_set _) as [|t l IH]; [reflexivity|].
  cbn [flat_map filter].
  destruct (mem t (map lower (keys schema_tables)));
    cbn [negb app map mt_table]; now rewrite IH.
Qed.

Lemma in_missing_tables :
  forall root schema_tables t,
    In {| mt_table := t |}
       (fst (fst (_check_schema_columns root schema_tables)))
    <-> In t (values (_collect_real_table_aliases root))
        /\ mem t (map lower (keys schema_tables)) = false.
Proof.
  intros root schema_tables t.
  assert (H : In {| mt_table := t |}
                 (fst (fst (_check_schema_columns root schema_tables)))
              <-> In t (map mt_table
                          (fst (fst (_check_schema_columns root
                                       schema_tables))))).
  { split.
    - intros H. change t with (mt_table {| mt_table := t |}).
      now apply in_map.
    - intros H. apply in_map_iff in H. destruct H as [[t'] [E H]].
      simpl in E. now subst. }
  rewrite H, missing_tables_filter, filter_In.
  destruct (sorted_set_spec (values (_collect_real_table_aliases root)))
    as [_ [_ Hin]].
  rewrite Hin, negb_true_iff. tauto.
Qed.

(** X8.  The missing tables are reported once each and in ascending order;
    a table is reported exactly when it is a value of the alias map whose
    name is not, in lower case, a table of the snapshot, and any table
    reported is the lower-cased name of a table node of the statement. *)
Theorem missing_tables_reported :
  forall root schema_tables,
    let reported :=
      map mt_table (fst (fst (_check_schema_columns root schema_tables))) in
    NoDup reported
    /\ StronglySorted (fun a b => String.leb a b = true) reported
    /\ (forall t,
           In t reported
           <-> In t (values (_collect_real_table_aliases root))
               /\ ~ In t (map lower (keys schema_tables)))
    /\ (forall t,
           In t reported ->
           exists d n a args,
             reaches root d (Node (Table n a) args) /\ t = lower n).
Proof.
  intros root schema_tables reported. subst reported.
  rewrite missing_tables_filter.
  destruct (sorted_set_spec (values (_collect_real_table_aliases root)))
    as [Hnd [Hs Hin]].
  assert (Hiff : forall t,
             In t (filter
                     (fun t => negb (mem t (map lower (keys schema_tables))))
                     (sorted_set
                        (values (_collect_real_table_aliases root))))
             <-> In t (values (_collect_real_table_aliases root))
                 /\ ~ In t (map lower (keys schema_tables))).
  { intros t. rewrite filter_In, Hin, negb_true_iff, mem_false_iff.
    tauto. }
  split; [now apply NoDup_filter|]. split; [now apply sorted_filter|].
  split; [exact Hiff|].
  intros t Ht. apply Hiff in Ht. destruct Ht as [Ht _].
  unfold values in Ht. apply in_map_iff in Ht.
  destruct Ht as [[k v] [E Hkv]]. simpl in E. subst v.
  destruct (collect_sound root) as [_ Hent].
  destruct (Hent _ _ Hkv) as [_ [n [a [Hna [_ [-> _]]]]]].
  apply find_all_tables_iff in Hna. destruct Hna as [d [args Hr]].
  now exists d, n, a, args.
Qed.

Lemma table_stays_mapped :
  forall root n a,
    In (n, a) (find_all_tables root) ->
    lower n <> "" ->
    (forall n' a',
        In (n', a') (find_all_tables root) ->
        lower n' <> "" -> a' <> "" -> lower a' = lower n ->
        lower n' = lower n) ->
    In (lower n) (values (_collect_real_table_aliases root)).
Proof.
  intros root n a Hin Hn Hshadow.
  assert (H : dict_get (lower n) (_collect_real_table_aliases root)
              = Some (lower n)).
  { unfold _collect_real_table_aliases.
    destruct (in_split _ _ Hin) as [l1 [l2 Hl]].
    rewrite Hl, fold_left_app. cbn [fold_left].
    apply alias_fold_keeps.
    - apply alias_step_covers. exact Hn.
    - intros n' a' Hin'. apply Hshadow. rewrite Hl.
      apply in_or_app. right. now right. }
  apply dict_get_in in H. unfold values.
  change (lower n) with (snd (lower n, lower n)). now apply in_map.
Qed.

(** X9.  A table of the statement whose name is not a table of the
    snapshot (names compared in lower case), and which no other table takes
    as its alias, is reported as a missing table; the schema stage and the
    whole static check then fail. *)
Theorem missing_table_fails_check :
  forall sql root others schema_tables d n a args,
    reaches root d (Node (Table n a) args) ->
    lower n <> "" ->
    ~ In (lower n) (map lower (keys schema_tables)) ->
    (forall d' n' a' args',
        reaches root d' (Node (Table n' a') args') ->
        lower n' <> "" -> a' <> "" -> lower a' = lower n ->
        lower n' = lower n) ->
    exists r,
      static_check_sql sql (Returned (Some root :: others))
        (Returned schema_tables) = Returned r
      /\ In {| mt_table := lower n |} (missing_tables (check r))
      /\ schema_match (check r) = fail
      /\ overall r = fail.
Proof.
  intros sql root others schema_tables d n a args Hr Hn Hnot Hshadow.
  assert (Hin : In {| mt_table := lower n |}
                   (fst (fst (_check_schema_columns root schema_tables)))).
  { apply in_missing_tables. split; [|now apply mem_false_iff].
    apply table_stays_mapped with (a := a); [|exact Hn|].
    - apply find_all_tables_iff. now exists d, args.
    - intros n' a' Hin'. apply find_all_tables_iff in Hin'.
      destruct Hin' as [d' [args' Hr']]. now apply Hshadow with d' args'. }
  unfold static_check_sql.
  destruct (_check_schema_columns root schema_tables) as [[mt mc] ac].
  cbn [fst] in Hin.
  eexists. split; [reflexivity|]. cbn [check missing_tables schema_match
                                        overall].
  split; [exact Hin|].
  destruct mt as [|m mt]; [contradiction|]. cbn [is_empty negb orb].
  split; [reflexivity|].
  cbn [status_eqb]. now rewrite !orb_true_r.
Qed.

Lemma missing_table_fails_check_witness :
  exists r,
    static_check_sql sql_t (Returned [Some select_from_t])
      (Returned orders_schema) = Returned r
    /\ In {| mt_table := "t" |} (missing_tables (check r))
    /\ schema_match (check r) = fail
    /\ overall r = fail.
Proof.
  apply (missing_table_fails_check sql_t select_from_t [] orders_schema
           2 "t" "" []).
  - apply reach_arg with (a := Node Other [Node (Table "t" "") []]);
      [right; now left|].
    apply reach_arg with (a := Node (Table "t" "") []); [now left|].
    constructor.
  - discriminate.
  - vm_compute. intros [H|[]]. discriminate.
  - intros d' n' a' args' Hr' _ Ha' _. exfalso. apply Ha'.
    assert (Hin : In (n', a') (find_all_tables select_from_t))
      by (apply find_all_tables_iff; now exists d', args').
    vm_compute in Hin. destruct Hin as [Hin|[]]. now injection Hin.
Defined.

End TableFacts.

(* ================================================================= *)
(** ** Column references *)

Module ColumnFacts.
Import Text Ast Resolver AstFacts ResolverFacts DictFacts AliasFacts
  TableFacts Samples Cases.
Local Open Scope string_scope.

(** X10.  A column reference whose prefix resolves to a table that the
    snapshot does not have adds no column finding: the table itself is
    among the missing tables, so the absence is reported once. *)
Theorem column_of_missing_table_not_repeated :
  forall root schema_tables col real,
    col_table col <> "" ->
    dict_get (lower (col_table col)) (_collect_real_table_aliases root)
      = Some real ->
    ~ In real (map lower (keys schema_tables)) ->
    contribution schema_tables (_collect_real_table_aliases root)
      (_collect_derived_aliases root) col = ([], [])
    /\ In {| mt_table := real |}
          (fst (fst (_check_schema_columns root schema_tables))).
Proof.
  intros root schema_tables col real Hprefix Hget Hnot.
  apply mem_false_iff in Hnot. split.
  - unfold contribution, check_column.
    destruct (String.eqb (lower (col_name col)) ""); [reflexivity|].
    destruct (Strings.eqb_spec (col_table col) ""); [contradiction|].
    cbn [negb]. rewrite Hget.
    destruct (mem (lower (col_table col)) (_collect_derived_aliases root));
      [reflexivity|].
    destruct (String.eqb real ""); [reflexivity|].
    unfold all_real_tables. rewrite Hnot. reflexivity.
  - apply in_missing_tables. split; [|exact Hnot].
    apply dict_get_in in Hget. unfold values.
    change real with (snd (lower (col_table col), real)).
    now apply in_map.
Qed.

Lemma column_of_missing_table_not_repeated_witness :
  let col := {| col_name := "a"; col_table := "T";
                col_ancestors := [Select] |} in
  contribution orders_schema (_collect_real_table_aliases select_from_t)
    (_collect_derived_aliases select_from_t) col = ([], [])
  /\ In {| mt_table := "t" |}
        (fst (fst (_check_schema_columns select_from_t orders_schema))).
Proof.
  intros col.
  apply (column_of_missing_table_not_repeated select_from_t orders_schema
           col "t").
  - discriminate.
  - vm_compute. reflexivity.
  - vm_compute. intros [H|[]]. discriminate.
Defined.

(** X11.  A column reference with a prefix that resolves to a table of the
    snapshot is reported as a missing column of that table exactly when the
    column set found under the resolved (lower-case) name does not hold the
    column, compared in lower case.  The column set is looked up under the
    name as the snapshot spells it: when the snapshot spells the table
    otherwise than in lower case no set is found and the column is
    reported. *)
Theorem prefixed_column_checked :
  forall schema_tables real_aliases derived_aliases col real,
    col_table col <> "" ->
    lower (col_name col) <> "" ->
    mem (lower (col_table col)) derived_aliases = false ->
    dict_get (lower (col_table col)) real_aliases = Some real ->
    real <> "" ->
    In real (map lower (keys schema_tables)) ->
    let name := lower (col_name col) in
    let found :=
      exists cols c,
        dict_get real schema_tables = Some cols
        /\ In c cols /\ lower c = name in
    (found ->
     contribution schema_tables real_aliases derived_aliases col = ([], []))
    /\ (~ found ->
        contribution schema_tables real_aliases derived_aliases col
        = ([{| mc_table := real; mc_column := name;
               mc_context := clause_of (col_ancestors col) |}], [])).
Proof.
  intros schema_tables real_aliases derived_aliases col real
    Hprefix Hname Hderived Hget Hreal Hknown name found.
  assert (Hhas : has_column schema_tables real name = true <-> found).
  { unfold has_column, found.
    destruct (dict_get real schema_tables) as [cols|].
    - rewrite mem_iff, in_map_iff. split.
      + intros [c [Hc Hin]]. now exists cols, c.
      + intros [cols' [c [E [Hin Hc]]]]. injection E as <-. now exists c.
    - split; [discriminate | intros [cols [c [E _]]]; discriminate]. }
  apply mem_iff in Hknown.
  assert (Hc : contribution schema_tables real_aliases derived_aliases col
               = if has_column schema_tables real name then ([], [])
                 else ([{| mc_table := real; mc_column := name;
                           mc_context := clause_of (col_ancestors col) |}],
                       [])).
  { unfold contribution, check_column. fold name.
    destruct (Strings.eqb_spec name ""); [contradiction|].
    destruct (Strings.eqb_spec (col_table col) ""); [contradiction|].
    cbn [negb]. rewrite Hderived, Hget.
    destruct (Strings.eqb_spec real ""); [contradiction|].
    unfold all_real_tables. rewrite Hknown. cbn [negb].
    destruct (has_column schema_tables real name); reflexivity. }
  rewrite Hc. split; intros H.
  - apply Hhas in H. now rewrite H.
  - destruct (has_column schema_tables real name); [|reflexivity].
    exfalso. apply H, Hhas. reflexivity.
Qed.

Lemma prefixed_column_checked_witness :
  let col := {| col_name := "ID"; col_table := "o";
                col_ancestors := [Select] |} in
  contribution orders_schema [("o", "orders"); ("orders", "orders")] [] col
    = ([], [])
  /\ contribution capital_schema [("o", "orders"); ("orders", "orders")]
       [] col
     = ([{| mc_table := "orders"; mc_column := "id";
            mc_context := "select" |}], []).
Proof.
  intros col. split.
  - apply (prefixed_column_checked orders_schema
             [("o", "orders"); ("orders", "orders")] [] col "orders");
      try discriminate; try reflexivity.
    + now left.
    + exists ["id"; "amount"], "id". repeat split. now left.
  - apply (prefixed_column_checked capital_schema
             [("o", "orders"); ("orders", "orders")] [] col "orders");
      try discriminate; try reflexivity.
    + now left.
    + intros [cols [c [E _]]]. discriminate.
Defined.

Lemma append_cancel_r :
  forall s a b, (a ++ s = b ++ s)%string -> a = b.
Proof.
  intros s a b H.
  assert (Hlen : String.length a = String.length b).
  { apply (f_equal String.length) in H.
    rewrite !ScannerFacts.length_append in H. lia. }
  revert b H Hlen. induction a as [|x a IH]; intros [|y b] H Hlen;
    simpl in *; try discriminate; [reflexivity|].
  injection H as -> H. f_equal. apply IH; [exact H | lia].
Qed.

Lemma nodup_map_injective :
  forall (f : string -> string) l,
    (forall x y, f x = f y -> x = y) -> NoDup l -> NoDup (map f l).
Proof.
  intros f l Hf. induction 1 as [|x l Hx Hl IH]; simpl; constructor.
  - intros H. apply in_map_iff in H. destruct H as [y [E Hy]].
    apply Hf in E. now subst.
  - exact IH.
Qed.

Lemma candidates_without_aliases :
  forall schema_tables (m : dict string) name,
    (forall k v, In (k, v) m -> v = k) ->
    candidates_of schema_tables m name
    = map (fun t => (t ++ "." ++ name)%string)
        (filter
           (fun t => mem t (all_real_tables schema_tables)
                     && has_column schema_tables t name)
           (keys m)).
Proof.
  intros schema_tables m name. unfold candidates_of.
  induction m as [|[k v] m IH]; intros H; [reflexivity|].
  cbn [flat_map keys map fst snd filter].
  rewrite (H k v (or_introl eq_refl)).
  unfold keys in IH. rewrite IH by (intros; apply H; now right).
  destruct (mem k (all_real_tables schema_tables)
            && has_column schema_tables k name); reflexivity.
Qed.

(** X12.  In a statement whose tables carry no alias, a column reference
    without prefix is resolved among the tables of the statement that the
    snapshot knows and that hold the column, each counted once: with none
    the column is reported missing (table [*]), with exactly one nothing
    is reported, with several it is reported ambiguous, each candidate
    named once. *)
Theorem unprefixed_column_without_aliases :
  forall root schema_tables col,
    (forall d n a args, reaches root d (Node (Table n a) args) -> a = "") ->
    col_table col = "" ->
    lower (col_name col) <> "" ->
    let name := lower (col_name col) in
    let ctx := clause_of (col_ancestors col) in
    let holders :=
      filter
        (fun t => mem t (all_real_tables schema_tables)
                  && has_column schema_tables t name)
        (keys (_collect_real_table_aliases root)) in
    let candidates := map (fun t => (t ++ "." ++ name)%string) holders in
    NoDup candidates
    /\ contribution schema_tables (_collect_real_table_aliases root)
         (_collect_derived_aliases root) col
       = match holders with
         | [] => ([{| mc_table := "*"; mc_column := name;
                      mc_context := ctx |}], [])
         | [_] => ([], [])
         | _ => ([], [{| ac_column := name; ac_candidates := candidates;
                         ac_context := ctx |}])
         end.
Proof.
  intros root schema_tables col Hplain Hprefix Hname name ctx holders
    candidates.
  destruct (collect_sound root) as [Hnd Hent].
  assert (Hsame : forall k v,
             In (k, v) (_collect_real_table_aliases root) -> v = k).
  { intros k v H. destruct (Hent _ _ H) as [_ [n [a [Hin [_ [-> Hk]]]]]].
    destruct Hk as [->|[Ha _]]; [reflexivity|].
    apply find_all_tables_iff in Hin. destruct Hin as [d [args Hr]].
    exfalso. apply Ha. now apply (Hplain d n a args). }
  split.
  - subst candidates. apply nodup_map_injective.
    + intros x y E. exact (append_cancel_r _ _ _ E).
    + subst holders. now apply NoDup_filter.
  - rewrite (unprefixed_contribution _ _ _ col Hprefix Hname).
    fold name ctx.
    rewrite (candidates_without_aliases _ _ name Hsame).
    fold holders. fold candidates. subst candidates.
    rewrite length_map.
    destruct holders as [|x [|y l]]; reflexivity.
Qed.

Lemma unprefixed_column_without_aliases_witness :
  let col := {| col_name := "id"; col_table := "";
                col_ancestors := [Select] |} in
  contribution orders_schema (_collect_real_table_aliases
                                select_id_from_orders)
    (_collect_derived_aliases select_id_from_orders) col = ([], []).
Proof.
  intros col.
  apply (unprefixed_column_without_aliases select_id_from_orders
           orders_schema col).
  - intros d n a args Hr.
    assert (Hin : In (n, a) (find_all_tables select_id_from_orders))
      by (apply find_all_tables_iff; now exists d, args).
    vm_compute in Hin. destruct Hin as [Hin|[]]. now injection Hin.
  - reflexivity.
  - discriminate.
Defined.

End ColumnFacts.

(* ================================================================= *)
(** ** The schema snapshot built from the rows of information_schema *)

Module SnapshotFacts.
Import Text Resolver DictFacts Snapshot.
Local Open Scope string_scope.

Local Abbreviation holds :=
  (fun (d : schema) (t c : string) =>
     exists cols, dict_get t d = Some cols /\ In c cols).

Local Abbreviation tidy :=
  (fun d : schema =>
     NoDup (keys d)
     /\ forall t cols, dict_get t d = Some cols -> cols <> [] /\ NoDup cols).

Lemma in_set_add :
  forall x xs y, In y (set_add x xs) <-> In y xs \/ y = x.
Proof.
  intros x xs y. unfold set_add. destruct (mem x xs) eqn:E.
  - apply mem_iff in E. split; [now left | intros [H| ->]; assumption].
  - rewrite in_app_iff. simpl. split; intros [H|H]; auto.
    + destruct H as [H|[]]. now right.
Qed.

Lemma nodup_set_add :
  forall x xs, NoDup xs -> NoDup (set_add x xs).
Proof.
  intros x xs H. unfold set_add. destruct (mem x xs) eqn:E; [exact H|].
  apply mem_false_iff in E. apply NoDup_app; [exact H | | ].
  - constructor; [intros [] | constructor].
  - intros y Hy [<-|[]]. contradiction.
Qed.

Lemma set_add_not_empty : forall x xs, set_add x xs <> [].
Proof.
  intros x xs. unfold set_add. destruct (mem x xs) eqn:E.
  - apply mem_iff in E. destruct xs; [contradiction | discriminate].
  - destruct xs; discriminate.
Qed.

Lemma setdefault_add_holds :
  forall d t c t' c',
    holds (setdefault_add d t c) t' c'
    <-> holds d t' c' \/ (t' = t /\ c' = c).
Proof.
  intros d t c t' c'. unfold setdefault_add.
  destruct (string_dec t' t) as [->|Hne].
  - destruct (dict_get t d) as [cols|] eqn:E.
    + rewrite dict_get_set_same. split.
      * intros [cols' [E' H]]. injection E' as <-.
        apply in_set_add in H. destruct H as [H| ->]; [left|now right].
        now exists cols.
      * intros [[cols' [E' H]]| [_ ->]]; eexists; split; try reflexivity;
          apply in_set_add; [left; congruence | now right].
    + rewrite dict_get_set_same. split.
      * intros [cols' [E' H]]. injection E' as <-.
        destruct H as [->|[]]. now right.
      * intros [[cols' [E' _]]| [_ ->]]; [discriminate|].
        exists [c]. split; [reflexivity | now left].
  - destruct (dict_get t d) as [cols|];
      rewrite dict_get_set_other by exact Hne;
      (split; [intros H; now left | intros [H|[H _]];
                                    [exact H | contradiction]]).
Qed.

Lemma setdefault_add_tidy :
  forall d t c, tidy d -> tidy (setdefault_add d t c).
Proof.
  intros d t c [Hnd Hcols]. unfold setdefault_add.
  destruct (dict_get t d) as [cols|] eqn:E.
  - split; [now apply nodup_keys_set|].
    intros t' cols' H. destruct (string_dec t' t) as [->|Hne].
    + rewrite dict_get_set_same in H. injection H as <-.
      split; [apply set_add_not_empty|].
      apply nodup_set_add. now apply (Hcols t cols).
    + rewrite dict_get_set_other in H by exact Hne. now apply (Hcols t').
  - split; [now apply nodup_keys_set|].
    intros t' cols' H. destruct (string_dec t' t) as [->|Hne].
    + rewrite dict_get_set_same in H. injection H as <-.
      split; [discriminate|]. constructor; [intros [] | constructor].
    + rewrite dict_get_set_other in H by exact Hne. now apply (Hcols t').
Qed.

Lemma snapshot_fold :
  forall rows d,
    tidy d ->
    let s :=
      fold_left (fun tables r => setdefault_add tables (fst r) (snd r))
        rows d in
    tidy s
    /\ forall t c, holds s t c <-> holds d t c \/ In (t, c) rows.
Proof.
  induction rows as [|[t0 c0] rows IH]; intros d Hd; cbn [fold_left].
  - split; [exact Hd|]. intros t c. split; [now left | intros [H|[]]].
    exact H.
  - cbn [fst snd].
    destruct (IH (setdefault_add d t0 c0) (setdefault_add_tidy d t0 c0 Hd))
      as [Ht Hh].
    split; [exact Ht|]. intros t c. rewrite Hh, setdefault_add_holds.
    cbn [In]. split.
    + intros [[H| [-> ->]]|H]; auto.
    + intros [H|[H|H]]; auto. injection H as <- <-. auto.
Qed.

(** X13.  The snapshot built from the rows of information_schema has one
    entry per table; every column set is non-empty and holds no column
    twice; and a column belongs to the set of a table exactly when the
    rows hold that (table, column) pair. *)
Theorem snapshot_holds_the_rows :
  forall rows,
    let s := snapshot_of_rows rows in
    NoDup (keys s)
    /\ (forall t cols,
           dict_get t s = Some cols -> cols <> [] /\ NoDup cols)
    /\ (forall t c,
           (exists cols, dict_get t s = Some cols /\ In c cols)
           <-> In (t, c) rows)
    /\ (forall t, In t (keys s) <-> In t (map fst rows)).
Proof.
  intros rows s. subst s. unfold snapshot_of_rows.
  assert (H0 : tidy []).
  { split; [constructor | intros t cols H; discriminate]. }
  destruct (snapshot_fold rows [] H0) as [[Hnd Hcols] Hh].
  assert (Hrows : forall t c,
             (exists cols,
                 dict_get t
                   (fold_left
                      (fun tables r =>
                         setdefault_add tables (fst r) (snd r)) rows [])
                 = Some cols /\ In c cols)
             <-> In (t, c) rows).
  { intros t c. rewrite (Hh t c). split; [|now right].
    intros [[cols [E _]]|H]; [discriminate | exact H]. }
  split; [exact Hnd|]. split; [exact Hcols|]. split; [exact Hrows|].
  intros t. rewrite in_keys_get, in_map_iff. split.
  - intros H.
    destruct (dict_get t _) as [cols|] eqn:E; [|now contradiction H].
    destruct (Hcols t cols E) as [Hne _].
    destruct cols as [|c cols]; [now contradiction Hne|].
    exists (t, c). split; [reflexivity|].
    apply Hrows. exists (c :: cols). split; [exact E | now left].
  - intros [[t' c] [E H]]. simpl in E. subst t'.
    apply Hrows in H. destruct H as [cols [E _]]. congruence.
Qed.

End SnapshotFacts.

(* ================================================================= *)
(** ** The static check: exceptions and findings *)

Module StaticFacts.
Import Text Re Scanner Ast Resolver Py Static Samples Cases.
Local Open Scope string_scope.

(** X14.  The static check raises instead of returning a result exactly
    when the statement was parsed and either the schema snapshot could not
    be fetched (the exception of the fetch escapes) or the parser answered
    [None] for the first expression; a parse failure never raises. *)
Theorem static_check_raises_iff :
  forall sql parsed snapshot e,
    static_check_sql sql parsed snapshot = Raised e
    <-> exists exprs,
          parsed = Returned exprs
          /\ (snapshot = Raised e
              \/ exists schema_tables rest,
                   snapshot = Returned schema_tables
                   /\ exprs = None :: rest
                   /\ e = exn_of
                            "'NoneType' object has no attribute 'find_all'").
Proof.
  intros sql parsed snapshot e. unfold static_check_sql.
  destruct parsed as [pe|exprs].
  { split; [discriminate | intros [x [H _]]; discriminate]. }
  destruct snapshot as [se|schema_tables].
  { split.
    - intros H. injection H as <-. exists exprs. split; [reflexivity|].
      now left.
    - intros [x [_ [H|[s [rest [H _]]]]]]; [|discriminate].
      injection H as ->. reflexivity. }
  destruct exprs as [|[root|] rest].
  - split; [discriminate|].
    intros [x [Hx [H|[s [rest [_ [H _]]]]]]]; [discriminate|].
    injection Hx as <-. discriminate.
  - destruct (_check_schema_columns root schema_tables) as [[mt mc] ac].
    split; [discriminate|].
    intros [x [Hx [H|[s [rest' [_ [H _]]]]]]]; [discriminate|].
    injection Hx as <-. discriminate.
  - split.
    + intros H. injection H as <-. exists (None :: rest).
      split; [reflexivity|]. right. now exists schema_tables, rest.
    + intros [x [Hx [H|[s [rest' [_ [_ ->]]]]]]]; [discriminate|].
      reflexivity.
Qed.

Ltac pick_finding :=
  first [ eexists; split; [left; reflexivity | reflexivity]
        | eexists; split; [right; left; reflexivity | reflexivity]
        | eexists; split; [right; right; left; reflexivity | reflexivity] ].

Ltac settle :=
  repeat match goal with
         | |- _ /\ _ => split
         | |- _ <-> _ => split
         | |- forall _, _ => intro
         | H : exists _, _ |- _ => destruct H
         | H : _ /\ _ |- _ => destruct H
         | H : _ \/ _ |- _ => destruct H
         | H : In _ (_ :: _) |- _ => destruct H
         | H : In _ [] |- _ => destruct H
         end;
  subst; cbn [code level] in *;
  try discriminate; try congruence; try reflexivity;
  try pick_finding;
  try (left; pick_finding); try (right; pick_finding);
  try (left; reflexivity); try (right; left; reflexivity);
  try (right; right; reflexivity).

(** X15.  In a result of the static check on a parsed statement the
    findings report the multi-statement and read-only stages only: the
    multi-statement stage fails exactly when the parser answered another
    number of expressions than one, and then a MULTI_STATEMENT finding is
    present; the read-only stage fails exactly when a NON_READONLY or a
    FORBIDDEN_TOKEN finding is present; every finding is an error of one of
    these three codes; so the findings are empty exactly when both stages
    pass, whatever the schema stage found. *)
Theorem findings_report_lexical_stages :
  forall sql exprs snapshot r,
    static_check_sql sql (Returned exprs) snapshot = Returned r ->
    let c := check r in
    let has := fun name => exists f, In f (findings r) /\ code f = name in
    (multi_statement c = fail <-> length exprs <> 1)
    /\ (has "MULTI_STATEMENT" <-> multi_statement c = fail)
    /\ (has "NON_READONLY" \/ has "FORBIDDEN_TOKEN" <-> readonly c = fail)
    /\ (has "FORBIDDEN_TOKEN" <-> forbidden c <> [])
    /\ (forall f, In f (findings r) ->
          level f = "error"
          /\ (code f = "MULTI_STATEMENT" \/ code f = "NON_READONLY"
              \/ code f = "FORBIDDEN_TOKEN"))
    /\ (findings r = [] <->
        multi_statement c = pass /\ readonly c = pass).
Proof.
  intros sql exprs snapshot r H. unfold static_check_sql in H.
  destruct snapshot as [se|schema_tables]; [discriminate|].
  match type of H with
  | context [match ?x with Raised _ => _ | Returned _ => _ end] =>
      destruct x as [e|[[mt mc] ac]]; [discriminate|]
  end.
  injection H as <-.
  cbn [check findings multi_statement readonly forbidden].
  split.
  { rewrite <- Nat.eqb_neq.
    destruct (Nat.eqb (length exprs) 1); cbn [negb];
      split; intros; first [reflexivity | discriminate]. }
  generalize (negb (Nat.eqb (length exprs) 1)) as multi.
  generalize (match exprs with
              | [] => false
              | top :: _ =>
                  negb match top with
                       | Some e => _is_select_like e
                       | None => false
                       end
              end) as not_select.
  generalize (forbidden_hits (_remove_comments_and_strings sql)) as hits.
  intros [|hit hits] [|] [|]; cbn [is_empty negb orb app]; settle.
Qed.

Lemma findings_report_lexical_stages_witness :
  exists r,
    static_check_sql sql_t (Returned [Some select_from_t])
      (Returned orders_schema) = Returned r
    /\ overall r = fail
    /\ findings r = [].
Proof.
  eexists. split; [vm_compute; reflexivity|]. split; [reflexivity|].
  match goal with
  | |- findings ?res = [] =>
      apply (proj2 (proj2 (proj2 (proj2 (proj2
               (findings_report_lexical_stages sql_t
                  [Some select_from_t] (Returned orders_schema) res
                  ltac:(vm_compute; reflexivity)))))))
  end.
  split; reflexivity.
Defined.

End StaticFacts.

(* ================================================================= *)
(** ** The execution: what reaches the store, and the shape of outcomes *)

Module ExecutionFacts.
Import Text Scanner Py Resolver Env Dynamic Notions Samples Cases.
Local Open Scope string_scope.

(** X16.  The execution leaves the files alone and talks to the store in
    one fixed way: nothing when a gate refuses the statement; a connection
    attempt only when the connection fails; otherwise the connection, the
    cursor, the COUNT wrapper, the LIMIT wrapper and the close, in that
    order.  So the statement is never executed as given, the preview runs
    whether or not the count failed, and an opened connection is always
    closed. *)
Theorem dynamic_check_trace :
  forall w sql N P st,
    let st' := snd (dynamic_check_sql w sql N P st) in
    fs st' = fs st
    /\ writes st' = writes st
    /\ trace st'
       = (trace st
          ++ (if negb (_is_single_statement sql && _is_readonly_select sql)
              then []
              else
                match connect_error w, cursor_error w with
                | Some _, _ => [Connect]
                | None, Some _ => [Connect; OpenCursor; CloseConnection]
                | None, None =>
                    [Connect; OpenCursor; Execute (count_sql sql);
                     Execute (preview_sql sql P); CloseConnection]
                end))%list.
Proof.
  intros w sql N P st st'. subst st'. unfold dynamic_check_sql.
  destruct (_is_single_statement sql); cbn [negb andb];
    [|cbv [ret snd]; now rewrite app_nil_r].
  destruct (_is_readonly_select sql); cbn [negb];
    [|cbv [ret snd]; now rewrite app_nil_r].
  cbv [bind log ret probe_and_preview _count_rows _preview_rows run_query
       close_connection].
  cbn [fs writes trace].
  destruct (connect_error w); [cbn [snd fs writes trace]; auto|].
  destruct (cursor_error w); destruct (close_error w);
    cbn [snd fs writes trace]; rewrite <- ?app_assoc; auto.
Qed.

(** X17.  Every outcome of the execution has one of two shapes: a success
    (ok, status success, no error, a row count and sample rows, and with a
    row count of zero no sample rows and the empty-result hint) or a runtime
    error (not ok, an error description, no row count and no sample
    rows). *)
Theorem dynamic_result_shape :
  forall w sql N P st,
    let r := fst (dynamic_check_sql w sql N P st) in
    stage r = "dynamic"
    /\ (ok r = true
        /\ status r = "success" /\ error r = None
        /\ (exists n rows,
               row_count r = Some n /\ sample_rows r = Some rows
               /\ (n = 0%Z -> rows = [] /\ message r = empty_hint))
        \/ ok r = false
           /\ status r = "runtime_error" /\ error r <> None
           /\ row_count r = None /\ sample_rows r = None
           /\ message r = "执行失败").
Proof.
  intros w sql N P st r. subst r. unfold dynamic_check_sql.
  destruct (_is_single_statement sql); cbn [negb];
    [|cbv [ret fst]; split; [reflexivity|right]; repeat split; discriminate].
  destruct (_is_readonly_select sql); cbn [negb];
    [|cbv [ret fst]; split; [reflexivity|right]; repeat split; discriminate].
  cbv [bind log ret probe_and_preview _count_rows _preview_rows run_query
       close_connection].
  destruct (connect_error w);
    [cbn [fst]; split; [reflexivity|right]; repeat split; discriminate|].
  destruct (cursor_error w).
  { destruct (close_error w); cbn [fst]; (split; [reflexivity|right]);
      repeat split; discriminate. }
  set (total := fetch_count w (execute w (count_sql sql))).
  set (samples := fetch_sample w (execute w (preview_sql sql P)) N).
  assert (H : forall r, r = outcome_of total samples ->
     stage r = "dynamic"
    /\ (ok r = true
        /\ status r = "success" /\ error r = None
        /\ (exists n rows,
               row_count r = Some n /\ sample_rows r = Some rows
               /\ (n = 0%Z -> rows = [] /\ message r = empty_hint))
        \/ ok r = false
           /\ status r = "runtime_error" /\ error r <> None
           /\ row_count r = None /\ sample_rows r = None
           /\ message r = "执行失败")).
  { intros r ->. unfold outcome_of.
    destruct samples as [pe|rows].
    - split; [reflexivity|right]; repeat split; discriminate.
    - destruct total as [ce|n].
      + destruct (Z.eqb_spec (Z.of_nat (length rows)) 0) as [E|E].
        * split; [reflexivity|left]. repeat split.
          exists 0%Z, []. repeat split.
        * split; [reflexivity|left]. repeat split.
          exists (Z.of_nat (length rows)), rows. repeat split;
            intros; contradiction.
      + destruct (Z.eqb_spec n 0) as [E|E].
        * split; [reflexivity|left]. repeat split.
          exists 0%Z, []. repeat split.
        * split; [reflexivity|left]. repeat split.
          exists n, rows. repeat split; intros; contradiction. }
  destruct (close_error w); cbn [fst]; now apply H.
Qed.

End ExecutionFacts.

(* ================================================================= *)
(** ** The export: its effects, its exceptions, and what it writes *)

Module ExportRunFacts.
Import Text Scanner Py Resolver Env Exporter Notions DictFacts ExporterFacts
  Samples Cases.
Local Open Scope string_scope.
Local Open Scope list_scope.

Lemma touches_refl : forall path st, touches path st st.
Proof.
  intros path st. split; [reflexivity|]. exists []. split;
    [now rewrite app_nil_r | constructor].
Qed.

Lemma touches_trans :
  forall path a b c, touches path a b -> touches path b c ->
                     touches path a c.
Proof.
  intros path a b c [F1 [e1 [T1 C1]]] [F2 [e2 [T2 C2]]]. split.
  - intros p Hp. now rewrite F2, F1.
  - exists (e1 ++ e2). split; [now rewrite T2, T1, app_assoc|].
    apply Forall_app. now split.
Qed.

Lemma dict_get_remove_other :
  forall (V : Type) k k' (d : dict V),
    k' <> k -> dict_get k' (dict_remove k d) = dict_get k' d.
Proof.
  induction d as [|[k0 v] d IH]; intros Hne; simpl; [reflexivity|].
  destruct (Strings.eqb_spec k k0) as [->|Hk]; simpl.
  - destruct (Strings.eqb_spec k' k0); [contradiction | now apply IH].
  - destruct (String.eqb k' k0); [reflexivity | now apply IH].
Qed.

Lemma append_record_other :
  forall path rec d p,
    p <> path -> dict_get p (append_record path rec d) = dict_get p d.
Proof.
  intros path rec d p Hp. unfold append_record.
  destruct (dict_get path d); [|reflexivity].
  now apply dict_get_set_other.
Qed.

Lemma writerow_touches :
  forall w path rec st, touches path st (snd (writerow w path rec st)).
Proof.
  intros w path rec st. unfold writerow.
  cbv [bind log next_write get_fs put_fs ret]. cbn [fs writes trace].
  destruct (write_error w (writes st)); cbn [snd fs trace].
  - split; [reflexivity|]. exists [WriteRow path]. split; [reflexivity|].
    repeat constructor.
  - split; [intros p Hp; now apply append_record_other|].
    exists [WriteRow path]. split; [reflexivity|]. repeat constructor.
Qed.

Lemma write_batch_touches :
  forall w path cols batch st,
    touches path st (snd (write_batch w path cols batch st)).
Proof.
  intros w path cols. induction batch as [|r batch IH]; intros st.
  - apply touches_refl.
  - cbn [write_batch]. unfold bind.
    pose proof (writerow_touches w path
                  (map (fun col => row_get col r) cols) st) as H.
    destruct (writerow w path _ st) as [[e|[]] st1]; cbn [snd] in *.
    + exact H.
    + eapply touches_trans; [exact H | apply IH].
Qed.

Lemma log_calm_touches :
  forall path e st, calm e -> touches path st (snd (log e st)).
Proof.
  intros path e st He. split; [reflexivity|]. exists [e].
  split; [reflexivity|]. now constructor.
Qed.

Lemma stream_touches :
  forall w path cols answers n st,
    touches path st (snd (stream w path cols answers n st)).
Proof.
  intros w path cols. induction answers as [|a answers IH]; intros n st.
  - cbn [stream]. cbv [bind ret]. now apply (log_calm_touches path FetchMany).
  - cbn [stream]. unfold bind.
    pose proof (log_calm_touches path FetchMany st I) as H0.
    destruct (log FetchMany st) as [[] st0]. cbn [snd] in H0.
    destruct a as [e|[|r batch]]; [exact H0 | exact H0 |].
    pose proof (write_batch_touches w path cols (r :: batch) st0) as H1.
    destruct (write_batch w path cols (r :: batch) st0) as [[e|[]] st1];
      cbn [snd] in *.
    + eapply touches_trans; eassumption.
    + eapply touches_trans; [exact H0|].
      eapply touches_trans; [exact H1 | apply IH].
Qed.

Lemma cleanup_touches :
  forall w path st, touches path st (snd (cleanup w path st)).
Proof.
  intros w path st. unfold cleanup. cbv [bind get_fs log put_fs ret].
  destruct (dict_get path (fs st)); [|apply touches_refl].
  cbn [fs writes trace].
  destruct (remove_error w); cbn [snd fs trace].
  - split; [reflexivity|]. exists [Remove path]. split; [reflexivity|].
    repeat constructor.
  - split; [intros p Hp; now apply dict_get_remove_other|].
    exists [Remove path]. split; [reflexivity|]. repeat constructor.
Qed.

Lemma touches_runs_once :
  forall path sql a b, touches path a b -> runs_once path sql a b.
Proof.
  intros path sql a b [F [evs [T C]]]. split; [exact F|].
  exists evs. split; [exact T | now left].
Qed.

Lemma touches_execute :
  forall path sql a b c,
    touches path a b -> touches path (snd (log (Execute sql) b)) c ->
    runs_once path sql a c.
Proof.
  intros path sql a b c [F1 [e1 [T1 C1]]] [F2 [e2 [T2 C2]]].
  cbn [log snd fs trace] in *. split.
  - intros p Hp. now rewrite F2, F1.
  - exists (e1 ++ Execute sql :: e2). split.
    + rewrite T2, T1, <- !app_assoc. reflexivity.
    + right. now exists e1, e2.
Qed.

Lemma runs_once_touches :
  forall path sql a b c,
    runs_once path sql a b -> touches path b c -> runs_once path sql a c.
Proof.
  intros path sql a b c [F1 [e1 [T1 C1]]] [F2 [e2 [T2 C2]]]. split.
  - intros p Hp. now rewrite F2, F1.
  - exists (e1 ++ e2). split; [now rewrite T2, T1, app_assoc|].
    destruct C1 as [C1|[before [after [-> [Cb Ca]]]]].
    + left. apply Forall_app. now split.
    + right. exists before, (after ++ e2). split.
      * now rewrite <- app_assoc.
      * split; [exact Cb | apply Forall_app; now split].
Qed.

Lemma open_file_touches :
  forall w path enc st, touches path st (snd (open_file w path enc st)).
Proof.
  intros w path enc st. unfold open_file.
  cbv [bind log get_fs put_fs ret]. cbn [fs writes trace].
  destruct (open_error w); cbn [snd fs trace].
  - split; [reflexivity|]. exists [OpenFile path]. split; [reflexivity|].
    repeat constructor.
  - split; [intros p Hp; now apply dict_get_set_other|].
    exists [OpenFile path]. split; [reflexivity|]. repeat constructor.
Qed.

Lemma write_all_touches :
  forall w sql fetch_size path st,
    touches path (snd (log (Execute sql) st))
      (snd (write_all w sql fetch_size path st)).
Proof.
  intros w sql fetch_size path st. unfold write_all, bind.
  destruct (log (Execute sql) st) as [[] st1]. cbn [snd].
  destruct (description w sql) as [e|cols]; [apply touches_refl|].
  assert (Hh : forall h : M (outcome unit),
             h = match cols with
                 | [] => ret (Returned tt)
                 | _ :: _ =>
                     writerow w path (map (fun c => Some (VStr c)) cols)
                 end ->
             touches path st1 (snd (h st1))).
  { intros h ->. destruct cols;
      [apply touches_refl | apply writerow_touches]. }
  specialize (Hh _ eq_refl).
  destruct (match cols with
            | [] => ret (Returned tt)
            | _ :: _ => writerow w path (map (fun c => Some (VStr c)) cols)
            end st1) as [[e|[]] st2]; cbn [snd] in Hh; [exact Hh|].
  pose proof (stream_touches w path cols (fetchmany w sql fetch_size) 0 st2)
    as Hs.
  destruct (stream w path cols (fetchmany w sql fetch_size) 0 st2)
    as [[e|n] st3]; cbn [snd] in Hs.
  - eapply touches_trans; eassumption.
  - destruct (flush_error w); cbn [ret snd];
      eapply touches_trans; eassumption.
Qed.

Lemma with_block_runs_once :
  forall w sql fetch_size path enc st,
    runs_once path sql st (snd (with_block w sql fetch_size path enc st)).
Proof.
  intros w sql fetch_size path enc st. unfold with_block, bind.
  pose proof (log_calm_touches path OpenCursor st I) as H0.
  destruct (log OpenCursor st) as [[] st0]. cbn [snd] in H0.
  destruct (cursor_error w); [now apply touches_runs_once|].
  pose proof (open_file_touches w path enc st0) as H1.
  destruct (open_file w path enc st0) as [[e|[]] st1]; cbn [snd] in H1.
  - apply touches_runs_once. eapply touches_trans; eassumption.
  - eapply touches_execute; [|apply write_all_touches].
    eapply touches_trans; eassumption.
Qed.

Lemma filter_calm :
  forall evs, Forall calm evs -> filter is_execute evs = [].
Proof.
  induction 1 as [|e evs He _ IH]; [reflexivity|].
  cbn [filter]. destruct e; cbn in *; try contradiction; exact IH.
Qed.

Lemma calm_not_connect : forall evs, Forall calm evs -> ~ In Connect evs.
Proof.
  intros evs H Hin. rewrite Forall_forall in H. exact (H _ Hin).
Qed.

Lemma close_connection_touches :
  forall w st,
    fs (snd (close_connection w st)) = fs st
    /\ trace (snd (close_connection w st)) = trace st ++ [CloseConnection].
Proof.
  intros w st. unfold close_connection. cbv [bind log ret].
  destruct (close_error w); split; reflexivity.
Qed.

(** what a request does once both gates are passed and the directory is
    made *)
Lemma save_to_csv_effects :
  forall w sql fetch_size excel_friendly st,
    let st' := snd (save_to_csv w sql fetch_size excel_friendly st) in
    (forall p, p <> path_of w -> dict_get p (fs st') = dict_get p (fs st))
    /\ exists evs,
         trace st' = trace st ++ evs
         /\ (filter is_execute evs = []
             \/ filter is_execute evs = [Execute sql])
         /\ (evs <> [] ->
             _is_single_statement sql = true
             /\ _is_readonly_select sql = true)
         /\ (In Connect evs -> connect_error w = None ->
             exists evs', evs = evs' ++ [CloseConnection]).
Proof.
  intros w sql fetch_size excel_friendly st st'. subst st'.
  unfold save_to_csv.
  assert (Hnone : forall s : state,
             (forall p, p <> path_of w -> dict_get p (fs s) = dict_get p (fs s))
             /\ exists evs,
                 trace s = trace s ++ evs
                 /\ (filter is_execute evs = []
                     \/ filter is_execute evs = [Execute sql])
                 /\ (evs <> [] ->
                     _is_single_statement sql = true
                     /\ _is_readonly_select sql = true)
                 /\ (In Connect evs -> connect_error w = None ->
                     exists evs', evs = evs' ++ [CloseConnection])).
  { intros s. split; [reflexivity|]. exists [].
    split; [now rewrite app_nil_r|]. split; [now left|].
    split; [intros H; now contradiction H | intros []]. }
  destruct (_is_single_statement sql); cbn [negb]; [|apply Hnone].
  destruct (_is_readonly_select sql); cbn [negb]; [|apply Hnone].
  clear Hnone. unfold bind.
  destruct (log (MakeDirs output_dir) st) as [[] st0] eqn:E0.
  assert (T0 : fs st0 = fs st /\ trace st0 = trace st ++ [MakeDirs output_dir]).
  { cbv [log] in E0. injection E0 as <-. split; reflexivity. }
  destruct T0 as [F0 T0].
  destruct (makedirs_error w).
  { cbn [ret snd]. split; [intros; now rewrite F0|].
    exists [MakeDirs output_dir]. split; [exact T0|].
    split; [now left|]. split; [auto|]. intros [H|[]]. discriminate. }
  destruct (log Connect st0) as [[] st1] eqn:E1.
  assert (T1 : fs st1 = fs st
               /\ trace st1 = trace st ++ [MakeDirs output_dir; Connect]).
  { cbv [log] in E1. injection E1 as <-. cbn [fs trace].
    rewrite F0, T0, <- app_assoc. split; reflexivity. }
  destruct T1 as [F1 T1].
  destruct (connect_error w).
  { cbn [ret snd]. split; [intros; now rewrite F1|].
    exists [MakeDirs output_dir; Connect]. split; [exact T1|].
    split; [now left|]. split; [auto|]. intros _ H. discriminate. }
  pose proof (with_block_runs_once w sql fetch_size (path_of w)
                (encoding_of excel_friendly) st1) as [F2 [evs [T2 C2]]].
  destruct (with_block w sql fetch_size (path_of w)
              (encoding_of excel_friendly) st1) as [body st2].
  cbn [snd] in F2, T2.
  assert (Hfinish : forall st3,
             touches (path_of w) st2 st3 ->
             (forall p, p <> path_of w ->
                        dict_get p (fs (snd (close_connection w st3)))
                        = dict_get p (fs st))
             /\ exists evs0,
                 trace (snd (close_connection w st3)) = trace st ++ evs0
                 /\ (filter is_execute evs0 = []
                     \/ filter is_execute evs0 = [Execute sql])
                 /\ (evs0 <> [] -> true = true /\ true = true)
                 /\ (In Connect evs0 -> @None exn = None ->
                     exists evs', evs0 = evs' ++ [CloseConnection])).
  { intros st3 [F3 [evs3 [T3 C3]]].
    destruct (close_connection_touches w st3) as [F4 T4]. split.
    - intros p Hp. now rewrite F4, F3, F2, F1.
    - exists ([MakeDirs output_dir; Connect] ++ evs ++ evs3
              ++ [CloseConnection]).
      split; [rewrite T4, T3, T2, T1, <- !app_assoc; reflexivity|].
      split; [|split; [auto|]].
      + cbn [app filter is_execute]. rewrite !filter_app.
        rewrite (filter_calm evs3 C3). cbn [filter is_execute app].
        destruct C2 as [C2|[before [after [-> [Cb Ca]]]]].
        * left. now rewrite (filter_calm evs C2).
        * right. rewrite filter_app. cbn [filter is_execute].
          now rewrite (filter_calm _ Cb), (filter_calm _ Ca).
      + intros _ _.
        exists ([MakeDirs output_dir; Connect] ++ evs ++ evs3).
        now rewrite <- !app_assoc. }
  destruct body as [e|n].
  - pose proof (cleanup_touches w (path_of w) st2) as H3.
    destruct (cleanup w (path_of w) st2) as [[] st3]. cbn [snd] in H3.
    specialize (Hfinish st3 H3).
    destruct (close_connection w st3) as [[] st4]. exact Hfinish.
  - specialize (Hfinish st2 (touches_refl _ _)).
    destruct (close_connection w st2) as [[] st4]. exact Hfinish.
Qed.

(** X18.  An export changes no file but its own output file: every other
    path of the file system holds after the request what it held before,
    whatever fails on the way. *)
Theorem export_touches_one_file :
  forall w sql fetch_size excel_friendly st p,
    p <> path_of w ->
    dict_get p (fs (snd (save_to_csv w sql fetch_size excel_friendly st)))
    = dict_get p (fs st).
Proof.
  intros w sql fetch_size excel_friendly st p Hp.
  now apply (proj1 (save_to_csv_effects w sql fetch_size excel_friendly st)).
Qed.

Lemma export_touches_one_file_witness :
  dict_get "../exports/earlier.csv"
    (fs (snd (save_to_csv three_rows_world sql_t 1000 true start)))
  = dict_get "../exports/earlier.csv" (fs start).
Proof.
  apply (export_touches_one_file three_rows_world sql_t 1000 true start).
  intros H. vm_compute in H. discriminate.
Defined.


(** X19.  An export does nothing at all unless both gates accept the
    statement; it executes the statement as given and at most once, and no
    other query; and when the connection was opened, closing it is the last
    thing it does. *)
Theorem export_runs_statement_once :
  forall w sql fetch_size excel_friendly st,
    exists evs,
      trace (snd (save_to_csv w sql fetch_size excel_friendly st))
      = trace st ++ evs
      /\ (filter is_execute evs = []
          \/ filter is_execute evs = [Execute sql])
      /\ (evs <> [] ->
          _is_single_statement sql = true
          /\ _is_readonly_select sql = true)
      /\ (In Connect evs -> connect_error w = None ->
          exists evs', evs = evs' ++ [CloseConnection]).
Proof.
  intros w sql fetch_size excel_friendly st.
  exact (proj2 (save_to_csv_effects w sql fetch_size excel_friendly st)).
Qed.

(** X20.  The only exception that escapes an export is that of making the
    output directory: the request raises exactly when both gates accept the
    statement and [os.makedirs] fails; every later failure is returned as
    a structured result. *)
Theorem export_raises_iff :
  forall w sql fetch_size excel_friendly st e,
    fst (save_to_csv w sql fetch_size excel_friendly st) = Raised e
    <-> _is_single_statement sql = true
        /\ _is_readonly_select sql = true
        /\ makedirs_error w = Some e.
Proof.
  intros w sql fetch_size excel_friendly st e. unfold save_to_csv.
  destruct (_is_single_statement sql); cbn [negb];
    [|cbn [ret fst]; split; [discriminate | intros [H _]; discriminate]].
  destruct (_is_readonly_select sql); cbn [negb];
    [|cbn [ret fst]; split; [discriminate | intros [_ [H _]]; discriminate]].
  unfold bind. destruct (log (MakeDirs output_dir) st) as [[] st0].
  destruct (makedirs_error w) as [e0|].
  { cbn [ret fst]. split.
    - intros H. injection H as <-. auto.
    - intros [_ [_ H]]. injection H as <-. reflexivity. }
  assert (Hno : forall r : outcome result * state,
             (exists x, fst r = Returned x) ->
             fst r = Raised e <->
             true = true /\ true = true /\ @None exn = Some e).
  { intros r [x Hx]. rewrite Hx. split;
      [discriminate | intros [_ [_ H]]; discriminate]. }
  destruct (log Connect st0) as [[] st1].
  destruct (connect_error w); [apply Hno; cbn [ret fst]; eauto|].
  destruct (with_block w sql fetch_size (path_of w)
              (encoding_of excel_friendly) st1) as [[e1|n] st2].
  - destruct (cleanup w (path_of w) st2) as [[] st3].
    destruct (close_connection w st3) as [[] st4].
    apply Hno. cbn [ret fst]. eauto.
  - destruct (close_connection w st2) as [[] st4].
    apply Hno. cbn [ret fst]. eauto.
Qed.

Section Healthy.
Variable w : World.
Variable path : string.
Variable cols : list string.
Hypothesis Hwrite : forall i, write_error w i = None.

Lemma writerow_appends :
  forall rec st enc recs,
    dict_get path (fs st) = Some {| encoding := enc; records := recs |} ->
    exists st',
      writerow w path rec st = (Returned tt, st')
      /\ dict_get path (fs st')
         = Some {| encoding := enc; records := recs ++ [rec] |}.
Proof.
  intros rec st enc recs H. unfold writerow.
  cbv [bind log next_write get_fs put_fs ret]. cbn [fs writes trace].
  rewrite Hwrite. eexists. split; [reflexivity|]. cbn [fs].
  unfold append_record. rewrite H. cbn [encoding records].
  apply dict_get_set_same.
Qed.

Lemma write_batch_appends :
  forall batch st enc recs,
    dict_get path (fs st) = Some {| encoding := enc; records := recs |} ->
    exists st',
      write_batch w path cols batch st = (Returned tt, st')
      /\ dict_get path (fs st')
         = Some {| encoding := enc;
                   records := recs ++ map (project cols) batch |}.
Proof.
  induction batch as [|r batch IH]; intros st enc recs H.
  - exists st. split; [reflexivity|]. cbn [map]. now rewrite app_nil_r.
  - cbn [write_batch]. unfold bind.
    destruct (writerow_appends (map (fun col => row_get col r) cols)
                st enc recs H) as [st1 [E1 H1]].
    rewrite E1. destruct (IH st1 enc _ H1) as [st2 [E2 H2]].
    exists st2. split; [exact E2|]. rewrite H2. cbn [map].
    rewrite <- app_assoc. reflexivity.
Qed.

Lemma stream_appends :
  forall answers n st enc recs,
    fetches_well answers ->
    dict_get path (fs st) = Some {| encoding := enc; records := recs |} ->
    exists st',
      stream w path cols answers n st
      = (Returned (n + length (received answers)), st')
      /\ dict_get path (fs st')
         = Some {| encoding := enc;
                   records := recs ++ map (project cols)
                                        (received answers) |}.
Proof.
  induction answers as [|a answers IH]; intros n st enc recs Hwell H.
  - cbn [stream received]. cbv [bind log ret]. eexists.
    split; [now rewrite Nat.add_0_r|]. cbn [fs map].
    now rewrite app_nil_r.
  - cbn [stream]. unfold bind.
    destruct (log FetchMany st) as [[] st0] eqn:E0.
    assert (H0 : dict_get path (fs st0)
                 = Some {| encoding := enc; records := recs |}).
    { cbv [log] in E0. injection E0 as <-. exact H. }
    destruct a as [e|[|r batch]]; [contradiction | |].
    + cbn [received]. exists st0. cbn [ret].
      split; [now rewrite Nat.add_0_r|]. cbn [map]. now rewrite app_nil_r.
    + destruct (write_batch_appends (r :: batch) st0 enc recs H0)
        as [st1 [E1 H1]].
      rewrite E1. cbn [fetches_well] in Hwell.
      destruct (IH (n + length (r :: batch)) st1 enc _ Hwell H1)
        as [st2 [E2 H2]].
      exists st2. split.
      * rewrite E2. cbn [received]. rewrite length_app.
        now rewrite Nat.add_assoc.
      * rewrite H2. cbn [received]. rewrite map_app, app_assoc.
        reflexivity.
Qed.

Lemma write_all_healthy :
  forall sql fetch_size st enc,
    description w sql = Returned cols ->
    flush_error w = None ->
    fetches_well (fetchmany w sql fetch_size) ->
    dict_get path (fs st) = Some {| encoding := enc; records := [] |} ->
    exists st',
      write_all w sql fetch_size path st
      = (Returned (length (received (fetchmany w sql fetch_size))), st')
      /\ dict_get path (fs st')
         = Some {| encoding := enc;
                   records :=
                     header cols
                     ++ map (project cols)
                          (received (fetchmany w sql fetch_size)) |}.
Proof.
  intros sql fetch_size st enc Hdesc Hflush Hwell H.
  unfold write_all, bind.
  destruct (log (Execute sql) st) as [[] st1] eqn:E1.
  assert (H1 : dict_get path (fs st1)
               = Some {| encoding := enc; records := [] |}).
  { cbv [log] in E1. injection E1 as <-. exact H. }
  rewrite Hdesc.
  assert (Hh : exists st2,
             match cols with
             | [] => ret (Returned tt)
             | _ :: _ =>
                 writerow w path (map (fun c => Some (VStr c)) cols)
             end st1 = (Returned tt, st2)
             /\ dict_get path (fs st2)
                = Some {| encoding := enc; records := header cols |}).
  { destruct cols as [|c cols'] eqn:Ec.
    - exists st1. split; [reflexivity | exact H1].
    - destruct (writerow_appends
                  (map (fun c => Some (VStr c)) (c :: cols')) st1 _ _ H1)
        as [st2 [E2 H2]].
      exists st2. split; [exact E2 | exact H2]. }
  destruct Hh as [st2 [E2 H2]]. rewrite E2.
  destruct (stream_appends (fetchmany w sql fetch_size) 0 st2 _ _ Hwell H2)
    as [st3 [E3 H3]].
  rewrite E3, Hflush. exists st3. split; [reflexivity | exact H3].
Qed.

Lemma with_block_healthy :
  forall sql fetch_size st enc,
    cursor_error w = None ->
    open_error w = None ->
    description w sql = Returned cols ->
    flush_error w = None ->
    fetches_well (fetchmany w sql fetch_size) ->
    exists st',
      with_block w sql fetch_size path enc st
      = (Returned (length (received (fetchmany w sql fetch_size))), st')
      /\ dict_get path (fs st')
         = Some {| encoding := enc;
                   records :=
                     header cols
                     ++ map (project cols)
                          (received (fetchmany w sql fetch_size)) |}.
Proof.
  intros sql fetch_size st enc Hcur Hopen Hdesc Hflush Hwell.
  unfold with_block, bind.
  destruct (log OpenCursor st) as [[] st0]. rewrite Hcur.
  unfold open_file, bind.
  destruct (log (OpenFile path) st0) as [[] st1]. rewrite Hopen.
  cbv [get_fs put_fs ret].
  match goal with
  | |- context [write_all w sql fetch_size path ?s] =>
      destruct (write_all_healthy sql fetch_size s enc Hdesc Hflush Hwell)
        as [st2 [E2 H2]]; [apply dict_get_set_same|]
  end.
  exists st2. split; [exact E2 | exact H2].
Qed.

End Healthy.

(** X21.  When nothing fails, the output file holds, in the encoding asked
    for, the header (when the result has columns) followed by one record
    per row received before the first empty batch, in order, each row
    projected on the columns; the result reports the path and that number of
    rows, with status empty when it is zero and success otherwise. *)
Theorem healthy_export_writes_all_rows :
  forall w sql fetch_size excel_friendly st cols,
    _is_single_statement sql = true ->
    _is_readonly_select sql = true ->
    makedirs_error w = None ->
    connect_error w = None ->
    cursor_error w = None ->
    open_error w = None ->
    description w sql = Returned cols ->
    (forall i, write_error w i = None) ->
    flush_error w = None ->
    fetches_well (fetchmany w sql fetch_size) ->
    let rows := received (fetchmany w sql fetch_size) in
    let out := save_to_csv w sql fetch_size excel_friendly st in
    dict_get (path_of w) (fs (snd out))
    = Some {| encoding := encoding_of excel_friendly;
              records := header cols ++ map (project cols) rows |}
    /\ exists r,
         fst out = Returned r
         /\ ok r = true
         /\ status r = (if Nat.eqb (length rows) 0 then "empty"
                        else "success")
         /\ file_path r = Some (path_of w)
         /\ rows_written r = Some (length rows)
         /\ error_message r = None.
Proof.
  intros w sql fetch_size excel_friendly st cols Hs Hr Hm Hc Hcur Hopen
    Hdesc Hwrite Hflush Hwell rows out. subst out.
  unfold save_to_csv. rewrite Hs, Hr, Hm, Hc. cbn [negb].
  unfold bind.
  destruct (log (MakeDirs output_dir) st) as [[] st0].
  destruct (log Connect st0) as [[] st1].
  destruct (with_block_healthy w (path_of w) cols Hwrite sql fetch_size st1
              (encoding_of excel_friendly) Hcur Hopen Hdesc Hflush Hwell)
    as [st2 [E2 H2]].
  rewrite E2. fold rows in H2 |- *.
  pose proof (close_connection_touches w st2) as [F3 _].
  destruct (close_connection w st2) as [[] st3]. cbn [snd] in F3.
  cbn [ret fst snd]. split; [now rewrite F3|].
  destruct (Nat.eqb (length rows) 0) eqn:E.
  - apply Nat.eqb_eq in E. eexists. split; [reflexivity|].
    cbn. rewrite E. repeat split.
  - eexists. split; [reflexivity|]. cbn. repeat split.
Qed.

Lemma healthy_export_writes_all_rows_witness :
  dict_get (path_of three_rows_world)
    (fs (snd (save_to_csv three_rows_world sql_t 1000 true start)))
  = Some {| encoding := "utf-8-sig";
            records := [[Some (VStr "a")]; [Some (VInt 1)];
                        [Some (VInt 2)]; [Some (VInt 3)]] |}.
Proof.
  refine (proj1 (healthy_export_writes_all_rows three_rows_world sql_t 1000
                   true start ["a"] _ _ _ _ _ _ _ _ _ _));
    vm_compute; first [reflexivity | exact I].
Defined.

End ExportRunFacts.

(* ================================================================= *)
(** ** The settings file *)

Module ConfigFacts.
Import Text Py Config Spec Notions TextFacts Envfile.
Local Open Scope string_scope.

Lemma lstrip_fixed :
  forall p s, first_is p s = false -> lstrip_by p s = s.
Proof. intros p [|c s] H; [reflexivity|]. cbn in *. now rewrite H. Qed.

Lemma rstrip_fixed :
  forall p s, last_is p s = false -> rstrip_by p s = s.
Proof.
  intros p s H. unfold rstrip_by.
  rewrite lstrip_fixed by (now rewrite first_is_rev).
  apply rev_involutive.
Qed.

Lemma strip_fixed : forall s, trimmed s -> strip s = s.
Proof.
  intros s [H1 H2]. unfold strip. rewrite lstrip_fixed by exact H1.
  now apply rstrip_fixed.
Qed.

Lemma last_is_append :
  forall p a b, b <> "" -> last_is p (a ++ b) = last_is p b.
Proof.
  induction a as [|c a IH]; intros b Hb; [reflexivity|].
  cbn [append last_is]. destruct (a ++ b) eqn:E.
  - destruct a; [simpl in E; contradiction | discriminate].
  - rewrite <- E. now apply IH.
Qed.

Lemma binding_trimmed :
  forall k v,
    first_is is_space k = false -> last_is is_space k = false ->
    trimmed v -> trimmed (k ++ v).
Proof.
  intros k v Hf Hl [Hv1 Hv2]. split.
  - destruct k; [exact Hv1 | exact Hf].
  - destruct v as [|c v]; [now rewrite ScannerFacts.append_empty_r|].
    now rewrite last_is_append by discriminate.
Qed.

Section Reading.
Variable int : string -> outcome Z.

Lemma read_lines_app :
  forall xs ys s,
    read_lines int s (xs ++ ys)%list
    = match read_lines int s xs with
      | Raised e => Raised e
      | Returned s' => read_lines int s' ys
      end.
Proof.
  induction xs as [|x xs IH]; intros ys s; [reflexivity|].
  cbn [app read_lines]. destruct (read_line int s x); [reflexivity|].
  apply IH.
Qed.

Lemma split_once_none :
  forall s, split_once s = None <-> contains_char is_equals s = false.
Proof.
  induction s as [|c s IH]; cbn [split_once contains_char].
  - tauto.
  - destruct (is_equals c); cbn [orb].
    + split; discriminate.
    + rewrite <- IH. destruct (split_once s) as [[k v]|];
        split; intros; first [reflexivity | discriminate].
Qed.

Lemma space_is_no_equals :
  forall c, is_space c = true -> is_equals c = false.
Proof.
  intros c H. apply (Chars.space_not_code 61 c); [|exact H].
  vm_compute. reflexivity.
Qed.

Lemma strip_keeps_equals :
  forall s, contains_char is_equals s = false ->
            contains_char is_equals (strip s) = false.
Proof.
  intros s H. apply count_none_iff. apply count_none_iff in H.
  unfold strip.
  rewrite count_rstrip, count_lstrip by exact space_is_no_equals.
  exact H.
Qed.

Lemma skipped_line :
  forall s line,
    strip line = ""
    \/ starts_with_hash (strip line) = true
    \/ contains_char is_equals line = false ->
    read_line int s line = Returned s.
Proof.
  intros s line H. unfold read_line.
  destruct H as [->|[->|H]]; [reflexivity | now rewrite orb_true_r |].
  apply strip_keeps_equals, split_once_none in H. rewrite H.
  destruct (_ || _); reflexivity.
Qed.

(** X22.  A line of the settings file that is blank, that starts (after
    white space) with a hash, or that holds no equals sign is ignored: the
    loader answers the same with the line and without it, wherever it
    stands. *)
Theorem comments_and_blank_lines_ignored :
  forall env_path before line after,
    strip line = ""
    \/ starts_with_hash (strip line) = true
    \/ contains_char is_equals line = false ->
    load_mysql_config int env_path (Some (before ++ line :: after)%list)
    = load_mysql_config int env_path (Some (before ++ after)%list).
Proof.
  intros env_path before line after H. unfold load_mysql_config.
  rewrite !read_lines_app. cbn [read_lines].
  destruct (read_lines int unset before) as [e|s]; [reflexivity|].
  now rewrite skipped_line.
Qed.

Lemma split_once_binding :
  forall k v,
    contains_char is_equals k = false ->
    split_once (k ++ String "=" v) = Some (k, v).
Proof.
  induction k as [|c k IH]; intros v H; [reflexivity|].
  cbn [contains_char] in H. apply orb_false_iff in H. destruct H as [Hc H].
  cbn [append split_once]. now rewrite Hc, IH.
Qed.

Lemma read_binding :
  forall s k v,
    k <> "" -> trimmed k -> starts_with_hash k = false ->
    contains_char is_equals k = false ->
    trimmed v ->
    read_line int s (k ++ "=" ++ v) = assign int s k v.
Proof.
  intros s k v Hk [Hk1 Hk2] Hhash Heq Hv. unfold read_line.
  assert (Ht : trimmed (k ++ "=" ++ v)).
  { split.
    - destruct k; [contradiction | exact Hk1].
    - rewrite last_is_append by discriminate.
      destruct v as [|c v]; [reflexivity|].
      change ("=" ++ String c v) with (String "=" "" ++ String c v).
      rewrite last_is_append by discriminate. apply Hv. }
  rewrite (strip_fixed _ Ht).
  replace (String.eqb (k ++ "=" ++ v) "") with false
    by (destruct k; [contradiction | reflexivity]).
  replace (starts_with_hash (k ++ "=" ++ v)) with false
    by (destruct k; [contradiction | now rewrite <- Hhash]).
  cbn [orb]. change ("=" ++ v) with (String "=" v).
  rewrite (split_once_binding k v Heq).
  rewrite (strip_fixed k) by (now split).
  now rewrite (strip_fixed v Hv).
Qed.

(** X23.  Reading back: a file that ends with the six lines KEY=value of
    some settings, values without white space at either end (an empty
    password included) and a port text that [int] reads, loads as exactly
    these settings, whatever readable lines come before: a later line
    overrides an earlier one. *)
Theorem settings_read_back :
  forall env_path earlier s0 c port_text,
    read_lines int unset earlier = Returned s0 ->
    trimmed (cfg_host c) -> trimmed (cfg_user c) ->
    trimmed (cfg_password c) -> trimmed (cfg_database c) ->
    trimmed (cfg_charset c) ->
    trimmed port_text ->
    int port_text = Returned (cfg_port c) ->
    load_mysql_config int env_path
      (Some (earlier ++ env_lines c port_text)%list)
    = Returned c.
Proof.
  intros env_path earlier s0 c port_text Hearlier Hh Hu Hpw Hd Hc Hp Hint.
  unfold load_mysql_config. rewrite read_lines_app, Hearlier.
  unfold env_lines. cbn [read_lines].
  change ("MYSQL_HOST=" ++ cfg_host c)
    with ("MYSQL_HOST" ++ "=" ++ cfg_host c).
  change ("MYSQL_PORT=" ++ port_text) with ("MYSQL_PORT" ++ "=" ++ port_text).
  change ("MYSQL_USER=" ++ cfg_user c)
    with ("MYSQL_USER" ++ "=" ++ cfg_user c).
  change ("MYSQL_PASSWORD=" ++ cfg_password c)
    with ("MYSQL_PASSWORD" ++ "=" ++ cfg_password c).
  change ("MYSQL_DB=" ++ cfg_database c)
    with ("MYSQL_DB" ++ "=" ++ cfg_database c).
  change ("MYSQL_CHARSET=" ++ cfg_charset c)
    with ("MYSQL_CHARSET" ++ "=" ++ cfg_charset c).
  rewrite read_binding;
    [|discriminate | split; reflexivity | reflexivity | reflexivity
     | assumption].
  cbn [assign String.eqb Char.eqb point N.eqb Pos.eqb andb].
  rewrite read_binding;
    [|discriminate | split; reflexivity | reflexivity | reflexivity
     | assumption].
  cbn [assign String.eqb Char.eqb point N.eqb Pos.eqb andb]. rewrite Hint.
  rewrite read_binding;
    [|discriminate | split; reflexivity | reflexivity | reflexivity
     | assumption].
  cbn [assign String.eqb Char.eqb point N.eqb Pos.eqb andb].
  rewrite read_binding;
    [|discriminate | split; reflexivity | reflexivity | reflexivity
     | assumption].
  cbn [assign String.eqb Char.eqb point N.eqb Pos.eqb andb].
  rewrite read_binding;
    [|discriminate | split; reflexivity | reflexivity | reflexivity
     | assumption].
  cbn [assign String.eqb Char.eqb point N.eqb Pos.eqb andb].
  rewrite read_binding;
    [|discriminate | split; reflexivity | reflexivity | reflexivity
     | assumption].
  cbn [assign String.eqb Char.eqb point N.eqb Pos.eqb andb].
  cbn [host port user password database charset].
  destruct c; reflexivity.
Qed.

(** a setting that no line binds stays unset *)
Lemma read_lines_keeps :
  forall (P : settings -> Prop) key,
    (forall s k v s',
        P s -> k <> key -> assign int s k v = Returned s' -> P s') ->
    forall lines s s',
      P s ->
      (forall line k v,
          In line lines -> split_once (strip line) = Some (k, v) ->
          strip k <> key) ->
      read_lines int s lines = Returned s' -> P s'.
Proof.
  intros P key Hassign. induction lines as [|line lines IH];
    intros s s' Hs Hlines H; cbn [read_lines] in H.
  - injection H as <-. exact Hs.
  - destruct (read_line int s line) as [e|s1] eqn:E; [discriminate|].
    apply (IH s1 s'); [|intros l k v Hl; apply Hlines; now right | exact H].
    unfold read_line in E.
    destruct (_ || _); [injection E as <-; exact Hs|].
    destruct (split_once (strip line)) as [[k v]|] eqn:Esplit;
      [|injection E as <-; exact Hs].
    apply (Hassign s (strip k) (strip v) s1 Hs); [|exact E].
    apply (Hlines line k v); [now left | exact Esplit].
Qed.

Ltac keeps_unset :=
  let s1 := fresh "s" in
  let k1 := fresh "k" in
  let v1 := fresh "v" in
  let s2 := fresh "s" in
  let Hs := fresh "Hs" in
  let Hk := fresh "Hk" in
  let H := fresh "H" in
  intros s1 k1 v1 s2 Hs Hk H; unfold assign in H;
  repeat match type of H with
         | context [String.eqb k1 ?lit] =>
             destruct (Strings.eqb_spec k1 lit);
             [first [contradiction
                    | injection H as <-; exact Hs
                    | destruct (int v1); [discriminate|];
                      injection H as <-; exact Hs]|]
         end;
  injection H as <-; exact Hs.

(** X24.  A setting that no line of the file binds is reported: when the
    lines are read without error, the loader raises the error that lists
    the unset keys, and the key of that setting is in the list; no
    configuration is returned. *)
Theorem unbound_setting_is_reported :
  forall env_path lines key field,
    In (key, field) settings_keys ->
    (forall line k v,
        In line lines -> split_once (strip line) = Some (k, v) ->
        strip k <> key) ->
    match read_lines int unset lines with
    | Raised e => load_mysql_config int env_path (Some lines) = Raised e
    | Returned s =>
        In field (missing s)
        /\ load_mysql_config int env_path (Some lines)
           = Raised (exn_of (".env 缺少必要配置: " ++ list_repr (missing s)))
    end.
Proof.
  intros env_path lines key field Hin Hlines. unfold load_mysql_config.
  destruct (read_lines int unset lines) as [e|s] eqn:E; [reflexivity|].
  assert (Hmiss : In field (missing s)).
  { unfold settings_keys in Hin. cbn [In] in Hin.
    destruct Hin as [Hin|[Hin|[Hin|[Hin|[Hin|[Hin|[]]]]]]];
      injection Hin as <- <-.
    - assert (H : host s = None).
      { apply (read_lines_keeps (fun s => host s = None) "MYSQL_HOST")
          with (lines := lines) (s := unset);
          [keeps_unset | reflexivity | exact Hlines | exact E]. }
      unfold missing. rewrite H. now left.
    - assert (H : port s = None).
      { apply (read_lines_keeps (fun s => port s = None) "MYSQL_PORT")
          with (lines := lines) (s := unset);
          [keeps_unset | reflexivity | exact Hlines | exact E]. }
      unfold missing. rewrite H. apply in_or_app. right. now left.
    - assert (H : user s = None).
      { apply (read_lines_keeps (fun s => user s = None) "MYSQL_USER")
          with (lines := lines) (s := unset);
          [keeps_unset | reflexivity | exact Hlines | exact E]. }
      unfold missing. rewrite H. do 2 (apply in_or_app; right). now left.
    - assert (H : password s = None).
      { apply (read_lines_keeps (fun s => password s = None)
                 "MYSQL_PASSWORD")
          with (lines := lines) (s := unset);
          [keeps_unset | reflexivity | exact Hlines | exact E]. }
      unfold missing. rewrite H. do 3 (apply in_or_app; right). now left.
    - assert (H : database s = None).
      { apply (read_lines_keeps (fun s => database s = None) "MYSQL_DB")
          with (lines := lines) (s := unset);
          [keeps_unset | reflexivity | exact Hlines | exact E]. }
      unfold missing. rewrite H. do 4 (apply in_or_app; right). now left.
    - assert (H : charset s = None).
      { apply (read_lines_keeps (fun s => charset s = None) "MYSQL_CHARSET")
          with (lines := lines) (s := unset);
          [keeps_unset | reflexivity | exact Hlines | exact E]. }
      unfold missing. rewrite H. do 5 (apply in_or_app; right). now left. }
  split; [exact Hmiss|].
  unfold missing in Hmiss.
  destruct (host s), (port s), (user s), (password s), (database s),
    (charset s); try reflexivity.
  cbn in Hmiss. contradiction.
Qed.

End Reading.

Lemma comments_and_blank_lines_ignored_witness :
  load_mysql_config int_3306 ".env"
    (Some ("# local settings" :: env_lines local_shop "3306"))
  = load_mysql_config int_3306 ".env" (Some (env_lines local_shop "3306")).
Proof.
  apply (comments_and_blank_lines_ignored int_3306 ".env" []
           "# local settings" (env_lines local_shop "3306")).
  right. left. reflexivity.
Defined.

Lemma settings_read_back_witness :
  load_mysql_config int_3306 ".env"
    (Some ("MYSQL_HOST = db.internal" :: env_lines local_shop "3306"))
  = Returned local_shop.
Proof.
  apply (settings_read_back int_3306 ".env" ["MYSQL_HOST = db.internal"]
           {| host := Some "db.internal"; port := None; user := None;
              password := None; database := None; charset := None |}
           local_shop "3306");
    first [vm_compute; reflexivity | split; reflexivity].
Defined.

Lemma unbound_setting_is_reported_witness :
  exists e,
    load_mysql_config int_3306 ".env"
      (Some ["MYSQL_HOST=localhost"; "PORT=3306"]) = Raised e.
Proof.
  assert (H : forall line k v,
             In line ["MYSQL_HOST=localhost"; "PORT=3306"] ->
             split_once (strip line) = Some (k, v) ->
             strip k <> "MYSQL_PORT").
  { intros line k v [<-|[<-|[]]] E; vm_compute in E;
      injection E as <- <-; vm_compute; discriminate. }
  pose proof (unbound_setting_is_reported int_3306 ".env"
                ["MYSQL_HOST=localhost"; "PORT=3306"]
                "MYSQL_PORT" "port"
                (or_intror (or_introl eq_refl)) H) as Hr.
  destruct (read_lines int_3306 unset ["MYSQL_HOST=localhost"; "PORT=3306"])
    as [e|s].
  - now exists e.
  - destruct Hr as [_ Hr]. eexists. exact Hr.
Defined.

End ConfigFacts.

(* ================================================================= *)
(** ** Denylisted words are refused by every entry point *)

Module RefusalFacts.
Import Text Re Scanner Spec Notions Py Env Static GateFacts PhraseFacts
  Samples Cases.
Local Open Scope string_scope.

Lemma denylisted_word :
  forall src w,
    In (keyword src w) FORBIDDEN_TOKENS -> proper_word w = true.
Proof.
  intros src w H. unfold FORBIDDEN_TOKENS in H. cbn [In] in H.
  repeat (destruct H as [H|H];
          [first [ injection H as _ <-; vm_compute; reflexivity
                 | discriminate H ]|]).
  contradiction.
Qed.

Lemma denylisted_hit :
  forall t scrubbed,
    In t FORBIDDEN_TOKENS ->
    search (atoms t) scrubbed = true ->
    existsb (fun t => search (atoms t) scrubbed) FORBIDDEN_TOKENS = true
    /\ In (source t) (forbidden_hits scrubbed).
Proof.
  intros t scrubbed Hin Hs. split.
  - apply existsb_exists. now exists t.
  - unfold forbidden_hits. apply in_map. apply filter_In. now split.
Qed.

(** X25.  A statement whose scrubbed text holds a denylisted word as a
    whole word, in any spelling, is refused everywhere: the read-only gate is
    false; the execution and the export return a runtime error without any
    effect; and the static check of the parsed statement lists the pattern
    among the forbidden ones, with a FORBIDDEN_TOKEN finding, a failed
    read-only stage and a failed overall status. *)
Theorem denylisted_word_is_refused :
  forall sql src w,
    In (keyword src w) FORBIDDEN_TOKENS ->
    whole_word w (_remove_comments_and_strings sql) ->
    _is_readonly_select sql = false
    /\ (forall world N P st,
           exists text,
             Dynamic.dynamic_check_sql world sql N P st
             = (Dynamic.runtime_error None None text, st))
    /\ (forall world fetch_size excel_friendly st,
           exists text,
             Exporter.save_to_csv world sql fetch_size excel_friendly st
             = (Returned (Exporter.runtime_error text), st))
    /\ (forall exprs snapshot r,
           static_check_sql sql (Returned exprs) snapshot = Returned r ->
           In src (forbidden (check r))
           /\ readonly (check r) = fail
           /\ overall r = fail
           /\ exists f, In f (findings r) /\ code f = "FORBIDDEN_TOKEN").
Proof.
  intros sql src w Hin Hword.
  pose proof (denylisted_word src w Hin) as Hw.
  assert (Hfound : search (atoms (keyword src w))
                     (_remove_comments_and_strings sql) = true)
    by (apply (word_found_iff w _ Hw); exact Hword).
  destruct (denylisted_hit _ _ Hin Hfound) as [Hex Hhit].
  cbn [source] in Hhit.
  assert (Hro : _is_readonly_select sql = false).
  { unfold _is_readonly_select. rewrite Hex.
    destruct (negb (match_start head_pattern sql)); reflexivity. }
  split; [exact Hro|]. split; [|split].
  - intros. now apply DynamicFacts.dynamic_check_sql_rejects.
  - intros. now apply ExporterFacts.save_to_csv_rejects.
  - intros exprs snapshot r H. unfold static_check_sql in H.
    destruct snapshot as [se|schema_tables]; [discriminate|].
    match type of H with
    | context [match ?x with Raised _ => _ | Returned _ => _ end] =>
        destruct x as [e|[[mt mc] ac]]; [discriminate|]
    end.
    injection H as <-.
    cbn [check findings readonly forbidden overall].
    destruct (forbidden_hits (_remove_comments_and_strings sql))
      as [|hit hits] eqn:Ehits; [contradiction|].
    cbn [is_empty negb]. rewrite orb_true_r. cbn [status_eqb].
    rewrite orb_true_r. cbn [orb].
    split; [exact Hhit|]. split; [reflexivity|]. split; [reflexivity|].
    eexists. split; [apply in_or_app; right; now left | reflexivity].
Qed.

Lemma denylisted_word_is_refused_witness :
  _is_readonly_select "select id from t where drop = 1" = false.
Proof.
  apply (denylisted_word_is_refused "select id from t where drop = 1"
           "\bDROP\b" "DROP").
  - unfold FORBIDDEN_TOKENS. do 6 right. now left.
  - exists "select id from t where ", "drop", " = 1".
    repeat split; vm_compute; reflexivity.
Defined.

Lemma hits_empty_iff :
  forall scrubbed,
    forbidden_hits scrubbed = []
    <-> existsb (fun t => search (atoms t) scrubbed) FORBIDDEN_TOKENS = false.
Proof.
  intros scrubbed. unfold forbidden_hits.
  induction FORBIDDEN_TOKENS as [|t ts IH]; cbn [filter map existsb].
  - split; reflexivity.
  - destruct (search (atoms t) scrubbed); cbn [map orb].
    + split; discriminate.
    + exact IH.
Qed.

(** X26.  The read-only gate of the execution is at least as strict as
    the keyword scan of the static check.  A statement the gate accepts
    begins, after white space and opening parentheses, with a spelling of
    SELECT or WITH, holds no denylisted keyword in its scrubbed text, and
    gets from the static check an empty list of forbidden patterns and no
    FORBIDDEN_TOKEN finding; a statement for which the static check lists
    a forbidden pattern is refused by the gate; and the list is empty
    exactly when the scrubbed text holds no denylisted keyword. *)
Theorem gates_agree_on_denylist :
  forall sql exprs snapshot r,
    static_check_sql sql (Returned exprs) snapshot = Returned r ->
    let scrubbed := _remove_comments_and_strings sql in
    (_is_readonly_select sql = true ->
     begins_with_select_or_with_spelled sql = true
     /\ ~ denylisted scrubbed
     /\ forbidden (check r) = []
     /\ forall f, In f (findings r) -> code f <> "FORBIDDEN_TOKEN")
    /\ (forbidden (check r) <> [] -> _is_readonly_select sql = false)
    /\ (forbidden (check r) = [] <-> ~ denylisted scrubbed).
Proof.
  intros sql exprs snapshot r H scrubbed.
  assert (Hlist : forbidden (check r) = forbidden_hits scrubbed).
  { unfold static_check_sql in H.
    destruct snapshot as [se|schema_tables]; [discriminate|].
    match type of H with
    | context [match ?x with Raised _ => _ | Returned _ => _ end] =>
        destruct x as [e|[[mt mc] ac]]; [discriminate|]
    end.
    injection H as <-. reflexivity. }
  assert (Hnone : forbidden (check r) = [] <-> ~ denylisted scrubbed).
  { rewrite Hlist, hits_empty_iff, <- scan_finds_denylisted.
    destruct (existsb _ FORBIDDEN_TOKENS); split; intros;
      first [reflexivity | discriminate | congruence | contradiction
            | exfalso; auto]. }
  assert (Hgate : _is_readonly_select sql = true ->
                  match_start head_pattern sql = true
                  /\ forbidden (check r) = []).
  { rewrite Hlist, hits_empty_iff. unfold _is_readonly_select.
    fold scrubbed. destruct (match_start head_pattern sql); cbn [negb].
    - rewrite negb_true_iff. tauto.
    - discriminate. }
  split; [|split; [|exact Hnone]].
  - intros Hro. destruct (Hgate Hro) as [Hhead Hempty].
    split; [now apply head_pattern_sound|].
    split; [now apply Hnone|]. split; [exact Hempty|].
    intros f Hf Hcode.
    unfold static_check_sql in H.
    destruct snapshot as [se|schema_tables]; [discriminate|].
    match type of H with
    | context [match ?x with Raised _ => _ | Returned _ => _ end] =>
        destruct x as [e|[[mt mc] ac]]; [discriminate|]
    end.
    injection H as <-. cbn [check findings forbidden] in *.
    fold scrubbed in Hf, Hempty. rewrite Hempty in Hf.
    cbn [is_empty negb] in Hf.
    generalize dependent (negb (Nat.eqb (length exprs) 1)).
    generalize (match exprs with
                | [] => false
                | top :: _ =>
                    negb match top with
                         | Some e => Ast._is_select_like e
                         | None => false
                         end
                end).
    intros [|] [|] Hf; cbn [app In] in Hf;
      repeat (destruct Hf as [Hf|Hf]; [subst f; discriminate|]);
      contradiction.
  - intros Hne. destruct (_is_readonly_select sql) eqn:Hro; [|reflexivity].
    destruct (Hgate eq_refl) as [_ Hempty]. contradiction.
Qed.

Lemma gates_agree_on_denylist_witness :
  exists r,
    static_check_sql sql_t (Returned [Some select_from_t])
      (Returned t_schema) = Returned r
    /\ _is_readonly_select sql_t = true
    /\ forbidden (check r) = []
    /\ ~ denylisted (_remove_comments_and_strings sql_t).
Proof.
  eexists. split; [vm_compute; reflexivity|].
  split; [vm_compute; reflexivity|].
  match goal with
  | |- forbidden (check ?res) = [] /\ _ =>
      destruct (gates_agree_on_denylist sql_t [Some select_from_t]
                  (Returned t_schema) res
                  ltac:(vm_compute; reflexivity)) as [Hgate _]
  end.
  destruct (Hgate ltac:(vm_compute; reflexivity)) as [_ [Hno [Hempty _]]].
  split; [exact Hempty | exact Hno].
Defined.

End RefusalFacts.

(* ================================================================= *)
(** ** The derived aliases of a statement *)

Module DerivedFacts.
Import Text Ast Resolver AstFacts ResolverFacts DictFacts AliasFacts Samples
  Cases.
Local Open Scope string_scope.

Lemma collect_fold_iff :
  forall xs acc x,
    In x (fold_left
            (fun aliases a =>
               if String.eqb a "" then aliases else lower a :: aliases)
            xs acc)
    <-> In x acc \/ exists a, In a xs /\ a <> "" /\ x = lower a.
Proof.
  induction xs as [|y ys IH]; intros acc x; cbn [fold_left].
  - split; [now left | intros [H|[a [[] _]]]; exact H].
  - rewrite IH. destruct (Strings.eqb_spec y "") as [->|Hy].
    + split.
      * intros [H|[a [Ha H]]]; [now left|]. right. exists a.
        split; [now right | exact H].
      * intros [H|[a [[<-|Ha] [Hne Hx]]]]; [now left | contradiction|].
        right. now exists a.
    + split.
      * intros [[<-|H]|[a [Ha H]]].
        -- right. exists y. repeat split; auto. now left.
        -- now left.
        -- right. exists a. split; [now right | exact H].
      * intros [H|[a [[<-|Ha] [Hne Hx]]]].
        -- left. now right.
        -- left. left. now symmetry.
        -- right. now exists a.
Qed.

Lemma find_all_ctes_iff :
  forall root a,
    In a (find_all_ctes root)
    <-> exists d args, reaches root d (Node (CTE a) args).
Proof.
  intros root a. split.
  - unfold find_all_ctes. intros H. apply in_flat_map in H.
    destruct H as [[k anc] [Hv H]]. simpl in H.
    destruct k; simpl in H; try contradiction.
    destruct H as [H|[]]. subst.
    destruct (walk_sound _ _ _ Hv) as [d [[k args] [Hr Hk]]].
    simpl in Hk. subst k. now exists d, args.
  - intros [d [args H]]. now apply find_all_ctes_reaches with d args.
Qed.

Lemma find_all_subqueries_iff :
  forall root a,
    In a (find_all_subqueries root)
    <-> exists d args, reaches root d (Node (Subquery a) args).
Proof.
  intros root a. split.
  - unfold find_all_subqueries. intros H. apply in_flat_map in H.
    destruct H as [[k anc] [Hv H]]. simpl in H.
    destruct k; simpl in H; try contradiction.
    destruct H as [H|[]]. subst.
    destruct (walk_sound _ _ _ Hv) as [d [[k args] [Hr Hk]]].
    simpl in Hk. subst k. now exists d, args.
  - intros [d [args H]]. now apply find_all_subqueries_reaches with d args.
Qed.

(** X27.  The derived aliases of a statement are exactly the lower-cased
    non-empty aliases of its CTE nodes and of its subquery nodes. *)
Theorem derived_aliases_domain :
  forall root x,
    In x (_collect_derived_aliases root)
    <-> exists a d args,
          a <> "" /\ x = lower a
          /\ (reaches root d (Node (CTE a) args)
              \/ reaches root d (Node (Subquery a) args)).
Proof.
  intros root x. unfold _collect_derived_aliases.
  rewrite !collect_fold_iff. split.
  - intros [[[]|[a [Ha [Hne Hx]]]]|[a [Ha [Hne Hx]]]].
    + apply find_all_ctes_iff in Ha. destruct Ha as [d [args Hr]].
      exists a, d, args. auto.
    + apply find_all_subqueries_iff in Ha. destruct Ha as [d [args Hr]].
      exists a, d, args. auto.
  - intros [a [d [args [Hne [Hx [Hr|Hr]]]]]].
    + left. right. exists a. split; [|now split].
      apply find_all_ctes_iff. now exists d, args.
    + right. exists a. split; [|now split].
      apply find_all_subqueries_iff. now exists d, args.
Qed.

End DerivedFacts.
